(** * paper-skills: the LaTeX extraction and consistency engine

    A shallow embedding of the three checker scripts of the repository

    - [validate_citations.py]      (module [ValidateCitations]),
    - [parse_latex_structure.py]   (module [ParseLatexStructure]),
    - [verify_content_targets.py]  (module [VerifyContentTargets]),

    together with the properties their specification states about them.

    Conventions.  A Python [str] is a [list ascii]: one [ascii] per code
    point, which covers the code points 0 to 255.  Python's character
    classes ([str.isspace], the [\s], [\w], [\d] and [\b] of [re]),
    [str.lower] and [str.splitlines] are written out for that range.  A
    regular expression of the scripts is embedded as the matcher it denotes
    (leftmost match, greedy or lazy quantifiers as written); each matcher
    quotes its pattern.  Sets are [gset]s, [sorted] is a merge sort for the
    code-point order on strings, dictionaries are [gmap]s. *)

From Stdlib Require Import Ascii String QArith.
From stdpp Require Import gmap strings list sorting.
Close Scope Q_scope.

Abbreviation text := (list ascii).

(** [txt "abc"] is the Python literal ["abc"]; a string literal is read as
    a [text] where one is expected. *)
Definition txt (s : string) : text := list_ascii_of_string s.
Coercion txt : string >-> list.

(** ** Python string primitives *)
Module Py.

Definition ord (c : ascii) : nat := nat_of_ascii c.

Definition in_range (lo hi : nat) (c : ascii) : bool :=
  (lo <=? ord c) && (ord c <=? hi).

(** [c.isspace()], also the class [\s] of [re] on [str] patterns. *)
Definition isspace (c : ascii) : bool :=
  in_range 9 13 c || in_range 28 32 c || (ord c =? 133) || (ord c =? 160).

(** The class [\d]: the decimal digits. *)
Definition isdigit (c : ascii) : bool := in_range 48 57 c.

Definition is_upper_az (c : ascii) : bool := in_range 65 90 c.
Definition is_lower_az (c : ascii) : bool := in_range 97 122 c.
Definition is_az (c : ascii) : bool := is_upper_az c || is_lower_az c.

(** [c.isalnum()]: letters and numeric characters of the range. *)
Definition isalnum (c : ascii) : bool :=
  isdigit c || is_az c
  || (ord c =? 170) || (ord c =? 178) || (ord c =? 179) || (ord c =? 181)
  || (ord c =? 185) || (ord c =? 186) || in_range 188 190 c
  || in_range 192 214 c || in_range 216 246 c || in_range 248 255 c.

(** The class [\w]: alphanumeric or underscore. *)
Definition isword (c : ascii) : bool := isalnum c || (ord c =? 95).

(** [c.lower()]. *)
Definition lower_char (c : ascii) : ascii :=
  if is_upper_az c || in_range 192 214 c || in_range 216 222 c
  then ascii_of_nat (ord c + 32) else c.

Definition lower (s : text) : text := map lower_char s.

Definition eqc (a b : ascii) : bool := bool_decide (a = b).

Definition eqt (a b : text) : bool := bool_decide (a = b).

(** [s.startswith(p)]. *)
Fixpoint startswith (p s : text) : bool :=
  match p, s with
  | [], _ => true
  | a :: p', b :: s' => eqc a b && startswith p' s'
  | _ :: _, [] => false
  end.

(** [s.endswith(p)]. *)
Definition endswith (p s : text) : bool := startswith (rev p) (rev s).

(** [sub in s]. *)
Fixpoint contains (sub s : text) : bool :=
  startswith sub s ||
  match s with
  | [] => false
  | _ :: s' => contains sub s'
  end.

(** [s.replace(old, new)] for a nonempty [old]: the occurrences are taken
    from the left and do not overlap.  [skip] counts the characters of an
    occurrence that are still to be passed over. *)
Fixpoint replace_from (old new : text) (skip : nat) (s : text) : text :=
  match s with
  | [] => []
  | c :: s' =>
      match skip with
      | S k => replace_from old new k s'
      | O =>
          if startswith old s
          then new ++ replace_from old new (length old - 1) s'
          else c :: replace_from old new 0 s'
      end
  end.

Definition replace (old new s : text) : text := replace_from old new 0 s.

(** [s.split(c, 1)[0]]: what precedes the first [c], all of [s] without. *)
Fixpoint before_first (c : ascii) (s : text) : text :=
  match s with
  | [] => []
  | x :: s' => if eqc x c then [] else x :: before_first c s'
  end.

(** [s.partition(c)] for a one-character [c] that occurs in [s]: what
    precedes its first occurrence and what follows it. *)
Fixpoint split_at_first (c : ascii) (s : text) : option (text * text) :=
  match s with
  | [] => None
  | x :: s' =>
      if eqc x c then Some ([], s')
      else '(before, after) ← split_at_first c s'; Some (x :: before, after)
  end.

(** The longest prefix of characters of a class, and the rest. *)
Fixpoint span (p : ascii → bool) (s : text) : text * text :=
  match s with
  | c :: s' => if p c then let '(run, rest) := span p s' in (c :: run, rest)
               else ([], s)
  | [] => ([], [])
  end.

(** [pattern.search(s)] for a pattern given by its matcher at the start of
    a text: the match at the leftmost position that has one. *)
Fixpoint search {A} (m : text → option A) (s : text) : option A :=
  match m s with
  | Some a => Some a
  | None => match s with [] => None | _ :: s' => search m s' end
  end.

(** [s] without the prefix [p], if it starts with it. *)
Fixpoint strip_prefix (p s : text) : option text :=
  match p, s with
  | [], _ => Some s
  | a :: p', b :: s' => if eqc a b then strip_prefix p' s' else None
  | _ :: _, [] => None
  end.

(** [s] without the prefix [p], compared without regard to case as under
    [re.IGNORECASE] ([p] is in lower case). *)
Fixpoint strip_prefix_ci (p s : text) : option text :=
  match p, s with
  | [], _ => Some s
  | a :: p', b :: s' =>
      if eqc a (lower_char b) then strip_prefix_ci p' s' else None
  | _ :: _, [] => None
  end.

(** [re.search(r"\b(w1|w2|...)\b", s, re.IGNORECASE)] finds a match, for
    words that begin and end with a letter: somewhere in [s] one of the
    words stands between two word boundaries.  [prev_word] tells that the
    previous character is a word character. *)
Fixpoint word_search (words : list text) (prev_word : bool) (s : text) : bool :=
  match s with
  | [] => false
  | c :: s' =>
      (negb prev_word
       && existsb (λ w, match strip_prefix_ci w s with
                        | Some [] => true
                        | Some (d :: _) => negb (isword d)
                        | None => false
                        end) words)
      || word_search words (isword c) s'
  end.

(** [s.lstrip()], [s.rstrip()], [s.strip()]. *)
Fixpoint lstrip (s : text) : text :=
  match s with
  | c :: s' => if isspace c then lstrip s' else s
  | [] => []
  end.

Definition rstrip (s : text) : text := rev (lstrip (rev s)).

Definition strip (s : text) : text := rstrip (lstrip s).

(** [s.split()]: the maximal runs of non-whitespace characters. *)
Fixpoint split_go (cur : text) (s : text) : list text :=
  match s with
  | [] => match cur with [] => [] | _ => [rev cur] end
  | c :: s' =>
      if isspace c
      then match cur with [] => split_go [] s' | _ => rev cur :: split_go [] s' end
      else split_go (c :: cur) s'
  end.

Definition split (s : text) : list text := split_go [] s.

(** [sep.join(l)]. *)
Fixpoint join (sep : text) (l : list text) : text :=
  match l with
  | [] => []
  | [x] => x
  | x :: l' => x ++ sep ++ join sep l'
  end.

(** [s.count(c)] for a one-character [c]. *)
Definition count (c : ascii) (s : text) : nat :=
  length (filter (λ x, x = c) s).

(** [s.splitlines()]: the line boundaries of [str.splitlines] in the
    range, a carriage return followed by a line feed counting once. *)
Definition is_linebreak (c : ascii) : bool :=
  in_range 10 13 c || in_range 28 30 c || (ord c =? 133).

Fixpoint splitlines_go (cur : text) (s : text) : list text :=
  match s with
  | [] => match cur with [] => [] | _ => [rev cur] end
  | c :: s' =>
      if is_linebreak c then
        match s' with
        | d :: s'' =>
            if (ord c =? 13) && (ord d =? 10)
            then rev cur :: splitlines_go [] s''
            else rev cur :: splitlines_go [] s'
        | [] => [rev cur]
        end
      else splitlines_go (c :: cur) s'
  end.

Definition splitlines (s : text) : list text := splitlines_go [] s.

End Py.

(** ** The comment stripper

    [_strip_comment] is the same function in the three scripts:

      escaped = line.replace(r"\%", "__PERCENT__")
      code = escaped.split("%", 1)[0]
      return code.replace("__PERCENT__", r"\%")  *)

Definition PERCENT : text := txt "__PERCENT__".
Definition escaped_percent : text := txt "\%".

Definition strip_comment (line : text) : text :=
  let escaped := Py.replace escaped_percent PERCENT line in
  let code := Py.before_first "%" escaped in
  Py.replace PERCENT escaped_percent code.

(** What the contract asks for, read off the line itself: an escaped
    comment character is kept, the first unescaped one ends the line. *)
Fixpoint uncommented (line : text) : text :=
  match line with
  | [] => []
  | c :: rest =>
      if Py.eqc c "%" then []
      else if Py.eqc c "\" then
        match rest with
        | d :: rest' =>
            if Py.eqc d "%" then c :: d :: uncommented rest'
            else c :: uncommented rest
        | [] => [c]
        end
      else c :: uncommented rest
  end.

(** ** Values shared by the scripts *)

(** The one-character string of a line feed. *)
Definition newline : text := ["010"%char].

(** The order of [str]: code point by code point, a proper prefix first. *)
Definition text_le (a b : text) : Prop :=
  String.le (string_of_list_ascii a) (string_of_list_ascii b).

Global Instance text_le_dec : RelDecision text_le.
Proof. intros a b. unfold text_le. apply _. Defined.

(** [sorted(s)] for a set of strings. *)
Definition sorted (s : gset text) : list text := merge_sort text_le (elements s).

(** The values stored in the report dictionaries; a dictionary literal is
    the list of its items in the order they are written. *)
Inductive value :=
| VStr (s : text)
| VInt (n : Z)
| VNone.

Abbreviation dict := (list (string * value)).

Global Instance value_eq_dec : EqDecision value.
Proof. solve_decision. Defined.

(** [d.get(k)]. *)
Fixpoint get (k : string) (d : dict) : option value :=
  match d with
  | [] => None
  | (k', v) :: d' => if decide (k' = k) then Some v else get k d'
  end.

Definition has_type (t : text) (d : dict) : bool :=
  bool_decide (get "type" d = Some (VStr t)).

Definition of_type (t : text) (issues : list dict) : list dict :=
  filter (λ d, has_type t d = true) issues.

(** [x or None] for a string [x]. *)
Definition or_none (x : text) : value :=
  match x with [] => VNone | _ => VStr x end.

(** The set of the keys of a list of records: [{x["key"] for x in items}]. *)
Definition key_set {A} (field : A → text) (items : list A) : gset text :=
  list_to_set (field <$> items).

(** A citation occurrence: [{"key", "command", "file", "line"}]. *)
Record Citation := {
  c_key : text;
  c_command : text;
  c_file : text;
  c_line : nat;
}.

(** A cross-reference occurrence: [{"key", "file", "line"}]. *)
Record Ref := {
  r_key : text;
  r_file : text;
  r_line : nat;
}.

(** One match of [\\(c1|c2|...)\*?\{([^}]+)\}] at the start of [s], for the
    command names [commands] of a section pattern, none of which is a prefix
    of another: the command, group 2 and what follows the match. *)
Definition match_section (commands : list text) (s : text)
    : option (text * text * text) :=
  match s with
  | "\"%char :: s1 =>
      command ← snd <$> list_find (λ command, Py.startswith command s1 = true) commands;
      let s2 := drop (length command) s1 in
      let s3 := match s2 with "*"%char :: r => r | _ => s2 end in
      match s3 with
      | "{"%char :: r =>
          match Py.split_at_first "}" r with
          | Some (c :: name, rest) => Some (command, c :: name, rest)
          | _ => None
          end
      | _ => None
      end
  | _ => None
  end.

(** The matches of [finditer], from the left and without overlap: for each
    the command and group 2. *)
Fixpoint section_matches (commands : list text) (skip : nat) (s : text)
    : list (text * text) :=
  match s with
  | [] => []
  | c :: s' =>
      match skip with
      | S k => section_matches commands k s'
      | O =>
          match match_section commands s with
          | Some (command, name, rest) =>
              (command, name)
              :: section_matches commands (length s' - length rest) s'
          | None => section_matches commands 0 s'
          end
      end
  end.

(** ** validate_citations.py *)
Module ValidateCitations.

Record BibEntry := {
  key : text;
  entry_type : text;
  file : text;
  line : nat;
  title : text;
  author : text;
  year : text;
  doi : text;
  arxiv : text;
}.

(** [{c["key"] for c in citations}] *)
Definition cited_keys (citations : list Citation) : gset text :=
  key_set c_key citations.

(** [{entry.key: entry for entry in bib_entries}]: a later entry
    overwrites an earlier one with the same key. *)
Definition bib_key_map (bib_entries : list BibEntry) : gmap text BibEntry :=
  foldl (λ m entry, <[key entry := entry]> m) ∅ bib_entries.

Definition bib_keys (bib_entries : list BibEntry) : gset text :=
  dom (bib_key_map bib_entries).

Definition undefined_keys citations bib_entries : list text :=
  sorted (cited_keys citations ∖ bib_keys bib_entries).

Definition uncited_keys citations bib_entries : list text :=
  sorted (bib_keys bib_entries ∖ cited_keys citations).

Definition undefined_issue (k : text) (first : Citation) : dict :=
  [("type", VStr "undefined_citation");
   ("severity", VStr "error");
   ("key", VStr k);
   ("file", VStr (c_file first));
   ("line", VInt (Z.of_nat (c_line first)))].

Definition uncited_issue (k : text) (entry : BibEntry) : dict :=
  [("type", VStr "uncited_bibliography_entry");
   ("severity", VStr "warning");
   ("key", VStr k);
   ("file", VStr (file entry));
   ("line", VInt (Z.of_nat (line entry)))].

Definition style_issue (c : Citation) : dict :=
  [("type", VStr "citation_style_generic_cite");
   ("severity", VStr "info");
   ("key", VStr (c_key c));
   ("file", VStr (c_file c));
   ("line", VInt (Z.of_nat (c_line c)));
   ("message", VStr "Consider replacing \cite with \citep or \citet based on sentence usage.")].

(** [next(c for c in citations if c["key"] == key)]; [None] is the
    [StopIteration] of an exhausted generator. *)
Definition first_citation (citations : list Citation) (k : text) : option Citation :=
  snd <$> list_find (λ c, c_key c = k) citations.

Definition style_issues (citations : list Citation) : list Citation :=
  filter (λ c, Py.lower (c_command c) = txt "cite") citations.

(** The [local_issues] of [main]; [None] is an exception ([StopIteration]
    from [next], [KeyError] from [bib_key_map[key]]). *)
Definition local_issues (citations : list Citation) (bib_entries : list BibEntry)
    : option (list dict) :=
  undefined ← mapM (λ k, undefined_issue k <$> first_citation citations k)
                   (undefined_keys citations bib_entries);
  uncited ← mapM (λ k, uncited_issue k <$> bib_key_map bib_entries !! k)
                 (uncited_keys citations bib_entries);
  Some (undefined ++ uncited ++ (style_issue <$> style_issues citations)).

(** *** Bibliography parsing *)

(** The brace-depth scan shared by [_parse_bib_fields] and
    [_parse_bib_entries]:

      while j < n and depth > 0:
          char = text[j]
          if char == "{": depth += 1
          elif char == "}": depth -= 1
          j += 1

    It returns the final depth, the characters passed over and the rest. *)
Fixpoint brace_scan (depth : nat) (s : text) : nat * text * text :=
  match depth, s with
  | O, _ => (O, [], s)
  | S d, [] => (depth, [], [])
  | S d, c :: s' =>
      let depth' :=
        if Py.eqc c "{" then S depth else if Py.eqc c "}" then d else depth in
      let '(final, scanned, rest) := brace_scan depth' s' in
      (final, c :: scanned, rest)
  end.

(** [text[start : i - 1]]: the scanned characters without the last one. *)
Definition without_last (s : text) : text := take (length s - 1) s.

(** The scan of a quoted value: up to a double quote (character 34) that no
    backslash precedes; [prev] is the character before the current one. *)
Fixpoint quote_scan (prev : ascii) (s : text) : text * text :=
  match s with
  | [] => ([], [])
  | c :: s' =>
      if Py.eqc c "034" && negb (Py.eqc prev "\") then ([], s)
      else let '(value, rest) := quote_scan c s' in (c :: value, rest)
  end.

(** One match of [( [A-Za-z][A-Za-z0-9_-]* )\s*=] (written here with blanks
    around group 1) at the start of [s]: group 1 and what follows the
    match. *)
Definition is_name_char (c : ascii) : bool :=
  Py.is_az c || Py.isdigit c || Py.eqc c "_" || Py.eqc c "-".

Definition match_field_name (s : text) : option (text * text) :=
  match s with
  | c :: s1 =>
      if Py.is_az c then
        let '(more, s2) := Py.span is_name_char s1 in
        match snd (Py.span Py.isspace s2) with
        | "="%char :: r => Some (c :: more, r)
        | _ => None
        end
      else None
  | [] => None
  end.

(** [fields_text[i] in " \t\r\n,"] *)
Definition is_separator (c : ascii) : bool :=
  Py.eqc c " " || Py.eqc c "009" || Py.eqc c "013" || Py.eqc c "010" || Py.eqc c ",".

(** The value that starts at [s], and the rest of the text after it. *)
Definition parse_value (s : text) : text * text :=
  match s with
  | "{"%char :: s' =>
      let '(depth, scanned, rest) := brace_scan 1 s' in
      (match depth with O => without_last scanned | _ => scanned end, rest)
  | "034"%char :: s' =>
      let '(value, rest) := quote_scan "034" s' in
      (value, match rest with "034"%char :: r => r | _ => rest end)
  | _ => Py.span (λ c, negb (Py.eqc c "," || Py.eqc c "010" || Py.eqc c "013")) s
  end.

(** One round of the loop of [_parse_bib_fields] with [s = fields_text[i:]]
    not empty: the field found, if any, and the text the next round starts
    at; [None] is the [break]. *)
Definition parse_field (s : text) : option (option (text * text) * text) :=
  match s with
  | [] => None
  | c :: s' =>
      if is_separator c then Some (None, s')
      else
        match match_field_name s with
        | None => Some (None, s')
        | Some (name, after) =>
            match snd (Py.span Py.isspace after) with
            | [] => None
            | v =>
                let '(value, rest) := parse_value v in
                Some (Some (Py.lower name,
                            Py.join " " (Py.split (Py.strip value))), rest)
            end
        end
  end.

(** The loop of [_parse_bib_fields]; [skip] counts the characters that the
    last round has consumed and that are still to be passed over. *)
Fixpoint parse_fields_from (skip : nat) (fields : gmap text text) (s : text)
    : gmap text text :=
  match s with
  | [] => fields
  | c :: s' =>
      match skip with
      | S k => parse_fields_from k fields s'
      | O =>
          match parse_field s with
          | None => fields
          | Some (None, rest) =>
              parse_fields_from (length s' - length rest) fields s'
          | Some (Some (name, value), rest) =>
              parse_fields_from (length s' - length rest)
                (<[name := value]> fields) s'
          end
      end
  end.

Definition parse_bib_fields (fields_text : text) : gmap text text :=
  parse_fields_from 0 ∅ fields_text.

(** One match of [@(\w+)\s*\{] at the start of [s]: group 1 and what follows
    the opening brace. *)
Definition match_header (s : text) : option (text * text) :=
  match s with
  | "@"%char :: s1 =>
      let '(word, s2) := Py.span Py.isword s1 in
      match word with
      | [] => None
      | _ =>
          match snd (Py.span Py.isspace s2) with
          | "{"%char :: r => Some (word, r)
          | _ => None
          end
      end
  | _ => None
  end.

(** [fields.get(name, "")] *)
Definition field (fields : gmap text text) (name : text) : text :=
  default [] (fields !! name).

(** The entry built from the block between the braces of a record, if the
    block has a comma. *)
Definition entry_of_block (rel entry_type : text) (line_no : nat) (block : text)
    : option BibEntry :=
  '(before, fields_text) ← Py.split_at_first "," block;
  let fields := parse_bib_fields fields_text in
  Some {| key := Py.strip before;
          entry_type := entry_type;
          file := rel;
          line := line_no;
          title := field fields "title";
          author := field fields "author";
          year := field fields "year";
          doi := field fields "doi";
          arxiv := default (field fields "arxiv") (fields !! txt "eprint") |}.

(** One round of the loop of [_parse_bib_entries] at an [@]: [None] is the
    [break] of a record that is never closed, otherwise the entry found, if
    any, and the text the next round starts at. *)
Definition parse_record (rel : text) (line_no : nat) (s : text)
    : option (option BibEntry * text) :=
  match match_header s with
  | None => Some (None, tail s)
  | Some (word, body) =>
      let '(depth, scanned, rest) := brace_scan 1 body in
      match depth with
      | O => Some (entry_of_block rel (Py.lower word) line_no (without_last scanned),
                   rest)
      | _ => None
      end
  end.

(** The loop of [_parse_bib_entries] over one file; [newlines] counts the
    line feeds before the current character, [skip] the characters that the
    last round has consumed and that are still to be passed over. *)
Fixpoint parse_entries_from (rel : text) (skip newlines : nat) (s : text)
    : list BibEntry :=
  match s with
  | [] => []
  | c :: s' =>
      let newlines' := if Py.eqc c "010" then S newlines else newlines in
      match skip with
      | S k => parse_entries_from rel k newlines' s'
      | O =>
          if Py.eqc c "@" then
            match parse_record rel (newlines + 1) s with
            | None => []
            | Some (entry, rest) =>
                from_option (λ e, [e]) [] entry
                ++ parse_entries_from rel (length s' - length rest) newlines' s'
            end
          else parse_entries_from rel 0 newlines' s'
      end
  end.

(** [_parse_bib_entries] over the files, each given by its path relative
    to the root and its content. *)
Definition parse_bib_entries (bib_files : list (text * text)) : list BibEntry :=
  concat ((λ '(rel, content), parse_entries_from rel 0 0 content) <$> bib_files).

(** *** Title normalisation and similarity *)

(** One match, at the start of [s], of the pattern

      \\[a-zA-Z]+\*?(\[[^\]]*\])?\{( [^}]* )\}

    (written here with blanks around group 2): the text of group 2 and what
    follows the match.  The letters, the star and the bracketed option are
    taken greedily; giving any of them back never lets the rest of the
    pattern match. *)
Definition match_command (s : text) : option (text * text) :=
  match s with
  | "\"%char :: s1 =>
      let '(letters, s2) := Py.span Py.is_az s1 in
      match letters with
      | [] => None
      | _ =>
          let s3 := match s2 with "*"%char :: r => r | _ => s2 end in
          let s4 :=
            match s3 with
            | "["%char :: r =>
                match Py.split_at_first "]" r with
                | Some (_, after) => after
                | None => s3
                end
            | _ => s3
            end in
          match s4 with
          | "{"%char :: r => Py.split_at_first "}" r
          | _ => None
          end
      end
  | _ => None
  end.

(** [re.sub(<the pattern above>, r"\2", s)]: the matches are taken from the
    left and do not overlap; [skip] counts the characters of a match that
    are still to be passed over. *)
Fixpoint unwrap_commands (skip : nat) (s : text) : text :=
  match s with
  | [] => []
  | c :: s' =>
      match skip with
      | S k => unwrap_commands k s'
      | O =>
          match match_command s with
          | Some (inner, rest) =>
              inner ++ unwrap_commands (length s' - length rest) s'
          | None => c :: unwrap_commands 0 s'
          end
      end
  end.

(** [re.sub(r"[{}]", "", s)] *)
Definition drop_braces (s : text) : text :=
  filter (λ c, c ≠ "{"%char ∧ c ≠ "}"%char) s.

(** [re.sub(r"[^a-zA-Z0-9\s]", " ", s)] *)
Definition blank_punctuation (s : text) : text :=
  map (λ c, if Py.is_az c || Py.isdigit c || Py.isspace c then c else " "%char) s.

(** [re.sub(r"\s+", " ", s)]; [in_run] tells that the previous character
    was whitespace. *)
Fixpoint collapse_spaces (in_run : bool) (s : text) : text :=
  match s with
  | [] => []
  | c :: s' =>
      if Py.isspace c
      then (if in_run then [] else [" "%char]) ++ collapse_spaces true s'
      else c :: collapse_spaces false s'
  end.

Definition normalize_title (title : text) : text :=
  match title with
  | [] => []
  | _ =>
      let cleaned := unwrap_commands 0 title in
      let cleaned := drop_braces cleaned in
      let cleaned := blank_punctuation cleaned in
      let cleaned := collapse_spaces false cleaned in
      Py.lower (Py.strip cleaned)
  end.

(** [_title_match_score].  The floats [0.0], [0.9], [1.0] and
    [overlap / union] are the rationals they approximate.  The callers
    compare a score with [0.6] and [0.75], and with another score.
    Rounding to the nearest float is monotone, and two different quotients
    between 0 and 1 with denominators below 2^26 are more than 2^-52 apart
    and round to different floats, so these comparisons agree with the
    rational ones. *)
Definition title_match_score (a b : text) : Q :=
  let na := normalize_title a in
  let nb := normalize_title b in
  if bool_decide (na = []) || bool_decide (nb = []) then 0%Q
  else if bool_decide (na = nb) then 1%Q
  else if Py.contains na nb || Py.contains nb na then (9 # 10)%Q
  else
    let set_a : gset text := list_to_set (Py.split na) in
    let set_b : gset text := list_to_set (Py.split nb) in
    if bool_decide (set_a = ∅) || bool_decide (set_b = ∅) then 0%Q
    else
      let overlap := size (set_a ∩ set_b) in
      let union := size (set_a ∪ set_b) in
      (Z.of_nat overlap # Pos.of_nat union)%Q.

(** *** The remote matcher

    Crossref is reached through [_http_get_json] only.  A request is
    determined by the works endpoint it addresses; a response is a failure
    of the call (with the reason that ends up in the message) or the
    [message] object of the decoded payload, of which the code reads the
    list under ["title"] and the list under ["items"]. *)

Inductive Status := valid | needs_correction | likely_hallucinated | not_found.

Global Instance Status_eq_dec : EqDecision Status.
Proof. solve_decision. Defined.

Record Remote := { remote_doi : text; remote_title : text }.

Record Result := {
  status : Status;
  confidence : option Q;
  message : text;
  remote : option Remote;
}.

Inductive Request :=
| WorksByDoi (doi : text)
| WorksByTitle (title : text).

Record Work := { work_titles : list text; work_doi : text }.

Record Message := { titles : list text; items : list Work }.

Inductive Response :=
| Failed (reason : text)
| Decoded (msg : Message).

(** [re.sub(r"^https?://(dx\.)?doi\.org/", "", s, flags=re.IGNORECASE)] *)
Definition strip_doi_url (s : text) : text :=
  let after :=
    r1 ← Py.strip_prefix_ci "http" s;
    r3 ← Py.strip_prefix_ci "://" (default r1 (Py.strip_prefix_ci "s" r1));
    Py.strip_prefix_ci "doi.org/" (default r3 (Py.strip_prefix_ci "dx." r3)) in
  default s after.

(** [titles[0]] when the list is not empty, [""] otherwise. *)
Definition first_title (l : list text) : text := default [] (head l).

Section Remote.

(** The service, and [round(x, 3)]. *)
Variable http_get_json : Request → Response.
Variable round3 : Q → Q.

(** Each validator returns the requests it has sent with its result. *)
Definition validate_by_doi (entry : BibEntry) : list Request * Result :=
  let doi := strip_doi_url (Py.strip (doi entry)) in
  match doi with
  | [] => ([], {| status := not_found; confidence := None;
                  message := "Empty DOI"; remote := None |})
  | _ =>
      match http_get_json (WorksByDoi doi) with
      | Failed reason =>
          ([WorksByDoi doi],
           {| status := not_found; confidence := None;
              message := "DOI lookup failed: " ++ reason; remote := None |})
      | Decoded msg =>
          let remote_title := first_title (titles msg) in
          let score := title_match_score (title entry) remote_title in
          ([WorksByDoi doi],
           if Qle_bool (6 # 10) score then
             {| status := valid; confidence := Some (round3 score);
                message := "DOI verified in Crossref";
                remote := Some {| remote_doi := doi; remote_title := remote_title |} |}
           else
             {| status := needs_correction; confidence := Some (round3 score);
                message := "DOI exists but title mismatch";
                remote := Some {| remote_doi := doi; remote_title := remote_title |} |})
      end
  end.

(** The loop over the candidates: the first of the best-scoring ones. *)
Definition best_match (entry : BibEntry) (candidates : list Work)
    : option Remote * Q :=
  foldl (λ '(best, best_score) item,
           let remote_title := first_title (work_titles item) in
           let score := title_match_score (title entry) remote_title in
           if negb (Qle_bool score best_score)
           then (Some {| remote_doi := work_doi item; remote_title := remote_title |},
                 score)
           else (best, best_score))
        (None, 0%Q) candidates.

Definition validate_by_title (entry : BibEntry) : list Request * Result :=
  match Py.strip (title entry) with
  | [] => ([], {| status := not_found; confidence := None;
                  message := "No title for remote validation"; remote := None |})
  | _ =>
      let sent := [WorksByTitle (title entry)] in
      match http_get_json (WorksByTitle (title entry)) with
      | Failed reason =>
          (sent, {| status := not_found; confidence := None;
                    message := "Title lookup failed: " ++ reason; remote := None |})
      | Decoded msg =>
          match items msg with
          | [] => (sent, {| status := likely_hallucinated; confidence := None;
                            message := "No Crossref results for title";
                            remote := None |})
          | _ =>
              match best_match entry (items msg) with
              | (None, _) =>
                  (sent, {| status := likely_hallucinated; confidence := None;
                            message := "No usable Crossref match"; remote := None |})
              | (Some best, best_score) =>
                  (sent,
                   if Qle_bool (75 # 100) best_score then
                     if bool_decide (doi entry ≠ []) && bool_decide (remote_doi best ≠ [])
                        && negb (Py.eqt (Py.lower (Py.strip (doi entry)))
                                        (Py.lower (remote_doi best)))
                     then {| status := needs_correction;
                             confidence := Some (round3 best_score);
                             message := "Best title match suggests DOI correction";
                             remote := Some best |}
                     else if bool_decide (doi entry = []) && bool_decide (remote_doi best ≠ [])
                     then {| status := needs_correction;
                             confidence := Some (round3 best_score);
                             message := "Matching paper found; DOI can be added";
                             remote := Some best |}
                     else {| status := valid;
                             confidence := Some (round3 best_score);
                             message := "Title validated against Crossref";
                             remote := Some best |}
                   else {| status := needs_correction;
                           confidence := Some (round3 best_score);
                           message := "Only weak title match found";
                           remote := Some best |})
              end
          end
      end
  end.

(** The body of the loop of [main] over the entries when [--remote] is
    given. *)
Definition validate_entry (entry : BibEntry) : list Request * Result :=
  if bool_decide (doi entry ≠ []) then
    let '(sent, result) := validate_by_doi entry in
    if bool_decide (status result = not_found) && bool_decide (title entry ≠ []) then
      let '(sent', fallback) := validate_by_title entry in
      (sent ++ sent',
       if bool_decide (status fallback ≠ not_found) then fallback else result)
    else (sent, result)
  else if bool_decide (title entry ≠ []) then validate_by_title entry
  else ([], {| status := not_found; confidence := None;
               message := "No title or DOI for remote validation"; remote := None |}).

Record ValidationResult := {
  vr_key : text;
  vr_status : Status;
  vr_confidence : Q;
  vr_message : text;
  vr_remote : option Remote;
}.

Definition validation_results (args_remote : bool) (bib_entries : list BibEntry)
    : list ValidationResult :=
  if args_remote then
    (λ entry,
       let result := snd (validate_entry entry) in
       {| vr_key := key entry;
          vr_status := status result;
          vr_confidence := default 0%Q (confidence result);
          vr_message := message result;
          vr_remote := remote result |}) <$> bib_entries
  else [].

End Remote.

End ValidateCitations.

(** ** The inclusion-tree resolver

    [_resolve_include] and the nested function [walk] are the same in
    [parse_latex_structure.py] and [verify_content_targets.py], up to what
    [walk] collects on its way.  The choice of the main file is an input
    here. *)
Module Inclusion.

(** What the scripts ask of [pathlib]: [p.resolve()], [p.parent], [d / c],
    [p.exists() and p.is_file()], [p.read_text(...)] ([None] is an
    [OSError]) and [str(p.relative_to(root))] ([None] is a [ValueError]). *)
Record FileSystem := {
  resolve : text → text;
  parent : text → text;
  joinpath : text → text → text;
  is_file : text → bool;
  read_text : text → option text;
  relative_to : text → text → option text;
}.

(** What a call may end with: a result, an exception that the scripts do
    not catch, or the exhaustion of the recursion depth it was given. *)
Inductive outcome (A : Type) :=
| Done (a : A)
| Raised
| OutOfFuel.
Arguments Done {A} a.
Arguments Raised {A}.
Arguments OutOfFuel {A}.

(** One match of [\\(?:input|include)\{([^}]+)\}] at the start of [s]:
    group 1 and what follows the match. *)
Definition match_include (s : text) : option (text * text) :=
  match s with
  | "\"%char :: s1 =>
      let after_name :=
        if Py.startswith "input" s1 then Some (drop 5 s1)
        else if Py.startswith "include" s1 then Some (drop 7 s1)
        else None in
      match after_name with
      | Some ("{"%char :: r) =>
          match Py.split_at_first "}" r with
          | Some (c :: target, rest) => Some (c :: target, rest)
          | _ => None
          end
      | _ => None
      end
  | _ => None
  end.

(** [[m.group(1) for m in INCLUDE_RE.finditer(code)]]; [skip] counts the
    characters of a match that are still to be passed over. *)
Fixpoint include_targets (skip : nat) (s : text) : list text :=
  match s with
  | [] => []
  | c :: s' =>
      match skip with
      | S k => include_targets k s'
      | O =>
          match match_include s with
          | Some (target, rest) =>
              target :: include_targets (length s' - length rest) s'
          | None => include_targets 0 s'
          end
      end
  end.

(** The state of a traversal: the set [visited], the order of the visits
    (the list [ordered] of [_collect_main_tex_tree]) and what has been
    collected. *)
Record State (X : Type) := {
  visited : gset text;
  ordered : list text;
  collected : list X;
}.
Arguments visited {X} _.
Arguments ordered {X} _.
Arguments collected {X} _.

Section Resolver.

Variable fs : FileSystem.
Variable project_root : text.

Definition resolve_include (base_file include_target : text) : option text :=
  let candidate := Py.strip include_target in
  match candidate with
  | [] => None
  | _ =>
      let candidate :=
        if Py.endswith ".tex" candidate then candidate else candidate ++ ".tex" in
      let local := resolve fs (joinpath fs (parent fs base_file) candidate) in
      if is_file fs local then Some local
      else
        let project_relative := resolve fs (joinpath fs project_root candidate) in
        if is_file fs project_relative then Some project_relative else None
  end.

Context {X : Type}.

(** What a line of a file contributes; [None] is an exception. *)
Variable on_line : text → nat → text → option (list X).

(** The loop over the inclusion directives of a line; [walk] is the
    recursive call. *)
Fixpoint walk_targets (walk : text → State X → outcome (State X))
    (resolved : text) (targets : list text) (st : State X) : outcome (State X) :=
  match targets with
  | [] => Done st
  | target :: targets' =>
      match resolve_include resolved target with
      | None => walk_targets walk resolved targets' st
      | Some include_path =>
          match walk include_path st with
          | Done st' => walk_targets walk resolved targets' st'
          | other => other
          end
      end
  end.

(** The loop over the lines of a file, numbered from [line_no]. *)
Fixpoint walk_lines (walk : text → State X → outcome (State X))
    (resolved : text) (lines : list text) (line_no : nat) (st : State X)
    : outcome (State X) :=
  match lines with
  | [] => Done st
  | line :: lines' =>
      let code := strip_comment line in
      match on_line resolved line_no code with
      | None => Raised
      | Some found =>
          let st := {| visited := visited st; ordered := ordered st;
                       collected := collected st ++ found |} in
          match walk_targets walk resolved (include_targets 0 code) st with
          | Done st' => walk_lines walk resolved lines' (S line_no) st'
          | other => other
          end
      end
  end.

(** [walk(path)], with the depth of recursion it may use. *)
Fixpoint walk (depth : nat) (path : text) (st : State X) : outcome (State X) :=
  match depth with
  | O => OutOfFuel
  | S depth' =>
      let resolved := resolve fs path in
      if decide (resolved ∈ visited st) then Done st
      else
        let st := {| visited := {[resolved]} ∪ visited st;
                     ordered := ordered st ++ [resolved];
                     collected := collected st |} in
        match read_text fs resolved with
        | None => Done st
        | Some content =>
            walk_lines (walk depth') resolved (Py.splitlines content) 1 st
        end
  end.

Definition start : State X := {| visited := ∅; ordered := []; collected := [] |}.

End Resolver.

End Inclusion.

(** ** parse_latex_structure.py *)
Module ParseLatexStructure.

(** A bibliography key found by [_extract_bib_keys]. *)
Record BibKey := {
  key : text;
  file : text;
  line : nat;
}.

(** A figure or table found by [_extract_environments]. *)
Record Env := {
  e_file : text;
  e_line : nat;
  label : text;
  caption : text;
  expected_prefix : text;
  has_label : bool;
  has_caption : bool;
}.

(** A heading found by [_extract_sections]. *)
Record Section_ := {
  s_name : text;
  s_level : nat;
  s_command : text;
  s_file : text;
  s_line : nat;
}.

Definition section_commands : list text :=
  [txt "section"; txt "subsection"; txt "subsubsection"; txt "paragraph";
   txt "subparagraph"].

(** [SECTION_LEVELS.get(command, 0)] *)
Definition section_level (command : text) : nat :=
  if Py.eqt command "section" then 1
  else if Py.eqt command "subsection" then 2
  else if Py.eqt command "subsubsection" then 3
  else if Py.eqt command "paragraph" then 4
  else if Py.eqt command "subparagraph" then 5
  else 0.

(** The headings of one line of [resolved]; the path of the file relative
    to the root is asked for once per heading. *)
Definition sections_of_line (fs : Inclusion.FileSystem) (project_root : text)
    (resolved : text) (line_no : nat) (code : text) : option (list Section_) :=
  mapM (λ '(command, name),
          rel ← Inclusion.relative_to fs resolved project_root;
          Some {| s_name := Py.strip name;
                  s_level := section_level command;
                  s_command := command;
                  s_file := rel;
                  s_line := line_no |})
       (section_matches section_commands 0 code).

(** [_extract_sections(main_tex, project_root)]: the sections and the set
    [visited], given the depth of recursion that [walk] may use. *)
Definition extract_sections (fs : Inclusion.FileSystem) (depth : nat)
    (main_tex project_root : text)
    : Inclusion.outcome (list Section_ * gset text) :=
  match Inclusion.walk fs project_root (sections_of_line fs project_root)
          depth main_tex Inclusion.start with
  | Inclusion.Done st => Inclusion.Done (Inclusion.collected st, Inclusion.visited st)
  | Inclusion.Raised => Inclusion.Raised
  | Inclusion.OutOfFuel => Inclusion.OutOfFuel
  end.

(** [_first_by_key(items, key_name, key_value)], for each of the three
    uses. *)
Definition first_by_key {A} (field : A → text) (items : list A) (key_value : text)
    : option A :=
  snd <$> list_find (λ item, field item = key_value) items.

(** [where.get("file") if where else None], and the same for the line. *)
Definition where_file {A} (f : A → text) (where_ : option A) : value :=
  match where_ with Some w => VStr (f w) | None => VNone end.

Definition where_line {A} (f : A → nat) (where_ : option A) : value :=
  match where_ with Some w => VInt (Z.of_nat (f w)) | None => VNone end.

(** [{x["label"] for x in envs if x.get("label")}] *)
Definition labels_of (envs : list Env) : gset text :=
  list_to_set (filter (λ l, l ≠ []) (label <$> envs)).

(** [{k for k in ref_keys if str(k).startswith(prefix)}] *)
Definition refs_with (prefix : text) (ref_keys : gset text) : gset text :=
  filter (λ k, Py.startswith prefix k = true) ref_keys.

Definition undefined_issue (citations : list Citation) (k : text) : dict :=
  let where_ := first_by_key c_key citations k in
  [("type", VStr "undefined_citation");
   ("severity", VStr "error");
   ("key", VStr k);
   ("file", where_file c_file where_);
   ("line", where_line c_line where_)].

Definition uncited_issue (bib_entries : list BibKey) (k : text) : dict :=
  let where_ := first_by_key key bib_entries k in
  [("type", VStr "uncited_bibliography_entry");
   ("severity", VStr "warning");
   ("key", VStr k);
   ("file", where_file file where_);
   ("line", where_line line where_)].

(** The body of the loops over [figures] and [tables]; [kind] is
    ["figure"] or ["table"], [prefix] is ["fig:"] or ["tab:"]. *)
Definition env_issues (kind prefix : text) (env : Env) : list dict :=
  (if negb (has_label env) then
     [[("type", VStr (kind ++ "_missing_label"));
       ("severity", VStr "error");
       ("file", VStr (e_file env));
       ("line", VInt (Z.of_nat (e_line env)))]]
   else if negb (Py.startswith prefix (label env)) then
     [[("type", VStr (kind ++ "_label_prefix"));
       ("severity", VStr "warning");
       ("file", VStr (e_file env));
       ("line", VInt (Z.of_nat (e_line env)));
       ("label", VStr (label env));
       ("expected", VStr (prefix ++ "*"))]]
   else [])
  ++
  (if negb (has_caption env) then
     [[("type", VStr (kind ++ "_missing_caption"));
       ("severity", VStr "warning");
       ("file", VStr (e_file env));
       ("line", VInt (Z.of_nat (e_line env)));
       ("label", or_none (label env))]]
   else []).

Definition unreferenced_issue (kind : text) (envs : list Env) (l : text) : dict :=
  let where_ := first_by_key label envs l in
  [("type", VStr ("unreferenced_" ++ kind));
   ("severity", VStr "warning");
   ("label", VStr l);
   ("file", where_file e_file where_);
   ("line", where_line e_line where_)].

(** [issues[:max_issues]] for a Python integer: a negative bound counts
    from the end. *)
Definition slice_to {A} (l : list A) (stop : Z) : list A :=
  if (stop <? 0)%Z then take (length l - Z.to_nat (- stop)) l
  else take (Z.to_nat stop) l.

(** The issue sequence that [_build_issues] accumulates before the cut. *)
Definition all_issues (citations : list Citation) (bib_entries : list BibKey)
    (refs : list Ref) (figures tables : list Env) : list dict :=
  let cited_keys := key_set c_key citations in
  let bib_keys := key_set key bib_entries in
  let ref_keys := key_set r_key refs in
  let figure_labels := labels_of figures in
  let table_labels := labels_of tables in
  let figure_refs := refs_with "fig:" ref_keys in
  let table_refs := refs_with "tab:" ref_keys in
  (undefined_issue citations <$> sorted (cited_keys ∖ bib_keys))
  ++ (uncited_issue bib_entries <$> sorted (bib_keys ∖ cited_keys))
  ++ concat (env_issues "figure" "fig:" <$> figures)
  ++ concat (env_issues "table" "tab:" <$> tables)
  ++ (unreferenced_issue "figure" figures <$> sorted (figure_labels ∖ figure_refs))
  ++ (unreferenced_issue "table" tables <$> sorted (table_labels ∖ table_refs)).

Definition build_issues citations bib_entries refs figures tables (max_issues : Z)
    : list dict :=
  slice_to (all_issues citations bib_entries refs figures tables) max_issues.

(** The part of [main] after the extraction: the call of [_build_issues]
    with [max(1, args.max_issues)], and the counts of the summary.  The
    entries of the summary and of the payload on the root, the main file,
    the files and the sections do not depend on the issues and are left
    out. *)
Record Summary := {
  n_citations : nat;
  n_unique_citation_keys : nat;
  n_bib_keys : nat;
  n_figures : nat;
  n_tables : nat;
  n_references : nat;
  n_issues : nat;
}.

Record Payload := {
  summary : Summary;
  p_citations : list Citation;
  p_bibliography : list BibKey;
  p_figures : list Env;
  p_tables : list Env;
  p_references : list Ref;
  issues : list dict;
}.

Definition report citations bib_entries refs figures tables (args_max_issues : Z)
    : Payload :=
  let issues :=
    build_issues citations bib_entries refs figures tables (Z.max 1 args_max_issues) in
  {| summary := {|
       n_citations := length citations;
       n_unique_citation_keys := size (key_set c_key citations);
       n_bib_keys := size (key_set key bib_entries);
       n_figures := length figures;
       n_tables := length tables;
       n_references := length refs;
       n_issues := length issues |};
     p_citations := citations;
     p_bibliography := bib_entries;
     p_figures := figures;
     p_tables := tables;
     p_references := refs;
     issues := issues |}.

End ParseLatexStructure.

(** ** verify_content_targets.py *)
Module VerifyContentTargets.

(** *** Figures and tables *)

(** A figure or table found by [_extract_envs]. *)
Record Env := {
  e_file : text;
  e_line : nat;
  e_label : text;
  e_caption : text;
  e_content : text;
}.

(** One match of [\\begin\{name\*?\}] or [\\end\{name\*?\}] at the start of
    [s]: what follows it. *)
Definition match_marker (keyword env_name : text) (s : text) : option text :=
  after ← Py.strip_prefix ("\" ++ keyword ++ "{" ++ env_name) s;
  match after with
  | "*"%char :: "}"%char :: r => Some r
  | "}"%char :: r => Some r
  | _ => None
  end.

(** The lazy [(.*?)] up to the first end marker: what follows that marker. *)
Fixpoint after_end (env_name : text) (s : text) : option text :=
  match match_marker "end" env_name s with
  | Some rest => Some rest
  | None => match s with [] => None | _ :: s' => after_end env_name s' end
  end.

(** One match of the environment pattern at the start of [s]: the whole
    match and what follows it. *)
Definition match_env (env_name : text) (s : text) : option (text * text) :=
  body ← match_marker "begin" env_name s;
  rest ← after_end env_name body;
  Some (take (length s - length rest) s, rest).

(** One match of [\\label\{([^}]+)\}] at the start of [s]: group 1. *)
Definition match_label (s : text) : option text :=
  after ← Py.strip_prefix "\label{" s;
  match Py.split_at_first "}" after with
  | Some (c :: name, _) => Some (c :: name)
  | _ => None
  end.

(** One match of [\\caption(?:\[[^\]]*\])?\{( [^}]* )\}] (written here with
    blanks around group 1) at the start of [s]: group 1. *)
Definition match_caption (s : text) : option text :=
  s1 ← Py.strip_prefix "\caption" s;
  let s2 :=
    match s1 with
    | "["%char :: r =>
        match Py.split_at_first "]" r with
        | Some (_, after) => after
        | None => s1
        end
    | _ => s1
    end in
  match s2 with
  | "{"%char :: r => fst <$> Py.split_at_first "}" r
  | _ => None
  end.

Definition env_of_block (rel : text) (line_no : nat) (block : text) : Env :=
  {| e_file := rel;
     e_line := line_no;
     e_label := from_option Py.strip [] (Py.search match_label block);
     e_caption := from_option (λ c, Py.join " " (Py.split c)) []
                    (Py.search match_caption block);
     e_content := block |}.

(** The loop over [env_re.finditer(content)]; [newlines] counts the line
    feeds before the current character, [skip] the characters of a match
    that are still to be passed over. *)
Fixpoint envs_from (rel env_name : text) (skip newlines : nat) (s : text)
    : list Env :=
  match s with
  | [] => []
  | c :: s' =>
      let newlines' := if Py.eqc c "010" then S newlines else newlines in
      match skip with
      | S k => envs_from rel env_name k newlines' s'
      | O =>
          match match_env env_name s with
          | Some (block, rest) =>
              env_of_block rel (newlines + 1) block
              :: envs_from rel env_name (length s' - length rest) newlines' s'
          | None => envs_from rel env_name 0 newlines' s'
          end
      end
  end.

(** [_extract_envs] over the files, each given by its path relative to the
    root and its content. *)
Definition extract_envs (tex_files : list (text * text)) (env_name : text)
    : list Env :=
  concat ((λ '(rel, content), envs_from rel env_name 0 0 content) <$> tex_files).

(** The digits of a decimal numeral as a number. *)
Definition digit_value (c : ascii) : Z := Z.of_nat (Py.ord c) - 48.

Definition digits_value (s : text) : Z :=
  foldl (λ n c, 10 * n + digit_value c)%Z 0%Z s.

(** One match of [width\s*=\s*(\d+(?:\.\d+)?)\s*\\(?:columnwidth|textwidth)]
    at the start of [s]: the integer part and the fraction of group 1. *)
Definition match_width (s : text) : option (text * text) :=
  s1 ← Py.strip_prefix "width" s;
  s2 ← Py.strip_prefix "=" (Py.span Py.isspace s1).2;
  let '(int_part, s3) := Py.span Py.isdigit (Py.span Py.isspace s2).2 in
  match int_part with
  | [] => None
  | _ =>
      let '(fraction, s4) :=
        match s3 with
        | "."%char :: r =>
            let '(digits, after) := Py.span Py.isdigit r in
            match digits with [] => ([], s3) | _ => (digits, after) end
        | _ => ([], s3)
        end in
      s5 ← Py.strip_prefix "\" (Py.span Py.isspace s4).2;
      if Py.startswith "columnwidth" s5 || Py.startswith "textwidth" s5
      then Some (int_part, fraction) else None
  end.

(** The text of group 1. *)
Definition width_text (w : text * text) : text :=
  match w.2 with [] => w.1 | _ => w.1 ++ "." ++ w.2 end.

(** [float(group) > 1.0]: the nearest double to a decimal numeral is above
    1.0 when the numeral is above the midpoint of 1.0 and the next double,
    which is 1 + 2^-53. *)
Definition above_one (w : text * text) : bool :=
  let value :=
    (digits_value (w.1 ++ w.2) # Z.to_pos (10 ^ Z.of_nat (length w.2)))%Q in
  negb (Qle_bool value (1 + (1 # 2 ^ 53)))%Q.

(** One match of [\\hspace\s*\{-] at the start of [s]. *)
Definition match_negative_hspace (s : text) : option unit :=
  s1 ← Py.strip_prefix "\hspace" s;
  _ ← Py.strip_prefix "{-" (Py.span Py.isspace s1).2;
  Some ().

(** [sum(1 for ref in refs if ref["key"] == label) if label else 0] *)
Definition ref_count (refs : list Ref) (label : text) : nat :=
  match label with
  | [] => 0
  | _ => length (filter (λ ref, r_key ref = label) refs)
  end.

Definition entity (refs : list Ref) (env : Env) : dict :=
  [("file", VStr (e_file env));
   ("line", VInt (Z.of_nat (e_line env)));
   ("label", VStr (e_label env));
   ("caption", VStr (e_caption env));
   ("ref_count", VInt (Z.of_nat (ref_count refs (e_label env))))].

(** The issue about the label of a figure or table, if any. *)
Definition label_issues (prefix : text) (ref_keys : gset text) (env : Env)
    : list dict :=
  if bool_decide (e_label env = []) then
    [[("type", VStr "missing_label");
      ("severity", VStr "error");
      ("file", VStr (e_file env));
      ("line", VInt (Z.of_nat (e_line env)))]]
  else if negb (Py.startswith prefix (e_label env)) then
    [[("type", VStr "label_prefix");
      ("severity", VStr "warning");
      ("file", VStr (e_file env));
      ("line", VInt (Z.of_nat (e_line env)));
      ("label", VStr (e_label env));
      ("expected", VStr (prefix ++ "*"))]]
  else if bool_decide (e_label env ∉ ref_keys) then
    [[("type", VStr "unreferenced");
      ("severity", VStr "warning");
      ("file", VStr (e_file env));
      ("line", VInt (Z.of_nat (e_line env)));
      ("label", VStr (e_label env))]]
  else [].

Definition located (type severity : text) (env : Env) : dict :=
  [("type", VStr type);
   ("severity", VStr severity);
   ("file", VStr (e_file env));
   ("line", VInt (Z.of_nat (e_line env)));
   ("label", or_none (e_label env))].

(** The issue about the caption of a figure, if any. *)
Definition figure_caption_issues (fig : Env) : list dict :=
  if bool_decide (e_caption fig = []) then [located "missing_caption" "warning" fig]
  else if bool_decide (length (e_caption fig) < 20)
  then [located "caption_too_short" "info" fig]
  else [].

(** The issues of the two layout heuristics. *)
Definition layout_issues (fig : Env) : list dict :=
  match Py.search match_width (e_content fig) with
  | Some w =>
      if above_one w
      then [located "overflow_width" "warning" fig ++ [("value", VStr (width_text w))]]
      else []
  | None => []
  end
  ++
  match Py.search match_negative_hspace (e_content fig) with
  | Some _ => [located "negative_hspace" "warning" fig]
  | None => []
  end.

(** The issues of one round of the loop of [_verify_figures]. *)
Definition figure_issues (ref_keys : gset text) (fig : Env) : list dict :=
  label_issues "fig:" ref_keys fig ++ figure_caption_issues fig ++ layout_issues fig.

Record Verdict := {
  entities : list dict;
  issues : list dict;
  available_sections : option (list text);
}.

Definition verify_figures (tex_files : list (text * text)) (refs : list Ref)
    : Verdict :=
  let figures := extract_envs tex_files "figure" in
  let ref_keys := key_set r_key refs in
  {| entities := entity refs <$> figures;
     issues := concat (figure_issues ref_keys <$> figures);
     available_sections := None |}.

(** The issues of one round of the loop of [_verify_tables]. *)
Definition table_issues (ref_keys : gset text) (table : Env) : list dict :=
  label_issues "tab:" ref_keys table
  ++ (if bool_decide (e_caption table = [])
      then [located "missing_caption" "warning" table] else [])
  ++ (if Py.contains "\hline" (e_content table)
         && negb (Py.contains "\toprule" (e_content table))
      then [located "no_booktabs" "info" table] else []).

Definition verify_tables (tex_files : list (text * text)) (refs : list Ref)
    : Verdict :=
  let tables := extract_envs tex_files "table" in
  let ref_keys := key_set r_key refs in
  {| entities := entity refs <$> tables;
     issues := concat (table_issues ref_keys <$> tables);
     available_sections := None |}.

(** *** Sections *)

(** A section found by [_extract_sections]. *)
Record Section_ := {
  name : text;
  level : text;
  file : text;
  line : nat;
  content : text;
}.

Definition section_commands : list text :=
  [txt "section"; txt "subsection"; txt "subsubsection"].

(** The section that is being read: its heading and its [content_lines]. *)
Definition close (current : option (Section_ * list text)) : list Section_ :=
  match current with
  | Some (heading, content_lines) =>
      [{| name := name heading; level := level heading; file := file heading;
          line := line heading; content := Py.join newline content_lines |}]
  | None => []
  end.

(** The loop over the lines of one file, numbered from [line_no]. *)
Fixpoint sections_from (rel : text) (lines : list text) (line_no : nat)
    (current : option (Section_ * list text)) : list Section_ :=
  match lines with
  | [] => close current
  | line :: lines' =>
      let code := strip_comment line in
      match Py.search (match_section section_commands) code with
      | Some (command, heading, _) =>
          close current
          ++ sections_from rel lines' (S line_no)
               (Some ({| name := Py.strip heading; level := command; file := rel;
                         line := line_no; content := [] |}, []))
      | None =>
          sections_from rel lines' (S line_no)
            ((λ '(heading, content_lines), (heading, content_lines ++ [code]))
               <$> current)
      end
  end.

Definition extract_sections (tex_files : list (text * text)) : list Section_ :=
  concat ((λ '(rel, content), sections_from rel (Py.splitlines content) 1 None)
            <$> tex_files).

Definition placeholders : list text :=
  [txt "todo"; txt "tbd"; txt "fixme"; txt "xxx"].

Definition claim_phrases : list text :=
  [txt "we show"; txt "we propose"; txt "our method"; txt "results show";
   txt "outperform"; txt "state of the art"].

(** The position after the last line feed of the whitespace that [s]
    starts with, if there is one: where a match of [\n\s*\n] ends when [s]
    follows its first line feed. *)
Definition blank_run (s : text) : option nat :=
  foldl (λ found '(i, c), if Py.eqc c "010" then Some (S i) else found)
        None (imap pair (Py.span Py.isspace s).1).

(** [re.split(r"\n\s*\n", s)]; [skip] counts the characters of a separator
    that are still to be passed over, [piece] holds the current piece in
    reverse. *)
Fixpoint split_paragraphs (skip : nat) (piece : text) (s : text) : list text :=
  match s with
  | [] => [rev piece]
  | c :: s' =>
      match skip with
      | S k => split_paragraphs k piece s'
      | O =>
          if Py.eqc c "010" then
            match blank_run s' with
            | Some n => rev piece :: split_paragraphs n [] s'
            | None => split_paragraphs 0 (c :: piece) s'
            end
          else split_paragraphs 0 (c :: piece) s'
      end
  end.

(** [enumerate(lines, 1)] *)
Definition numbered (lines : list text) : list (nat * text) :=
  imap (λ i l, (S i, l)) lines.

(** The four checks of [_verify_section] on the section [m].  The nonempty
    pieces that the code keeps of [re.split(r"\s+", t.strip())] are the
    words of [t.split()]. *)
Definition section_issues (m : Section_) (min_words : Z) : list dict :=
  let lines := Py.splitlines (content m) in
  let words := Py.split (content m) in
  (if bool_decide (Z.of_nat (length words) < min_words)%Z then
     [[("type", VStr "section_too_short");
       ("severity", VStr "warning");
       ("section", VStr (name m));
       ("word_count", VInt (Z.of_nat (length words)));
       ("minimum", VInt min_words)]]
   else [])
  ++ (numbered lines ≫= λ '(idx, l),
        if Py.word_search placeholders false l then
          [[("type", VStr "placeholder_text");
            ("severity", VStr "warning");
            ("section", VStr (name m));
            ("line", VInt (Z.of_nat idx));
            ("content", VStr (Py.strip l))]]
        else [])
  ++ (numbered lines ≫= λ '(idx, l),
        let normalized := Py.strip l in
        match normalized with
        | [] => []
        | _ =>
            if Py.word_search claim_phrases false normalized
               && negb (Py.contains "\cite" normalized)
               && negb (Py.contains "\ref" normalized)
            then
              [[("type", VStr "potential_unsupported_claim");
                ("severity", VStr "info");
                ("section", VStr (name m));
                ("line", VInt (Z.of_nat idx));
                ("content", VStr normalized)]]
            else []
        end)
  ++ (filter (λ p, Py.strip p ≠ []) (split_paragraphs 0 [] (content m)) ≫= λ p,
        let paragraph_words := Py.split (Py.strip p) in
        if bool_decide (220 < length paragraph_words) then
          [[("type", VStr "paragraph_too_long");
            ("severity", VStr "info");
            ("section", VStr (name m));
            ("word_count", VInt (Z.of_nat (length paragraph_words)))]]
        else []).

Definition section_entity (m : Section_) : dict :=
  [("name", VStr (name m));
   ("file", VStr (file m));
   ("line", VInt (Z.of_nat (line m)));
   ("word_count", VInt (Z.of_nat (length (Py.split (content m)))))].

Definition section_not_found (section_name : text) : dict :=
  [("type", VStr "section_not_found");
   ("severity", VStr "error");
   ("section", VStr section_name)].

(** [next((s for s in sections if section_name.lower() in s["name"].lower()),
    None)] *)
Definition find_section (sections : list Section_) (section_name : text)
    : option Section_ :=
  snd <$> list_find (λ s, Py.contains (Py.lower section_name) (Py.lower (name s)) = true)
            sections.

Definition verify_section (tex_files : list (text * text)) (section_name : text)
    (min_words : Z) : Verdict :=
  let sections := extract_sections tex_files in
  match find_section sections section_name with
  | None =>
      {| entities := [];
         issues := [section_not_found section_name];
         available_sections := Some (name <$> sections) |}
  | Some m =>
      {| entities := [section_entity m];
         issues := section_issues m min_words;
         available_sections := None |}
  end.

(** [_collect_main_tex_tree(main_tex, project_root)]: the files in the
    order of their first visit, given the depth of recursion that [walk] may
    use.  Its [walk] collects nothing but that order. *)
Definition collect_main_tex_tree (fs : Inclusion.FileSystem) (depth : nat)
    (main_tex project_root : text) : Inclusion.outcome (list text) :=
  match Inclusion.walk (X := Empty_set) fs project_root (λ _ _ _, Some [])
          depth main_tex Inclusion.start with
  | Inclusion.Done st => Inclusion.Done (Inclusion.ordered st)
  | Inclusion.Raised => Inclusion.Raised
  | Inclusion.OutOfFuel => Inclusion.OutOfFuel
  end.

End VerifyContentTargets.

(** ** The extractors

    [_extract_citations] is the same function in [validate_citations.py]
    and [parse_latex_structure.py], [_extract_refs] and [_find_main_tex] are
    the same in [parse_latex_structure.py] and [verify_content_targets.py].
    A file to read is given by its path relative to the root and by its
    content. *)
Module Extraction.

(** [s.split(c)] for a one-character [c]: the pieces between the
    occurrences of [c], the empty ones included. *)
Fixpoint split_on (c : ascii) (s : text) : list text :=
  match s with
  | [] => [[]]
  | x :: s' =>
      if Py.eqc x c then [] :: split_on c s'
      else
        match split_on c s' with
        | piece :: pieces => (x :: piece) :: pieces
        | [] => [[x]]
        end
  end.

(** [[k.strip() for k in group.split(",") if k.strip()]] *)
Definition listed_keys (group : text) : list text :=
  filter (λ k, k ≠ []) (Py.strip <$> split_on "," group).

(** The class [[A-Za-z*]]. *)
Definition is_command_char (c : ascii) : bool := Py.is_az c || Py.eqc c "*".

(** One match of [\\( [A-Za-z]*cite[A-Za-z*]* )\{([^}]+)\}] (written here
    with blanks around group 1) at the start of [s]: group 1, group 2 and
    what follows the match.  Group 1 is the run of letters and stars after
    the backslash, which the opening brace must follow; the pattern asks
    that [cite] stands in it with letters only before it, that is, in its
    leading run of letters. *)
Definition match_cite (s : text) : option (text * text * text) :=
  match s with
  | "\"%char :: s1 =>
      let '(letters, s2) := Py.span Py.is_az s1 in
      let '(more, s3) := Py.span is_command_char s2 in
      if Py.contains "cite" letters then
        match s3 with
        | "{"%char :: r =>
            match Py.split_at_first "}" r with
            | Some (c :: keys, rest) => Some (letters ++ more, c :: keys, rest)
            | _ => None
            end
        | _ => None
        end
      else None
  | _ => None
  end.

(** The matches of [CITE_RE.finditer(code)], from the left and without
    overlap: for each the groups 1 and 2.  [skip] counts the characters of
    a match that are still to be passed over. *)
Fixpoint cite_matches (skip : nat) (s : text) : list (text * text) :=
  match s with
  | [] => []
  | c :: s' =>
      match skip with
      | S k => cite_matches k s'
      | O =>
          match match_cite s with
          | Some (command, keys, rest) =>
              (command, keys) :: cite_matches (length s' - length rest) s'
          | None => cite_matches 0 s'
          end
      end
  end.

(** The citations of one line. *)
Definition citations_of_line (rel : text) (line_no : nat) (line : text)
    : list Citation :=
  cite_matches 0 (strip_comment line) ≫= λ '(command, keys),
    (λ k, {| c_key := k; c_command := command; c_file := rel; c_line := line_no |})
      <$> listed_keys keys.

(** The lines of a text under [enumerate(content.splitlines(), 1)], each
    mapped to the records found on it. *)
Definition per_line {A} (found : nat → text → list A) (content : text) : list A :=
  concat (imap (λ i line, found (S i) line) (Py.splitlines content)).

Definition extract_citations (tex_files : list (text * text)) : list Citation :=
  tex_files ≫= λ '(rel, content), per_line (citations_of_line rel) content.

(** The alternatives of [REF_RE]: [ref|autoref|eqref|[cC]ref]. *)
Definition ref_commands : list text :=
  [txt "ref"; txt "autoref"; txt "eqref"; txt "cref"; txt "Cref"].

(** One match of [\\(?:ref|autoref|eqref|[cC]ref)\{([^}]+)\}] at the start
    of [s]: group 1 and what follows the match.  The alternatives begin
    with different letters, so at most one of them fits. *)
Definition match_ref (s : text) : option (text * text) :=
  match s with
  | "\"%char :: s1 =>
      command ← snd <$> list_find (λ command, Py.startswith command s1 = true)
                          ref_commands;
      match drop (length command) s1 with
      | "{"%char :: r =>
          match Py.split_at_first "}" r with
          | Some (c :: keys, rest) => Some (c :: keys, rest)
          | _ => None
          end
      | _ => None
      end
  | _ => None
  end.

(** The matches of [REF_RE.finditer(code)]: for each its group 1. *)
Fixpoint ref_matches (skip : nat) (s : text) : list text :=
  match s with
  | [] => []
  | c :: s' =>
      match skip with
      | S k => ref_matches k s'
      | O =>
          match match_ref s with
          | Some (keys, rest) => keys :: ref_matches (length s' - length rest) s'
          | None => ref_matches 0 s'
          end
      end
  end.

Definition refs_of_line (rel : text) (line_no : nat) (line : text) : list Ref :=
  ref_matches 0 (strip_comment line) ≫= λ keys,
    (λ k, {| r_key := k; r_file := rel; r_line := line_no |}) <$> listed_keys keys.

Definition extract_refs (tex_files : list (text * text)) : list Ref :=
  tex_files ≫= λ '(rel, content), per_line (refs_of_line rel) content.

(** One match of [@\w+\s*\{\s*( [^,]+ )\s*,] (written here with blanks
    around group 1) at the start of [s]: group 1.  The whitespace after the
    brace is taken first and group 1 runs up to the first comma; when the
    comma follows the whitespace at once, the pattern gives the last
    whitespace character to group 1. *)
Definition match_bib_key (s : text) : option text :=
  match s with
  | "@"%char :: s1 =>
      let '(word, s2) := Py.span Py.isword s1 in
      match word with
      | [] => None
      | _ =>
          match (Py.span Py.isspace s2).2 with
          | "{"%char :: r =>
              let '(blank, r1) := Py.span Py.isspace r in
              let '(body, r2) := Py.span (λ c, negb (Py.eqc c ",")) r1 in
              match r2 with
              | ","%char :: _ =>
                  match body with
                  | _ :: _ => Some body
                  | [] => (λ c, [c]) <$> last blank
                  end
              | _ => None
              end
          | _ => None
          end
      end
  | _ => None
  end.

(** The key of one line of a bibliography file, if [BIB_KEY_RE.search]
    finds one. *)
Definition bib_key_of_line (rel : text) (line_no : nat) (line : text)
    : list ParseLatexStructure.BibKey :=
  match Py.search match_bib_key line with
  | Some group =>
      [{| ParseLatexStructure.key := Py.strip group;
          ParseLatexStructure.file := rel;
          ParseLatexStructure.line := line_no |}]
  | None => []
  end.

Definition extract_bib_keys (bib_files : list (text * text))
    : list ParseLatexStructure.BibKey :=
  bib_files ≫= λ '(rel, content), per_line (bib_key_of_line rel) content.

(** [_extract_environments] of [parse_latex_structure.py] runs the loop of
    [_extract_envs] with the same three patterns, and keeps of each match
    its place, label and caption, with the flags [bool(label)] and
    [bool(caption)]. *)
Definition environment (label_prefix : text) (env : VerifyContentTargets.Env)
    : ParseLatexStructure.Env :=
  {| ParseLatexStructure.e_file := VerifyContentTargets.e_file env;
     ParseLatexStructure.e_line := VerifyContentTargets.e_line env;
     ParseLatexStructure.label := VerifyContentTargets.e_label env;
     ParseLatexStructure.caption := VerifyContentTargets.e_caption env;
     ParseLatexStructure.expected_prefix := label_prefix;
     ParseLatexStructure.has_label :=
       bool_decide (VerifyContentTargets.e_label env ≠ []);
     ParseLatexStructure.has_caption :=
       bool_decide (VerifyContentTargets.e_caption env ≠ []) |}.

Definition extract_environments (tex_files : list (text * text))
    (env_name label_prefix : text) : list ParseLatexStructure.Env :=
  environment label_prefix <$> VerifyContentTargets.extract_envs tex_files env_name.

(** [_find_main_tex(tex_files)] over paths, with [read] for [_read_text]
    ([None] is an [OSError]); the outer [None] of the result is that
    exception, the inner one the [None] that the function returns. *)
Fixpoint first_with_documentclass (read : text → option text)
    (tex_files : list text) : option (option text) :=
  match tex_files with
  | [] => Some None
  | path :: rest =>
      content ← read path;
      if Py.contains "\documentclass" content then Some (Some path)
      else first_with_documentclass read rest
  end.

Definition find_main_tex (read : text → option text) (tex_files : list text)
    : option (option text) :=
  found ← first_with_documentclass read tex_files;
  Some (match found with Some path => Some path | None => head tex_files end).

End Extraction.
(** ** The three runs

    What each [main] does once it has settled which files to read: the
    extraction, the checks and the report.  The files are given as above;
    no script catches what reading them may raise. *)

(** *** [main] of validate_citations.py *)
Module ValidateCitationsMain.

(** [str(result["status"])] *)
Definition status_name (s : ValidateCitations.Status) : text :=
  match s with
  | ValidateCitations.valid => "valid"
  | ValidateCitations.needs_correction => "needs_correction"
  | ValidateCitations.likely_hallucinated => "likely_hallucinated"
  | ValidateCitations.not_found => "not_found"
  end.

(** The loop [status_counts[status] = status_counts.get(status, 0) + 1]. *)
Definition status_counts (results : list ValidateCitations.ValidationResult)
    : gmap text nat :=
  foldl (λ counts result,
           let status := status_name (ValidateCitations.vr_status result) in
           <[status := default 0 (counts !! status) + 1]> counts)
        ∅ results.

Record Summary := {
  n_tex_files : nat;
  n_bib_files : nat;
  n_citations : nat;
  n_unique_citation_keys : nat;
  n_bib_entries : nat;
  n_undefined_citations : nat;
  n_uncited_bibliography_entries : nat;
  n_style_issues : nat;
  remote_validation_enabled : bool;
  remote_status_counts : gmap text nat;
}.

Record Payload := {
  summary : Summary;
  local_issues : list dict;
  validation_results : list ValidateCitations.ValidationResult;
}.

(** The payload that [main] prints before it returns 0; [None] is an
    exception of the local checks. *)
Definition main (http_get_json : ValidateCitations.Request → ValidateCitations.Response)
    (round3 : Q → Q) (args_remote : bool) (tex_files bib_files : list (text * text))
    : option Payload :=
  let citations := Extraction.extract_citations tex_files in
  let bib_entries := ValidateCitations.parse_bib_entries bib_files in
  issues ← ValidateCitations.local_issues citations bib_entries;
  let results :=
    ValidateCitations.validation_results http_get_json round3 args_remote bib_entries in
  Some {| summary := {|
            n_tex_files := length tex_files;
            n_bib_files := length bib_files;
            n_citations := length citations;
            n_unique_citation_keys := size (ValidateCitations.cited_keys citations);
            n_bib_entries := length bib_entries;
            n_undefined_citations :=
              length (ValidateCitations.undefined_keys citations bib_entries);
            n_uncited_bibliography_entries :=
              length (ValidateCitations.uncited_keys citations bib_entries);
            n_style_issues := length (ValidateCitations.style_issues citations);
            remote_validation_enabled := args_remote;
            remote_status_counts := status_counts results |};
          local_issues := issues;
          validation_results := results |}.

End ValidateCitationsMain.

(** *** [main] of parse_latex_structure.py *)
Module ParseLatexStructureMain.

(** From the five extractions on: [tex_files] are the [parse_target_files],
    [bib_files] the bibliography files of the project. *)
Definition main (args_max_issues : Z) (tex_files bib_files : list (text * text))
    : ParseLatexStructure.Payload :=
  ParseLatexStructure.report
    (Extraction.extract_citations tex_files)
    (Extraction.extract_bib_keys bib_files)
    (Extraction.extract_refs tex_files)
    (Extraction.extract_environments tex_files "figure" "fig:")
    (Extraction.extract_environments tex_files "table" "tab:")
    args_max_issues.

End ParseLatexStructureMain.

(** *** [main] of verify_content_targets.py *)
Module VerifyContentTargetsMain.

(** The choices of [--target]. *)
Inductive Target := figures | tables | section.

Record Args := {
  target : Target;
  section_name : text;
  min_section_words : Z;
}.

Record Payload := {
  p_target : Target;
  n_tex_files : nat;
  n_references : nat;
  n_entities : nat;
  n_issues : nat;
  entities : list dict;
  issues : list dict;
  available_sections : option (list text);
}.

(** The exit status, and the payload when one is printed.  The check of
    the section name comes before anything is read; [tex_files] are the
    files of the inclusion tree of the main file. *)
Definition main (args : Args) (tex_files : list (text * text))
    : Z * option Payload :=
  match target args, Py.strip (section_name args) with
  | section, [] => (2%Z, None)
  | _, _ =>
      let refs := Extraction.extract_refs tex_files in
      let result :=
        match target args with
        | figures => VerifyContentTargets.verify_figures tex_files refs
        | tables => VerifyContentTargets.verify_tables tex_files refs
        | section =>
            VerifyContentTargets.verify_section tex_files
              (Py.strip (section_name args)) (Z.max 1 (min_section_words args))
        end in
      (0%Z,
       Some {| p_target := target args;
               n_tex_files := length tex_files;
               n_references := length refs;
               n_entities := length (VerifyContentTargets.entities result);
               n_issues := length (VerifyContentTargets.issues result);
               entities := VerifyContentTargets.entities result;
               issues := VerifyContentTargets.issues result;
               available_sections :=
                 match target args with
                 | section => VerifyContentTargets.available_sections result
                 | _ => None
                 end |})
  end.

End VerifyContentTargetsMain.

(** * Statement vocabulary

    The notions the properties below are stated with. *)

Module V := ValidateCitations.
Module P := ParseLatexStructure.
Module T := VerifyContentTargets.

(** [x] is the first, respectively the last, item of [items] whose key is
    [k]. *)
Definition first_occurrence {A} (field : A → text) (items : list A)
    (k : text) (x : A) : Prop :=
  ∃ i, items !! i = Some x ∧ field x = k ∧
       ∀ j y, j < i → items !! j = Some y → field y ≠ k.

Definition last_occurrence {A} (field : A → text) (items : list A)
    (k : text) (x : A) : Prop :=
  ∃ i, items !! i = Some x ∧ field x = k ∧
       ∀ j y, i < j → items !! j = Some y → field y ≠ k.

(** A list of issues enumerates a set of keys: one issue per key, in the
    order of [sorted], each anchored as [anchor] says. *)
Definition enumerates (diff : gset text) (anchor : text → dict → Prop)
    (issues : list dict) : Prop :=
  ∃ ks, NoDup ks ∧ StronglySorted text_le ks ∧ (∀ k, k ∈ ks ↔ k ∈ diff)
        ∧ Forall2 anchor ks issues.

(** The two kinds of set-difference issue, at a given place. *)
Definition undefined_citation_at (k file : text) (line : nat) : dict :=
  [("type", VStr "undefined_citation");
   ("severity", VStr "error");
   ("key", VStr k);
   ("file", VStr file);
   ("line", VInt (Z.of_nat line))].

Definition uncited_entry_at (k file : text) (line : nat) : dict :=
  [("type", VStr "uncited_bibliography_entry");
   ("severity", VStr "warning");
   ("key", VStr k);
   ("file", VStr file);
   ("line", VInt (Z.of_nat line))].

(** An undefined citation is anchored at the first citation of its key. *)
Definition undefined_anchor (citations : list Citation) (k : text) (d : dict) : Prop :=
  ∃ c, first_occurrence c_key citations k c
       ∧ d = undefined_citation_at k (c_file c) (c_line c).

(** An uncited entry is anchored at a record that bears its key: the last
    one in the validator, the first one in the structure parser. *)
Definition uncited_anchor_last (entries : list V.BibEntry) (k : text) (d : dict) : Prop :=
  ∃ e, last_occurrence V.key entries k e
       ∧ d = uncited_entry_at k (V.file e) (V.line e).

Definition uncited_anchor_first (entries : list P.BibKey) (k : text) (d : dict) : Prop :=
  ∃ e, first_occurrence P.key entries k e
       ∧ d = uncited_entry_at k (P.file e) (P.line e).

(** What is asked of the validator's [local_issues] ... *)
Definition validator_enumerates (citations : list Citation)
    (entries : list V.BibEntry) : Prop :=
  ∃ issues, V.local_issues citations entries = Some issues
    ∧ enumerates (key_set c_key citations ∖ key_set V.key entries)
        (undefined_anchor citations) (of_type "undefined_citation" issues)
    ∧ enumerates (key_set V.key entries ∖ key_set c_key citations)
        (uncited_anchor_last entries) (of_type "uncited_bibliography_entry" issues).

(** ... and of the issues a list of issues of the structure parser. *)
Definition parser_enumerates (citations : list Citation)
    (entries : list P.BibKey) (issues : list dict) : Prop :=
  enumerates (key_set c_key citations ∖ key_set P.key entries)
    (undefined_anchor citations) (of_type "undefined_citation" issues)
  ∧ enumerates (key_set P.key entries ∖ key_set c_key citations)
    (uncited_anchor_first entries) (of_type "uncited_bibliography_entry" issues).

(** The findings that come from a set difference. *)
Definition set_difference_type (d : dict) : bool :=
  has_type "undefined_citation" d || has_type "uncited_bibliography_entry" d
  || has_type "unreferenced_figure" d || has_type "unreferenced_table" d.

Definition set_difference_findings (issues : list dict) : list dict :=
  filter (λ d, set_difference_type d = true) issues.

(** Sample records. *)
Definition cite (k cmd : text) (l : nat) : Citation :=
  {| c_key := k; c_command := cmd; c_file := "main.tex"; c_line := l |}.

Definition bib (k : text) (l : nat) : V.BibEntry :=
  {| V.key := k; V.entry_type := "article"; V.file := "refs.bib"; V.line := l;
     V.title := ""; V.author := ""; V.year := ""; V.doi := ""; V.arxiv := "" |}.

Definition bibkey (k : text) (l : nat) : P.BibKey :=
  {| P.key := k; P.file := "refs.bib"; P.line := l |}.

Definition unlabelled_figure : P.Env :=
  {| P.e_file := "main.tex"; P.e_line := 3; P.label := ""; P.caption := "A plot.";
     P.expected_prefix := "fig:"; P.has_label := false; P.has_caption := true |}.

(** An issue that is neither an undefined citation nor an uncited entry. *)
Definition other_type (d : dict) : Prop :=
  has_type "undefined_citation" d = false
  ∧ has_type "uncited_bibliography_entry" d = false.

(** Sample data for the remote matcher: an entry, a service that knows the
    identifier under another title and the title under the identifier, a
    service whose identifier lookup fails, and a [round] that leaves the
    scores 0 and 1 as they are. *)
Definition paper (d t : text) : V.BibEntry :=
  {| V.key := "lecun2015"; V.entry_type := "article"; V.file := "refs.bib";
     V.line := 1; V.title := t; V.author := ""; V.year := "2015"; V.doi := d;
     V.arxiv := "" |}.

Definition mismatching_service (r : V.Request) : V.Response :=
  match r with
  | V.WorksByDoi _ =>
      V.Decoded {| V.titles := [txt "Cooking Pasta"]; V.items := [] |}
  | V.WorksByTitle _ =>
      V.Decoded {| V.titles := [];
                   V.items := [{| V.work_titles := [txt "Deep Learning"];
                                  V.work_doi := "10.1/x" |}] |}
  end.

Definition failing_doi_service (r : V.Request) : V.Response :=
  match r with
  | V.WorksByDoi _ => V.Failed "timed out"
  | V.WorksByTitle _ =>
      V.Decoded {| V.titles := [];
                   V.items := [{| V.work_titles := [txt "Deep Learning"];
                                  V.work_doi := "10.1/x" |}] |}
  end.

Definition no_rounding (q : Q) : Q := q.

(** A field name: a letter, then letters, digits, underscores or dashes. *)
Definition field_name (name : text) : Prop :=
  match name with
  | c :: more => Py.is_az c = true ∧ Forall (λ x, V.is_name_char x = true) more
  | [] => False
  end.

(** A record header [@type {]: a word and optional whitespace between the
    [@] and the opening brace. *)
Definition header (ty ws : text) : Prop :=
  ty ≠ [] ∧ Forall (λ c, Py.isword c = true) ty
  ∧ Forall (λ c, Py.isspace c = true) ws.

(** A bibliography file whose first record is never closed. *)
Definition unclosed_bib : text :=
  "@article{a, title={x}" ++ newline ++ "@book{b, title={y}}".

(** The visits recorded in a state are pairwise distinct, they are the
    members of [visited], and they lie in [universe]. *)
Definition visits_once {X : Type} (universe : gset text)
    (st : Inclusion.State X) : Prop :=
  NoDup (Inclusion.ordered st)
  ∧ (∀ p, p ∈ Inclusion.ordered st ↔ p ∈ Inclusion.visited st)
  ∧ Inclusion.visited st ⊆ universe.

(** A call that started in [st] has returned, with a state that extends
    [st], or has raised; it has not run out of depth. *)
Definition returns_from {X : Type} (universe : gset text)
    (st : Inclusion.State X) (r : Inclusion.outcome (Inclusion.State X)) : Prop :=
  match r with
  | Inclusion.Done st' =>
      visits_once universe st' ∧ Inclusion.visited st ⊆ Inclusion.visited st'
  | Inclusion.Raised => True
  | Inclusion.OutOfFuel => False
  end.

(** A project of two files that include each other. *)
Definition two_files : Inclusion.FileSystem :=
  {| Inclusion.resolve := λ p, p;
     Inclusion.parent := λ _, txt "/p";
     Inclusion.joinpath := λ d c, d ++ "/" ++ c;
     Inclusion.is_file := λ p,
       bool_decide (p = txt "/p/a.tex") || bool_decide (p = txt "/p/b.tex");
     Inclusion.read_text := λ p,
       if bool_decide (p = txt "/p/a.tex")
       then Some (txt "\section{One} \input{b} % \input{c}")
       else if bool_decide (p = txt "/p/b.tex")
       then Some ("\subsection*{Two}" ++ newline ++ "\include{a.tex}\input{b}")
       else None;
     Inclusion.relative_to := λ p root,
       if Py.startswith (root ++ "/") p then Some (drop (length root + 1) p)
       else None |}.

(** Where an environment was found in a text that stands after [pre]: at
    the start of [block ++ after], on the line after the line feeds of what
    precedes. *)
Definition found_in (env_name rel pre s : text) (env : T.Env) : Prop :=
  ∃ before block after,
    s = before ++ block ++ after
    ∧ T.match_env env_name (block ++ after) = Some (block, after)
    ∧ env = T.env_of_block rel (Py.count "010" (pre ++ before) + 1) block.

(** The two issues of a figure without label and without caption. *)
Definition missing_label_at (file : text) (line : nat) : dict :=
  [("type", VStr "missing_label");
   ("severity", VStr "error");
   ("file", VStr file);
   ("line", VInt (Z.of_nat line))].

Definition missing_caption_at (file : text) (line : nat) : dict :=
  [("type", VStr "missing_caption");
   ("severity", VStr "warning");
   ("file", VStr file);
   ("line", VInt (Z.of_nat line));
   ("label", VNone)].

(** A figure without label and caption, and one that also pulls its
    content to the left. *)
Definition bare_figure : text :=
  "Results." ++ newline ++ "\begin{figure}" ++ newline
  ++ "\includegraphics[width=0.8\columnwidth]{plot}" ++ newline ++ "\end{figure}".

Definition squeezed_figure : text :=
  "Results." ++ newline ++ "\begin{figure}" ++ newline
  ++ "\hspace{-1em}\includegraphics{plot}" ++ newline ++ "\end{figure}".

(** The name of [s] contains the requested name, case apart. *)
Definition name_matches (section_name : text) (s : T.Section_) : Prop :=
  ∃ pre post, Py.lower (T.name s) = pre ++ Py.lower section_name ++ post.

(** [m] is the first section whose name matches. *)
Definition first_matching (sections : list T.Section_) (section_name : text)
    (m : T.Section_) : Prop :=
  ∃ i, sections !! i = Some m ∧ name_matches section_name m
       ∧ ∀ j s, j < i → sections !! j = Some s → ¬ name_matches section_name s.

(** A document with two sections, and the first of them as extracted. *)
Definition paper_body : text :=
  "\documentclass{article}" ++ newline
  ++ "\section{Introduction} % opening" ++ newline
  ++ "We show that X holds." ++ newline
  ++ "\subsection*{Related Work}" ++ newline
  ++ "Prior art.".

Definition introduction : T.Section_ :=
  {| T.name := "Introduction"; T.level := "section"; T.file := "main.tex";
     T.line := 2; T.content := "We show that X holds." |}.

(** Citations of [n] distinct three-digit keys, one per line. *)
Definition numbered_key (i : nat) : text :=
  [ascii_of_nat (48 + i / 100); ascii_of_nat (48 + (i / 10) mod 10);
   ascii_of_nat (48 + i mod 10)].

Definition many_citations (n : nat) : list Citation :=
  (λ i, cite (numbered_key i) "citep" (S i)) <$> seq 0 n.

(** ** The extractors, the runs and the parsers *)

(** A text that neither begins nor ends with whitespace. *)
Definition trimmed (t : text) : Prop :=
  match t with [] => True | c :: _ => Py.isspace c = false end
  ∧ match last t with None => True | Some c => Py.isspace c = false end.

(** The names that group 1 of [CITE_RE] allows: letters and stars, with
    [cite] among the letters before the first star. *)
Definition citation_command (command : text) : Prop :=
  Forall (λ x, Extraction.is_command_char x = true) command
  ∧ Py.contains "cite" (Py.span Py.is_az command).1 = true.

(** A key as a command lists it: not empty, no whitespace around it, no
    comma and no closing brace in it. *)
Definition plain_key (k : text) : Prop :=
  k ≠ [] ∧ Py.strip k = k ∧ (","%char ∉ k) ∧ ("}"%char ∉ k).

(** The call [\command{k1, k2, ...}]. *)
Definition call (command : text) (ks : list text) : text :=
  "\" ++ command ++ "{" ++ Py.join ", " ks ++ "}".

(** The code of a line holds a call of [command] that lists [k]. *)
Definition called_in (code command k : text) : Prop :=
  ∃ pre group post,
    code = pre ++ "\" ++ command ++ "{" ++ group ++ "}" ++ post
    ∧ ("}"%char ∉ group) ∧ k ∈ Extraction.listed_keys group.

(** The finding that the label [l] of a figure or table is not referenced,
    at a given place. *)
Definition unreferenced_at (kind l file : text) (line : nat) : dict :=
  [("type", VStr ("unreferenced_" ++ kind));
   ("severity", VStr "warning");
   ("label", VStr l);
   ("file", VStr file);
   ("line", VInt (Z.of_nat line))].

(** It is anchored at the first environment that bears the label. *)
Definition unreferenced_anchor (kind : text) (envs : list P.Env) (l : text)
    (d : dict) : Prop :=
  ∃ env, first_occurrence P.label envs l env
         ∧ d = unreferenced_at kind l (P.e_file env) (P.e_line env).

(** The labels that the structure parser counts as unreferenced: those of
    an environment that no reference names, and those that lack the
    prefix. *)
Definition counted_unreferenced (prefix : text) (envs : list P.Env)
    (refs : list Ref) (l : text) : Prop :=
  l ≠ [] ∧ (∃ env, env ∈ envs ∧ P.label env = l)
  ∧ ¬ (Py.startswith prefix l = true ∧ ∃ r, r ∈ refs ∧ r_key r = l).

(** [issues] lists one finding for each of the labels that [counted] holds
    of, in the order of [sorted]. *)
Definition lists_sorted (counted : text → Prop) (anchor : text → dict → Prop)
    (issues : list dict) : Prop :=
  ∃ ls, NoDup ls ∧ StronglySorted text_le ls ∧ (∀ l, l ∈ ls ↔ counted l)
        ∧ Forall2 anchor ls issues.

(** A figure with a label of its own naming scheme, and a reference to
    it. *)
Definition plot_figure : P.Env :=
  {| P.e_file := "main.tex"; P.e_line := 3; P.label := "plot:a"; P.caption := "A plot.";
     P.expected_prefix := "fig:"; P.has_label := true; P.has_caption := true |}.

Definition plot_reference : Ref :=
  {| r_key := "plot:a"; r_file := "main.tex"; r_line := 9 |}.

(** The heading that [SECTION_RE.search] finds in the code of a line of
    [verify_content_targets.py]: its command and its group 2. *)
Definition heading_of (line : text) : option (text * text) :=
  (λ '(command, heading, _), (command, heading))
    <$> Py.search (match_section T.section_commands) (strip_comment line).

(** A file with a heading on its second line and a comment below it. *)
Definition short_paper : text :=
  "\documentclass{article}" ++ newline
  ++ "\section{ Method }" ++ newline
  ++ "We sample. % how?" ++ newline
  ++ "Then we fit.".

Module TMain := VerifyContentTargetsMain.

(** A run on the section [Intro] that asks for no word at all, and a file
    whose section [Intro] is empty. *)
Definition lenient_run : TMain.Args :=
  {| TMain.target := TMain.section; TMain.section_name := "intro"; TMain.min_section_words := 0 |}.

Definition empty_intro : text := "\section{Intro}" ++ newline ++ "% to be written".

(** The score of a candidate of a title search against the title of the
    entry, and the record that the result holds of it. *)
Definition candidate_score (entry : V.BibEntry) (w : V.Work) : Q :=
  V.title_match_score (V.title entry) (V.first_title (V.work_titles w)).

Definition candidate_record (w : V.Work) : V.Remote :=
  {| V.remote_doi := V.work_doi w; V.remote_title := V.first_title (V.work_titles w) |}.

(** [w] is the first of the candidates that have the highest score. *)
Definition first_best (entry : V.BibEntry) (candidates : list V.Work) (w : V.Work)
    : Prop :=
  ∃ i, candidates !! i = Some w
       ∧ (∀ w', w' ∈ candidates → (candidate_score entry w' <= candidate_score entry w)%Q)
       ∧ (∀ j w', j < i → candidates !! j = Some w' →
                  (candidate_score entry w' < candidate_score entry w)%Q).

(** A service that answers a title search with two candidates. *)
Definition two_candidates (r : V.Request) : V.Response :=
  V.Decoded {| V.titles := [];
               V.items := [{| V.work_titles := [txt "Deep Residual Learning"];
                              V.work_doi := "10.1/a" |};
                           {| V.work_titles := [txt "Deep Learning"];
                              V.work_doi := "10.1/b" |}] |}.

(** The address of an identifier at the resolver, in any letter case:
    [http] or [https], then [://], an optional [dx.] and [doi.org/]. *)
Definition resolver_address (url : text) : Prop :=
  ∃ scheme s dx host,
    url = scheme ++ s ++ "://" ++ dx ++ host
    ∧ Py.lower scheme = txt "http" ∧ (s = [] ∨ Py.lower s = txt "s")
    ∧ (dx = [] ∨ Py.lower dx = txt "dx.") ∧ Py.lower host = txt "doi.org/".

Module VMain := ValidateCitationsMain.

(** The characters of a normalised title: lower-case letters, digits and
    the blank. *)
Definition plain_char (c : ascii) : bool :=
  Py.is_lower_az c || Py.isdigit c || Py.eqc c " ".

(** A title in normal form: plain characters, no blank at either end and
    no two blanks in a row. *)
Definition canonical_title (n : text) : Prop :=
  Forall (λ c, plain_char c = true) n ∧ trimmed n ∧ Py.contains "  " n = false.

(** The commands of [parse_latex_structure.py] with their levels. *)
Definition leveled_commands : list (text * nat) :=
  [(txt "section", 1); (txt "subsection", 2); (txt "subsubsection", 3);
   (txt "paragraph", 4); (txt "subparagraph", 5)].

(** The file [q] can be read and its text holds [\documentclass]. *)
Definition declares_class (read : text → option text) (q : text) : Prop :=
  ∃ content, read q = Some content ∧ Py.contains "\documentclass" content = true.

(** The depth of brace nesting after [s], from the depth [depth]; [None]
    when a closing brace comes with nothing to close. *)
Fixpoint nesting (depth : nat) (s : text) : option nat :=
  match s with
  | [] => Some depth
  | c :: s' =>
      if Py.eqc c "{" then nesting (S depth) s'
      else if Py.eqc c "}" then
        match depth with O => None | S d => nesting d s' end
      else nesting depth s'
  end.

(** A text whose braces are paired. *)
Definition balanced (s : text) : Prop := nesting 0 s = Some 0.

(** The entry of a record, given its place, its type, its key and the text
    of its fields. *)
Definition entry_with (rel : text) (line_no : nat) (ty key fields_text : text)
    : V.BibEntry :=
  let fields := V.parse_bib_fields fields_text in
  {| V.key := Py.strip key;
     V.entry_type := Py.lower ty;
     V.file := rel;
     V.line := line_no;
     V.title := V.field fields "title";
     V.author := V.field fields "author";
     V.year := V.field fields "year";
     V.doi := V.field fields "doi";
     V.arxiv := default (V.field fields "arxiv") (fields !! txt "eprint") |}.

(** A file with a comment line and one record. *)
Definition one_record : text :=
  "% my references" ++ newline
  ++ "@Article{ lecun2015 , title = {Deep {L}earning}, year = 2015, eprint = {1234.5678} }"
  ++ newline.

(** The three ways to write the value of a field: in braces, in double
    quotes, or bare. *)
Inductive Delimiters := Braces | Quotes | Bare.

Definition written (d : Delimiters) (v : text) : text :=
  match d with
  | Braces => "{" ++ v ++ "}"
  | Quotes => "034"%char :: v ++ ["034"%char]
  | Bare => v
  end.

(** What each way can hold: in braces, a text whose braces are paired; in
    quotes, a text without a double quote that does not end with a
    backslash; bare, a text without comma and line end that begins with
    neither whitespace, a brace nor a quote. *)
Definition writable (d : Delimiters) (v : text) : Prop :=
  match d with
  | Braces => balanced v
  | Quotes => ("034"%char ∉ v) ∧ last v ≠ Some "\"%char
  | Bare =>
      match v with
      | c :: _ => Py.isspace c = false ∧ c ≠ "{"%char ∧ c ≠ "034"%char
      | [] => False
      end
      ∧ Forall (λ c, c ≠ ","%char ∧ c ≠ "010"%char ∧ c ≠ "013"%char) v
  end.

Record Field := {
  f_name : text;
  f_delimiters : Delimiters;
  f_value : text;
}.

(** A field on a line of its own: [  name = value,]. *)
Definition field_line (f : Field) : text :=
  "  " ++ f_name f ++ " = " ++ written (f_delimiters f) (f_value f) ++ "," ++ newline.

Definition fields_text (fs : list Field) : text := concat (field_line <$> fs).

(** The value that is stored: [" ".join(value.strip().split())]. *)
Definition stored (v : text) : text := Py.join " " (Py.split (Py.strip v)).

(** The dictionary of the fields, a later field replacing an earlier one
    of the same name. *)
Definition fields_map (fs : list Field) : gmap text text :=
  foldl (λ m f, <[Py.lower (f_name f) := stored (f_value f)]> m) ∅ fs.

Definition well_written (f : Field) : Prop :=
  field_name (f_name f) ∧ writable (f_delimiters f) (f_value f).

(** Three fields, one of them given twice. *)
Definition sample_fields : list Field :=
  [ {| f_name := "Title"; f_delimiters := Braces; f_value := "Deep  {L}earning" |};
    {| f_name := "year"; f_delimiters := Bare; f_value := "2014" |};
    {| f_name := "note"; f_delimiters := Quotes; f_value := "in {press" |};
    {| f_name := "YEAR"; f_delimiters := Quotes; f_value := " 2015 " |} ].

(** A word: not empty and without whitespace. *)
Definition wordlike (w : text) : Prop :=
  w ≠ [] ∧ Forall (λ c, Py.isspace c = false) w.

(** A value whose words are separated by single blanks, with no whitespace
    around them. *)
Definition single_spaced (v : text) : Prop := Py.join " " (Py.split v) = v.

Module PMain := ParseLatexStructureMain.

(** Some line of the files holds a call of a reference command that lists
    the label [l] among plain keys; the line has no command before the call
    and no comment. *)
Definition named_in (tex_files : list (text * text)) (l : text) : Prop :=
  ∃ rel content i pre command ks post,
    (rel, content) ∈ tex_files
    ∧ Py.splitlines content !! i = Some (pre ++ call command ks ++ post)
    ∧ command ∈ Extraction.ref_commands ∧ Forall plain_key ks ∧ l ∈ ks
    ∧ ("\"%char ∉ pre) ∧ ("%"%char ∉ pre ++ call command ks ++ post)
    ∧ Py.contains PERCENT (pre ++ call command ks ++ post) = false.

(** A file with a figure and a reference to it. *)
Definition figure_paper : text :=
  "\begin{figure}" ++ newline
  ++ "\caption{A plot of the results.}\label{fig:plot}" ++ newline
  ++ "\end{figure}" ++ newline
  ++ "See \autoref{fig:plot, fig:other}.".

(** A record of a bibliography: its type, its key and its fields. *)
Record BibRecord := {
  b_type : text;
  b_key : text;
  b_fields : list Field;
}.

(** The record as it is usually written: the type and the key on a line,
    each field on a line of its own, the closing brace on the last line. *)
Definition record_text (r : BibRecord) : text :=
  "@" ++ b_type r ++ "{" ++ b_key r ++ "," ++ newline
  ++ fields_text (b_fields r) ++ "}" ++ newline.

Definition bibliography (rs : list BibRecord) : text := concat (record_text <$> rs).

(** A text without a line boundary of [str.splitlines]. *)
Definition one_line (s : text) : Prop := Forall (λ c, Py.is_linebreak c = false) s.

(** What the two readers of a bibliography need of a record to read it
    alike: a type made of word characters; a plain key without an opening
    brace; fields that are well written, whose values stand on one line,
    have their braces paired and hold no [@]. *)
Definition well_formed_record (r : BibRecord) : Prop :=
  b_type r ≠ [] ∧ Forall (λ c, Py.isword c = true) (b_type r)
  ∧ plain_key (b_key r) ∧ ("{"%char ∉ b_key r) ∧ one_line (b_key r)
  ∧ Forall (λ f, well_written f ∧ balanced (f_value f) ∧ one_line (f_value f)
                 ∧ ("@"%char ∉ f_value f)) (b_fields r).

(** The records with the lines of their headers, the first one on the line
    [line]. *)
Fixpoint placed (line : nat) (rs : list BibRecord) : list (nat * BibRecord) :=
  match rs with
  | [] => []
  | r :: rs' => (line, r) :: placed (line + length (b_fields r) + 2) rs'
  end.

(** The entry of the validator and the key of the structure parser for a
    record on a given line. *)
Definition entry_of_record (rel : text) (at_line : nat * BibRecord) : V.BibEntry :=
  let fields := fields_map (b_fields at_line.2) in
  {| V.key := b_key at_line.2;
     V.entry_type := Py.lower (b_type at_line.2);
     V.file := rel;
     V.line := at_line.1;
     V.title := V.field fields "title";
     V.author := V.field fields "author";
     V.year := V.field fields "year";
     V.doi := V.field fields "doi";
     V.arxiv := default (V.field fields "arxiv") (fields !! txt "eprint") |}.

Definition key_of_record (rel : text) (at_line : nat * BibRecord) : P.BibKey :=
  {| P.key := b_key at_line.2; P.file := rel; P.line := at_line.1 |}.

(** The lines of a record. *)
Definition field_code (f : Field) : text :=
  "  " ++ f_name f ++ " = " ++ written (f_delimiters f) (f_value f) ++ ",".

Definition record_lines (r : BibRecord) : list text :=
  ("@" ++ b_type r ++ "{" ++ b_key r ++ ",")
  :: (field_code <$> b_fields r) ++ [txt "}"].

(** Two records. *)
Definition two_records : list BibRecord :=
  [ {| b_type := "Article"; b_key := "lecun2015";
       b_fields := [ {| f_name := "title"; f_delimiters := Braces;
                        f_value := "Deep {L}earning" |};
                     {| f_name := "year"; f_delimiters := Bare; f_value := "2015" |} ] |};
    {| b_type := "misc"; b_key := "he:16";
       b_fields := [ {| f_name := "eprint"; f_delimiters := Quotes;
                        f_value := "1512.03385" |} ] |} ].

(** * Properties *)

#[local] Set Warnings "-clear-no-such-hyp".

(** ** The comment stripper *)

Lemma eqc_ne a b : a ≠ b → Py.eqc a b = false.
Proof. intros. unfold Py.eqc. by apply bool_decide_eq_false_2. Qed.

Lemma eqc_refl a : Py.eqc a a = true.
Proof. unfold Py.eqc. by apply bool_decide_eq_true_2. Qed.

Lemma startswith_head_ne a p c s : a ≠ c → Py.startswith (a :: p) (c :: s) = false.
Proof. intros H. simpl. by rewrite eqc_ne. Qed.

Lemma replace_from_miss old new c s :
  Py.startswith old (c :: s) = false →
  Py.replace_from old new 0 (c :: s) = c :: Py.replace_from old new 0 s.
Proof. intros H. simpl Py.replace_from. by rewrite H. Qed.

Lemma before_first_miss x c s :
  c ≠ x → Py.before_first x (c :: s) = c :: Py.before_first x s.
Proof. intros H. simpl. by rewrite eqc_ne. Qed.

Lemma uncommented_plain c s :
  c ≠ "%"%char → c ≠ "\"%char → uncommented (c :: s) = c :: uncommented s.
Proof. intros H1 H2. simpl. by rewrite !eqc_ne. Qed.

Lemma uncommented_backslash d s :
  d ≠ "%"%char →
  uncommented ("\"%char :: d :: s) = "\"%char :: uncommented (d :: s).
Proof. intros H. cbn [uncommented]. by rewrite (eqc_ne d) by done. Qed.

Lemma escaped_percent_miss d s :
  d ≠ "%"%char → Py.startswith escaped_percent ("\"%char :: d :: s) = false.
Proof.
  intros H. cbn. rewrite (eqc_ne "%" d) by congruence. by rewrite andb_false_r.
Qed.

Lemma unescape_sentinel (rest : text) :
  Py.replace_from PERCENT escaped_percent 0 (PERCENT ++ rest)
  = escaped_percent ++ Py.replace_from PERCENT escaped_percent 0 rest.
Proof. reflexivity. Qed.

Lemma before_first_sentinel (rest : text) :
  Py.before_first "%" (PERCENT ++ rest) = PERCENT ++ Py.before_first "%" rest.
Proof. reflexivity. Qed.

Lemma strip_comment_uncommented_upto (n : nat) : ∀ line : text,
  length line ≤ n → "_"%char ∉ line →
  strip_comment line = uncommented line.
Proof.
  unfold strip_comment, Py.replace.
  induction n as [|n IH]; intros [|c rest] Hlen Hus; simpl in Hlen;
    try lia; try reflexivity.
  apply not_elem_of_cons in Hus as [Hc Hrest].
  destruct (decide (c = "%"%char)) as [->|Hpc]; [reflexivity|].
  destruct (decide (c = "\"%char)) as [->|Hbs].
  - destruct rest as [|d rest']; [reflexivity|].
    destruct (decide (d = "%"%char)) as [->|Hpd].
    + apply not_elem_of_cons in Hrest as [Hd Hrest'].
      change (Py.replace_from escaped_percent PERCENT 0
                ("\"%char :: "%"%char :: rest'))
        with (PERCENT ++ Py.replace_from escaped_percent PERCENT 0 rest').
      rewrite before_first_sentinel, unescape_sentinel.
      rewrite IH by (first [simpl in *; lia | done]). reflexivity.
    + rewrite replace_from_miss by by apply escaped_percent_miss.
      rewrite before_first_miss by done.
      rewrite replace_from_miss by by apply startswith_head_ne.
      rewrite uncommented_backslash by done.
      f_equal. apply IH; [simpl in *; lia|done].
  - rewrite replace_from_miss by (apply startswith_head_ne; congruence).
    rewrite before_first_miss by done.
    rewrite replace_from_miss by (apply startswith_head_ne; congruence).
    rewrite uncommented_plain by done.
    f_equal. apply IH; [lia|done].
Qed.

(** On a line without underscore the stripper meets its contract: escaped
    comment characters are kept, the first unescaped one and what follows
    are dropped, the rest is returned as it is. *)
Lemma strip_comment_uncommented (line : text) :
  "_"%char ∉ line → strip_comment line = uncommented line.
Proof. by apply (strip_comment_uncommented_upto (length line)). Qed.

(** C5: the stripper does not return every line content unchanged.  The
    line [__PERCENT__] holds no comment character at all, and comes back as
    an escaped comment character: the placeholder that protects [\%] during
    the split is itself rewritten when the line already contains it. *)
Theorem strip_comment_rewrites_placeholder :
  strip_comment "__PERCENT__" = "\%"
  ∧ uncommented "__PERCENT__" = "__PERCENT__".
Proof. split; reflexivity. Qed.

(** ** Sorting a set of keys *)

Global Instance text_le_total : Total text_le.
Proof. intros a b. unfold text_le. apply total, _. Qed.

Global Instance text_le_trans : Transitive text_le.
Proof. intros a b c. unfold text_le. apply transitivity. Qed.

Global Instance text_le_antisym : AntiSymm (=) text_le.
Proof.
  intros a b H1 H2. unfold text_le in *.
  assert (string_of_list_ascii a = string_of_list_ascii b) as Heq
    by (by apply (anti_symm String.le)).
  rewrite <- (list_ascii_of_string_of_list_ascii a),
          <- (list_ascii_of_string_of_list_ascii b).
  by rewrite Heq.
Qed.

Lemma sorted_Permutation (s : gset text) : sorted s ≡ₚ elements s.
Proof. apply merge_sort_Permutation. Qed.

Lemma elem_of_sorted (s : gset text) k : k ∈ sorted s ↔ k ∈ s.
Proof. by rewrite sorted_Permutation, elem_of_elements. Qed.

Lemma NoDup_sorted (s : gset text) : NoDup (sorted s).
Proof. rewrite sorted_Permutation. apply NoDup_elements. Qed.

Lemma StronglySorted_sorted (s : gset text) : StronglySorted text_le (sorted s).
Proof. apply StronglySorted_merge_sort; apply _. Qed.

Lemma length_sorted (s : gset text) : length (sorted s) = size s.
Proof. by rewrite sorted_Permutation. Qed.

(** ** Keys and their occurrences *)

Lemma elem_of_key_set {A} (field : A → text) items k :
  k ∈ key_set field items ↔ ∃ x, x ∈ items ∧ field x = k.
Proof.
  unfold key_set. rewrite elem_of_list_to_set, list_elem_of_fmap. naive_solver.
Qed.

Lemma list_find_first_occurrence {A} (field : A → text) items k :
  k ∈ key_set field items →
  ∃ x, snd <$> list_find (λ y, field y = k) items = Some x
       ∧ first_occurrence field items k x.
Proof.
  intros (x & Hx & Hk)%elem_of_key_set.
  destruct (list_find_elem_of (λ y, field y = k) items x Hx Hk) as [[i y] Hy].
  exists y. rewrite Hy. split; [done|].
  apply list_find_Some in Hy as (Hi & Hf & Hmin).
  exists i. split_and!; [done..|]. intros j z Hj Hz. by eapply Hmin.
Qed.

Lemma first_occurrence_unique {A} (field : A → text) items k x y :
  first_occurrence field items k x → first_occurrence field items k y → x = y.
Proof.
  intros (i & Hi & Hk & Hmin) (j & Hj & Hk' & Hmin').
  destruct (decide (i < j)) as [?|?]; [by destruct (Hmin' i x)|].
  destruct (decide (j < i)) as [?|?]; [by destruct (Hmin j y)|].
  assert (i = j) as -> by lia. congruence.
Qed.

Lemma bib_key_map_snoc entries e :
  V.bib_key_map (entries ++ [e]) = <[V.key e := e]> (V.bib_key_map entries).
Proof. unfold V.bib_key_map. by rewrite foldl_app. Qed.

(** The dictionary comprehension keeps, for each key, its last record. *)
Lemma bib_key_map_lookup entries k e :
  V.bib_key_map entries !! k = Some e ↔ last_occurrence V.key entries k e.
Proof.
  revert e. induction entries as [|x entries IH] using rev_ind; intros e.
  - split; [done|]. by intros (i & Hi & _).
  - rewrite bib_key_map_snoc. destruct (decide (V.key x = k)) as [Hk|Hk].
    + rewrite Hk, lookup_insert_eq. split.
      * intros [= <-]. exists (length entries). split_and!; [|done|].
        { by rewrite lookup_app_r, Nat.sub_diag by lia. }
        intros j y Hj Hy. apply lookup_lt_Some in Hy.
        rewrite length_app in Hy. simpl in Hy. lia.
      * intros (i & Hi & Hke & Hlast).
        destruct (decide (i < length entries)) as [Hlt|Hge].
        { destruct (Hlast (length entries) x); [done| |done].
          by rewrite lookup_app_r, Nat.sub_diag by lia. }
        apply lookup_lt_Some in Hi as Hlen. rewrite length_app in Hlen.
        simpl in Hlen. assert (i = length entries) as -> by lia.
        rewrite lookup_app_r, Nat.sub_diag in Hi by lia. by simplify_eq/=.
    + rewrite lookup_insert_ne by done. rewrite IH. split.
      * intros (i & Hi & Hke & Hlast). exists i.
        apply lookup_lt_Some in Hi as Hlen.
        split_and!; [by rewrite lookup_app_l|done|].
        intros j y Hj Hy. destruct (decide (j < length entries)).
        { rewrite lookup_app_l in Hy by done. by eapply Hlast. }
        apply lookup_lt_Some in Hy as Hlen'. rewrite length_app in Hlen'.
        simpl in Hlen'. assert (j = length entries) as -> by lia.
        rewrite lookup_app_r, Nat.sub_diag in Hy by lia. by simplify_eq/=.
      * intros (i & Hi & Hke & Hlast).
        destruct (decide (i < length entries)) as [Hlt|Hge].
        { exists i. rewrite lookup_app_l in Hi by done. split_and!; [done..|].
          intros j y Hj Hy. eapply (Hlast j); [done|].
          rewrite lookup_app_l; [done|]. by eapply lookup_lt_Some. }
        apply lookup_lt_Some in Hi as Hlen. rewrite length_app in Hlen.
        simpl in Hlen. assert (i = length entries) as -> by lia.
        rewrite lookup_app_r, Nat.sub_diag in Hi by lia. by simplify_eq/=.
Qed.

Lemma bib_keys_key_set entries : V.bib_keys entries = key_set V.key entries.
Proof.
  unfold V.bib_keys. induction entries as [|x entries IH] using rev_ind.
  - done.
  - rewrite bib_key_map_snoc, dom_insert_L, IH. unfold key_set.
    rewrite fmap_app, list_to_set_app_L. simpl. set_solver.
Qed.

(** ** The set-difference issues *)

Lemma enumerates_sorted (diff : gset text) (anchor : text → dict → Prop) issues :
  Forall2 anchor (sorted diff) issues → enumerates diff anchor issues.
Proof.
  intros H. exists (sorted diff).
  split_and!; [apply NoDup_sorted|apply StronglySorted_sorted| |done].
  intros k. apply elem_of_sorted.
Qed.

Lemma enumerates_length diff anchor issues :
  enumerates diff anchor issues → length issues = size diff.
Proof.
  intros (ks & Hnd & _ & Hks & Hall).
  rewrite <- (Forall2_length _ _ _ Hall).
  unfold size, set_size. simpl. apply Permutation_length.
  apply NoDup_Permutation; [done|apply NoDup_elements|].
  intros k. by rewrite Hks, elem_of_elements.
Qed.

Lemma of_type_all t (l : list dict) :
  Forall (λ d, has_type t d = true) l → of_type t l = l.
Proof.
  unfold of_type. induction 1 as [|d l Hd _ IH]; [done|].
  by rewrite filter_cons_True, IH.
Qed.

Lemma of_type_none t (l : list dict) :
  Forall (λ d, has_type t d = false) l → of_type t l = [].
Proof.
  unfold of_type. induction 1 as [|d l Hd _ IH]; [done|].
  rewrite filter_cons_False; [done|]. by rewrite Hd.
Qed.

Lemma of_type_app t (l1 l2 : list dict) :
  of_type t (l1 ++ l2) = of_type t l1 ++ of_type t l2.
Proof. apply filter_app. Qed.

Lemma of_type_take_none t n (l : list dict) :
  Forall (λ d, has_type t d = false) l → of_type t (take n l) = [].
Proof. intros H. by apply of_type_none, Forall_take. Qed.

Lemma Forall2_Forall_r {A B} (R : A → B → Prop) (Q : B → Prop) l k :
  Forall2 R l k → (∀ x y, R x y → Q y) → Forall Q k.
Proof. induction 1; intros HRQ; constructor; eauto. Qed.

Lemma Forall2_impl_elem_of {A B} (R Q : A → B → Prop) l k :
  Forall2 R l k → (∀ x y, x ∈ l → R x y → Q x y) → Forall2 Q l k.
Proof.
  induction 1 as [|x y l k HR _ IH]; intros HRQ; constructor.
  - apply HRQ; [left|done].
  - apply IH. intros x' y' Hx'. apply HRQ. by right.
Qed.

Lemma Forall_concat_fmap {A B} (Q : B → Prop) (f : A → list B) l :
  (∀ x, Forall Q (f x)) → Forall Q (concat (f <$> l)).
Proof. intros Hf. induction l; simpl; [constructor|]. apply Forall_app. auto. Qed.

(** An issue of either type tells the two types apart. *)
Lemma undefined_anchor_type citations k d :
  undefined_anchor citations k d →
  has_type "undefined_citation" d = true
  ∧ has_type "uncited_bibliography_entry" d = false.
Proof. by intros (c & _ & ->). Qed.

Lemma uncited_anchor_last_type entries k d :
  uncited_anchor_last entries k d →
  has_type "undefined_citation" d = false
  ∧ has_type "uncited_bibliography_entry" d = true.
Proof. by intros (c & _ & ->). Qed.

Lemma uncited_anchor_first_type entries k d :
  uncited_anchor_first entries k d →
  has_type "undefined_citation" d = false
  ∧ has_type "uncited_bibliography_entry" d = true.
Proof. by intros (c & _ & ->). Qed.

(** *** The validator *)

(** [main] raises neither [StopIteration] nor [KeyError]; its issues are
    the undefined citations, the uncited entries and the style issues. *)
Lemma validator_local_issues citations entries :
  ∃ undefined uncited,
    V.local_issues citations entries
      = Some (undefined ++ uncited ++ (V.style_issue <$> V.style_issues citations))
    ∧ Forall2 (undefined_anchor citations)
        (sorted (key_set c_key citations ∖ key_set V.key entries)) undefined
    ∧ Forall2 (uncited_anchor_last entries)
        (sorted (key_set V.key entries ∖ key_set c_key citations)) uncited.
Proof.
  unfold V.local_issues, V.undefined_keys, V.uncited_keys, V.cited_keys.
  rewrite bib_keys_key_set.
  set (U := sorted (key_set c_key citations ∖ key_set V.key entries)).
  set (W := sorted (key_set V.key entries ∖ key_set c_key citations)).
  assert (HU : ∀ k, k ∈ U → ∃ c, V.first_citation citations k = Some c
                               ∧ first_occurrence c_key citations k c).
  { intros k [Hk _]%elem_of_sorted%elem_of_difference.
    by apply list_find_first_occurrence. }
  assert (HW : ∀ k, k ∈ W → ∃ e, V.bib_key_map entries !! k = Some e
                               ∧ last_occurrence V.key entries k e).
  { intros k [Hk _]%elem_of_sorted%elem_of_difference.
    rewrite <- bib_keys_key_set in Hk. unfold V.bib_keys in Hk.
    apply elem_of_dom in Hk as [e He]. exists e. split; [done|].
    by apply bib_key_map_lookup. }
  destruct (mapM (λ k, V.undefined_issue k <$> V.first_citation citations k) U)
    as [undefined|] eqn:Hu; last first.
  { apply mapM_None_1, Exists_exists in Hu as (k & Hk & Hnone).
    destruct (HU k Hk) as (c & Hc & _). by rewrite Hc in Hnone. }
  destruct (mapM (λ k, V.uncited_issue k <$> V.bib_key_map entries !! k) W)
    as [uncited|] eqn:Hw; last first.
  { apply mapM_None_1, Exists_exists in Hw as (k & Hk & Hnone).
    destruct (HW k Hk) as (e & He & _). by rewrite He in Hnone. }
  exists undefined, uncited. split; [done|]. split.
  - apply mapM_Some_1 in Hu. eapply Forall2_impl_elem_of; [exact Hu|].
    intros k d Hk Hd. simpl in Hd. destruct (HU k Hk) as (c & Hc & Hfirst).
    rewrite Hc in Hd. injection Hd as <-. by exists c.
  - apply mapM_Some_1 in Hw. eapply Forall2_impl_elem_of; [exact Hw|].
    intros k d Hk Hd. simpl in Hd. destruct (HW k Hk) as (e & He & Hlast).
    rewrite He in Hd. injection Hd as <-. by exists e.
Qed.

Lemma validator_enumeration citations entries :
  validator_enumerates citations entries.
Proof.
  destruct (validator_local_issues citations entries)
    as (undefined & uncited & Heq & Hu & Hw).
  eexists. split; [exact Heq|].
  assert (Forall (λ d, has_type "undefined_citation" d = true) undefined
          ∧ Forall (λ d, has_type "uncited_bibliography_entry" d = false) undefined)
    as [Hu1 Hu2].
  { split; eapply Forall2_Forall_r; try exact Hu;
      by intros k d [??]%undefined_anchor_type. }
  assert (Forall (λ d, has_type "undefined_citation" d = false) uncited
          ∧ Forall (λ d, has_type "uncited_bibliography_entry" d = true) uncited)
    as [Hw1 Hw2].
  { split; eapply Forall2_Forall_r; try exact Hw;
      by intros k d [??]%uncited_anchor_last_type. }
  assert (∀ cs, Forall (λ d, has_type "undefined_citation" d = false)
                  (V.style_issue <$> cs)
              ∧ Forall (λ d, has_type "uncited_bibliography_entry" d = false)
                  (V.style_issue <$> cs)) as Hs.
  { intros cs. split; apply Forall_fmap, Forall_true; by intros c. }
  rewrite !of_type_app.
  rewrite (of_type_all _ _ Hu1), (of_type_none _ _ Hw1),
    (of_type_none _ _ (proj1 (Hs _))).
  rewrite (of_type_none _ _ Hu2), (of_type_all _ _ Hw2),
    (of_type_none _ _ (proj2 (Hs _))).
  rewrite !app_nil_r. simpl. split; by apply enumerates_sorted.
Qed.

(** *** The structure parser *)

Lemma parser_undefined citations entries :
  Forall2 (undefined_anchor citations)
    (sorted (key_set c_key citations ∖ key_set P.key entries))
    (P.undefined_issue citations
       <$> sorted (key_set c_key citations ∖ key_set P.key entries)).
Proof.
  apply Forall2_fmap_r, Forall_Forall2_diag, Forall_forall.
  intros k [Hk _]%elem_of_sorted%elem_of_difference.
  destruct (list_find_first_occurrence c_key citations k Hk) as (c & Hc & Hfirst).
  exists c. split; [done|]. unfold P.undefined_issue, P.first_by_key. by rewrite Hc.
Qed.

Lemma parser_uncited citations entries :
  Forall2 (uncited_anchor_first entries)
    (sorted (key_set P.key entries ∖ key_set c_key citations))
    (P.uncited_issue entries
       <$> sorted (key_set P.key entries ∖ key_set c_key citations)).
Proof.
  apply Forall2_fmap_r, Forall_Forall2_diag, Forall_forall.
  intros k [Hk _]%elem_of_sorted%elem_of_difference.
  destruct (list_find_first_occurrence P.key entries k Hk) as (c & Hc & Hfirst).
  exists c. split; [done|]. unfold P.uncited_issue, P.first_by_key. by rewrite Hc.
Qed.

Lemma env_issues_other_figure env : Forall other_type (P.env_issues "figure" "fig:" env).
Proof.
  unfold P.env_issues.
  destruct (P.has_label env), (Py.startswith _ _), (P.has_caption env); simpl;
    repeat constructor.
Qed.

Lemma env_issues_other_table env : Forall other_type (P.env_issues "table" "tab:" env).
Proof.
  unfold P.env_issues.
  destruct (P.has_label env), (Py.startswith _ _), (P.has_caption env); simpl;
    repeat constructor.
Qed.

Lemma parser_tail_other refs figures tables :
  Forall other_type
    (concat (P.env_issues "figure" "fig:" <$> figures)
     ++ concat (P.env_issues "table" "tab:" <$> tables)
     ++ (P.unreferenced_issue "figure" figures
           <$> sorted (P.labels_of figures ∖ P.refs_with "fig:" (key_set r_key refs)))
     ++ (P.unreferenced_issue "table" tables
           <$> sorted (P.labels_of tables ∖ P.refs_with "tab:" (key_set r_key refs)))).
Proof.
  repeat apply Forall_app_2.
  - apply Forall_concat_fmap, env_issues_other_figure.
  - apply Forall_concat_fmap, env_issues_other_table.
  - apply Forall_fmap, Forall_true. by intros l.
  - apply Forall_fmap, Forall_true. by intros l.
Qed.

(** [main] passes a bound of at least 1, so the slice is a prefix. *)
Lemma report_issues citations entries refs figures tables (m : Z) :
  P.issues (P.report citations entries refs figures tables m)
  = take (Z.to_nat (Z.max 1 m)) (P.all_issues citations entries refs figures tables).
Proof.
  simpl. unfold P.build_issues, P.slice_to.
  destruct (Z.ltb_spec (Z.max 1 m) 0); [lia|done].
Qed.

Lemma parser_enumeration citations entries refs figures tables (m : Z) :
  size (key_set c_key citations ∖ key_set P.key entries)
  + size (key_set P.key entries ∖ key_set c_key citations) ≤ Z.to_nat (Z.max 1 m) →
  parser_enumerates citations entries
    (P.issues (P.report citations entries refs figures tables m)).
Proof.
  intros Hcap. unfold parser_enumerates. rewrite report_issues.
  unfold P.all_issues.
  pose proof (parser_undefined citations entries) as Hu.
  pose proof (parser_uncited citations entries) as Hw.
  pose proof (parser_tail_other refs figures tables) as Ht.
  set (U := sorted (key_set c_key citations ∖ key_set P.key entries)) in *.
  set (W := sorted (key_set P.key entries ∖ key_set c_key citations)) in *.
  set (A := P.undefined_issue citations <$> U) in *.
  set (B := P.uncited_issue entries <$> W) in *.
  assert (length A + length B ≤ Z.to_nat (Z.max 1 m)) as Hlen.
  { unfold A, B, U, W. by rewrite !length_fmap, !length_sorted. }
  rewrite take_app_ge by lia. rewrite take_app_ge by lia.
  rewrite !of_type_app.
  assert (Forall (λ d, has_type "undefined_citation" d = true) A
          ∧ Forall (λ d, has_type "uncited_bibliography_entry" d = false) A)
    as [Hu1 Hu2].
  { split; eapply Forall2_Forall_r; try exact Hu;
      by intros k d [??]%undefined_anchor_type. }
  assert (Forall (λ d, has_type "undefined_citation" d = false) B
          ∧ Forall (λ d, has_type "uncited_bibliography_entry" d = true) B)
    as [Hw1 Hw2].
  { split; eapply Forall2_Forall_r; try exact Hw;
      by intros k d [??]%uncited_anchor_first_type. }
  rewrite (of_type_all _ _ Hu1), (of_type_none _ _ Hw1).
  rewrite (of_type_none _ _ Hu2), (of_type_all _ _ Hw2).
  rewrite !of_type_take_none, !app_nil_r;
    [|eapply Forall_impl; [exact Ht|by intros d [??]]..].
  simpl. split; by apply enumerates_sorted.
Qed.

(** C1, amended: in the citation validator the undefined_citation issues
    of a run enumerate the keys cited and not in the bibliography, one issue
    per key, anchored at the first citation of the key, and the
    uncited_bibliography_entry issues enumerate the bibliography keys never
    cited, one issue per key, anchored at a record bearing the key (the last
    one).  In the structure parser the same holds, with the first record of
    the key, whenever the two differences together fit under the cap
    [max(1, max_issues)] on the emitted issues.  The two differences are
    disjoint. *)
Theorem set_difference_issues
    (citations : list Citation) (entries : list V.BibEntry)
    (bib_keys : list P.BibKey) (refs : list Ref) (figures tables : list P.Env)
    (max_issues : Z) :
  validator_enumerates citations entries
  ∧ (size (key_set c_key citations ∖ key_set P.key bib_keys)
     + size (key_set P.key bib_keys ∖ key_set c_key citations)
       ≤ Z.to_nat (Z.max 1 max_issues) →
     parser_enumerates citations bib_keys
       (P.issues (P.report citations bib_keys refs figures tables max_issues)))
  ∧ (key_set c_key citations ∖ key_set V.key entries)
      ## (key_set V.key entries ∖ key_set c_key citations)
  ∧ (key_set c_key citations ∖ key_set P.key bib_keys)
      ## (key_set P.key bib_keys ∖ key_set c_key citations).
Proof.
  split_and!.
  - apply validator_enumeration.
  - apply parser_enumeration.
  - set_solver.
  - set_solver.
Qed.

(** The scenario of the specification: entries [a] and [b], citations
    [\citep{a}] and [\cite{c}], the default cap of 500. *)
Lemma set_difference_issues_witness :
  size (key_set c_key [cite "a" "citep" 1; cite "c" "cite" 2]
          ∖ key_set P.key [bibkey "a" 1; bibkey "b" 5])
  + size (key_set P.key [bibkey "a" 1; bibkey "b" 5]
            ∖ key_set c_key [cite "a" "citep" 1; cite "c" "cite" 2])
    ≤ Z.to_nat (Z.max 1 500)
  ∧ parser_enumerates [cite "a" "citep" 1; cite "c" "cite" 2]
      [bibkey "a" 1; bibkey "b" 5]
      (P.issues (P.report [cite "a" "citep" 1; cite "c" "cite" 2]
                   [bibkey "a" 1; bibkey "b" 5] [] [] [] 500))
  ∧ validator_enumerates [cite "a" "citep" 1; cite "c" "cite" 2]
      [bib "a" 1; bib "b" 5].
Proof.
  destruct (set_difference_issues [cite "a" "citep" 1; cite "c" "cite" 2]
              [bib "a" 1; bib "b" 5] [bibkey "a" 1; bibkey "b" 5] [] [] [] 500)
    as (Hv & Hp & _).
  assert (size (key_set c_key [cite "a" "citep" 1; cite "c" "cite" 2]
                  ∖ key_set P.key [bibkey "a" 1; bibkey "b" 5])
          + size (key_set P.key [bibkey "a" 1; bibkey "b" 5]
                    ∖ key_set c_key [cite "a" "citep" 1; cite "c" "cite" 2])
          ≤ Z.to_nat (Z.max 1 500)) as Hcap by (vm_compute; lia).
  split; [exact Hcap|]. split; [exact (Hp Hcap)|exact Hv].
Defined.

(** As stated, C1 fails for the structure parser: with two undefined keys
    and a cap of 1, one issue is emitted. *)
Lemma two_undefined_one_emitted :
  ¬ parser_enumerates [cite "a" "citep" 1; cite "b" "citep" 2] []
      (P.issues (P.report [cite "a" "citep" 1; cite "b" "citep" 2] [] [] [] [] 1)).
Proof.
  intros [H%enumerates_length _]. vm_compute in H. discriminate.
Qed.

(** The numbered keys are pairwise distinct, and the issues of a report
    are no more than the cap. *)
Lemma ascii_of_nat_inj n m :
  n < 256 → m < 256 → ascii_of_nat n = ascii_of_nat m → n = m.
Proof.
  intros Hn Hm H. apply (f_equal nat_of_ascii) in H.
  by rewrite !nat_ascii_embedding in H.
Qed.

Lemma three_digits i :
  i = 100 * (i / 100) + 10 * ((i / 10) mod 10) + i mod 10
  ∧ (i / 10) mod 10 < 10 ∧ i mod 10 < 10.
Proof.
  pose proof (Nat.div_mod_eq i 10). pose proof (Nat.div_mod_eq (i / 10) 10).
  pose proof (Nat.mod_upper_bound i 10). pose proof (Nat.mod_upper_bound (i / 10) 10).
  rewrite Nat.Div0.div_div in *. change (10 * 10) with 100 in *. lia.
Qed.

Lemma numbered_key_inj i j :
  i < 1000 → j < 1000 → numbered_key i = numbered_key j → i = j.
Proof.
  intros Hi Hj. unfold numbered_key.
  destruct (three_digits i) as (Ei & ? & ?). destruct (three_digits j) as (Ej & ? & ?).
  remember (i / 100) as a. remember ((i / 10) mod 10) as b. remember (i mod 10) as c.
  remember (j / 100) as a'. remember ((j / 10) mod 10) as b'. remember (j mod 10) as c'.
  intros Heq. injection Heq as Ka Kb Kc.
  apply ascii_of_nat_inj in Ka, Kb, Kc; lia.
Qed.

Lemma size_numbered n :
  n ≤ 1000 → size (key_set c_key (many_citations n) ∖ key_set P.key []) = n.
Proof.
  intros Hn. unfold key_set, many_citations. cbn [fmap list_fmap list_to_set].
  rewrite difference_empty_L, <- list_fmap_compose, size_list_to_set.
  - by rewrite length_fmap, length_seq.
  - apply NoDup_fmap_2_strong; [|apply NoDup_seq].
    intros i j [_ Hi]%elem_of_seq [_ Hj]%elem_of_seq H. simpl in H.
    apply numbered_key_inj; [lia|lia|done].
Qed.

Lemma issues_within_cap citations entries refs figures tables (max_issues : Z) :
  length (P.issues (P.report citations entries refs figures tables max_issues))
  ≤ Z.to_nat (Z.max 1 max_issues).
Proof.
  cbn [P.report P.issues]. unfold P.build_issues, P.slice_to.
  destruct (Z.ltb_spec (Z.max 1 max_issues) 0) as [Hneg|_]; [lia|].
  rewrite length_take. lia.
Qed.

(** The same under the default [--max-issues] of 500: of 501 undefined
    keys, 500 are reported. *)
Lemma too_many_undefined :
  ¬ parser_enumerates (many_citations 501) []
      (P.issues (P.report (many_citations 501) [] [] [] [] 500)).
Proof.
  intros [H%enumerates_length _]. rewrite size_numbered in H by lia.
  pose proof (length_filter (λ d, has_type "undefined_citation" d = true)
                (P.issues (P.report (many_citations 501) [] [] [] [] 500))) as Hle.
  pose proof (issues_within_cap (many_citations 501) [] [] [] [] 500) as Hcap.
  unfold of_type in H. lia.
Qed.

(** C4, amended: when two parsed bibliography records share a key, the last
    one wins in the validator: the per-key lookup [bib_key_map[key]], and
    with it the file and line of the uncited_bibliography_entry warning,
    uses the last record bearing the key. *)
Theorem duplicate_key_last_wins (citations : list Citation) (entries : list V.BibEntry) :
  (∀ k e, V.bib_key_map entries !! k = Some e ↔ last_occurrence V.key entries k e)
  ∧ ∃ issues, V.local_issues citations entries = Some issues
      ∧ Forall (λ d, ∃ k e, last_occurrence V.key entries k e
                            ∧ d = uncited_entry_at k (V.file e) (V.line e))
          (of_type "uncited_bibliography_entry" issues).
Proof.
  split; [apply bib_key_map_lookup|].
  destruct (validator_enumeration citations entries) as (issues & Heq & _ & Hw).
  exists issues. split; [done|].
  destruct Hw as (ks & _ & _ & _ & Hall).
  eapply Forall2_Forall_r; [exact Hall|]. intros k d (e & He & ->). eauto.
Qed.

(** As stated, C4 fails: of two records with the key [k], at lines 1 and 5,
    the warning is anchored at line 5. *)
Lemma duplicate_key_first_loses :
  V.local_issues [] [bib "k" 1; bib "k" 5] = Some [uncited_entry_at "k" "refs.bib" 5]
  ∧ ¬ ∃ issues, V.local_issues [] [bib "k" 1; bib "k" 5] = Some issues
        ∧ Forall (λ d, ∃ k e, first_occurrence V.key [bib "k" 1; bib "k" 5] k e
                              ∧ d = uncited_entry_at k (V.file e) (V.line e))
            (of_type "uncited_bibliography_entry" issues).
Proof.
  split; [vm_compute; reflexivity|].
  intros (issues & Heq & Hall). vm_compute in Heq. injection Heq as <-.
  apply Forall_inv in Hall as (k & e & (i & Hi & Hk & Hmin) & Hd).
  injection Hd as Hkey Hfile Hline.
  destruct i as [|[|i]]; simpl in Hi; [| |done].
  - injection Hi as <-. simpl in Hline. discriminate.
  - eapply (Hmin 0); [lia|reflexivity|]. injection Hi as <-. done.
Qed.

(** ** The cap on the emitted issues *)

Lemma findings_lost_beyond {A} (Q : A → Prop) `{∀ x, Decision (Q x)}
    (l : list A) n i x :
  n ≤ i → l !! i = Some x → Q x →
  length (filter Q (take n l)) < length (filter Q l).
Proof.
  intros Hi Hx HQ.
  rewrite <- (take_drop n l) at 2. rewrite filter_app, length_app.
  assert (x ∈ filter Q (drop n l)) as Hin.
  { apply list_elem_of_filter. split; [done|].
    apply list_elem_of_lookup. exists (i - n). rewrite lookup_drop.
    by replace (n + (i - n)) with i by lia. }
  destruct (filter Q (drop n l)); [by apply elem_of_nil in Hin|]. simpl. lia.
Qed.

(** C10, amended: the issue list of the structure parser's report is the
    prefix of the computed issue sequence of length at most
    [max(1, max_issues)]; the summary counts the emitted issues only, so
    what lies beyond the cap is dropped without a trace; and whenever a
    set-difference finding lies beyond the cap, the emitted list holds fewer
    set-difference findings than were computed. *)
Theorem issue_cap_prefix
    (citations : list Citation) (entries : list P.BibKey) (refs : list Ref)
    (figures tables : list P.Env) (max_issues : Z) :
  let full := P.all_issues citations entries refs figures tables in
  let payload := P.report citations entries refs figures tables max_issues in
  let cap := Z.to_nat (Z.max 1 max_issues) in
  P.issues payload = take cap full
  ∧ length (P.issues payload) = min cap (length full)
  ∧ P.n_issues (P.summary payload) = length (P.issues payload)
  ∧ (cap < length full → length (P.issues payload) < length full)
  ∧ (∀ i d, cap ≤ i → full !! i = Some d → set_difference_type d = true →
       length (set_difference_findings (P.issues payload))
       < length (set_difference_findings full)).
Proof.
  intros full payload cap.
  assert (P.issues payload = take cap full) as Heq by apply report_issues.
  split_and!.
  - done.
  - by rewrite Heq, length_take.
  - done.
  - rewrite Heq, length_take. lia.
  - intros i d Hi Hd Ht. rewrite Heq.
    by eapply (findings_lost_beyond _ full cap i d).
Qed.

(** Two undefined keys under a cap of 1: the second finding is lost. *)
Lemma issue_cap_prefix_witness :
  length (set_difference_findings
            (P.issues (P.report [cite "a" "citep" 1; cite "b" "citep" 2] [] [] [] [] 1)))
  < length (set_difference_findings
              (P.all_issues [cite "a" "citep" 1; cite "b" "citep" 2] [] [] [] [])).
Proof.
  destruct (issue_cap_prefix [cite "a" "citep" 1; cite "b" "citep" 2] [] [] [] [] 1)
    as (_ & _ & _ & _ & H).
  apply (H 1 (undefined_citation_at "b" "main.tex" 2)).
  - vm_compute. lia.
  - vm_compute. reflexivity.
  - vm_compute. reflexivity.
Defined.

(** As stated, C10 fails in its last part: one undefined citation and one
    figure without label give two issues; under a cap of 1 the emitted list
    still holds every set-difference finding. *)
Lemma cap_may_keep_all_findings :
  ¬ (Z.to_nat (Z.max 1 1)
       < length (P.all_issues [cite "x" "citep" 1] [] [] [unlabelled_figure] []) →
     set_difference_findings
       (P.issues (P.report [cite "x" "citep" 1] [] [] [unlabelled_figure] [] 1))
     ≠ set_difference_findings
         (P.all_issues [cite "x" "citep" 1] [] [] [unlabelled_figure] [])).
Proof.
  intros H. apply H; [vm_compute; lia|]. vm_compute. reflexivity.
Qed.

(** ** Title similarity *)

Lemma title_match_score_same (t : text) :
  V.normalize_title t ≠ [] → V.title_match_score t t = 1%Q.
Proof.
  intros Hne. unfold V.title_match_score.
  rewrite (bool_decide_eq_false_2 _ Hne). simpl.
  by rewrite bool_decide_eq_true_2.
Qed.

Lemma title_match_score_sym (a b : text) :
  V.title_match_score a b = V.title_match_score b a.
Proof.
  unfold V.title_match_score.
  set (na := V.normalize_title a). set (nb := V.normalize_title b).
  rewrite (orb_comm (bool_decide (nb = [])) (bool_decide (na = []))).
  destruct (bool_decide (na = []) || bool_decide (nb = [])); [done|].
  rewrite (bool_decide_ext (nb = na) (na = nb)) by done.
  destruct (bool_decide (na = nb)); [done|].
  rewrite (orb_comm (Py.contains nb na)).
  destruct (Py.contains na nb || Py.contains nb na); [done|].
  rewrite (orb_comm (bool_decide (list_to_set (Py.split nb) = ∅))).
  destruct (bool_decide (list_to_set (Py.split na) =@{gset text} ∅) || _); [done|].
  by rewrite (comm_L (∩) (list_to_set (Py.split nb))),
    (comm_L (∪) (list_to_set (Py.split nb))).
Qed.

Lemma title_match_score_empty (x : text) :
  V.title_match_score "" x = 0%Q ∧ V.title_match_score x "" = 0%Q.
Proof.
  split; [done|]. unfold V.title_match_score.
  change (V.normalize_title "") with (@nil ascii).
  by rewrite orb_true_r.
Qed.

(** C6, amended: the title similarity score is reflexive on the titles
    whose normalised form is not empty ([score(t, t) = 1.0]), symmetric in
    all its branches ([score(a, b) = score(b, a)]), and 0.0 whenever either
    argument is empty. *)
Theorem title_score_properties :
  (∀ t, V.normalize_title t ≠ [] → V.title_match_score t t = 1%Q)
  ∧ (∀ a b, V.title_match_score a b = V.title_match_score b a)
  ∧ (∀ x, V.title_match_score "" x = 0%Q ∧ V.title_match_score x "" = 0%Q).
Proof.
  split_and!.
  - apply title_match_score_same.
  - apply title_match_score_sym.
  - apply title_match_score_empty.
Qed.

Lemma title_score_properties_witness :
  V.normalize_title "Deep Learning" ≠ []
  ∧ V.title_match_score "Deep Learning" "Deep Learning" = 1%Q.
Proof.
  assert (V.normalize_title "Deep Learning" ≠ []) as Hne by (by vm_compute).
  split; [exact Hne|].
  exact (proj1 title_score_properties "Deep Learning" Hne).
Defined.

(** As stated, C6 fails: the title [?] is not empty, its normalised form
    is, and its score against itself is 0. *)
Lemma punctuation_title_scores_zero :
  ¬ (∀ t : text, t ≠ [] → V.title_match_score t t = 1%Q).
Proof.
  intros H. specialize (H "?"). vm_compute in H.
  assert (0%Q = 1%Q) as Habs by (by apply H). discriminate Habs.
Qed.

(** ** The remote matcher *)

Section Remote.

Variable http_get_json : V.Request → V.Response.
Variable round3 : Q → Q.

Let by_doi := V.validate_by_doi http_get_json round3.
Let by_title := V.validate_by_title http_get_json round3.
Let validate := V.validate_entry http_get_json round3.

Lemma validate_by_doi_failed entry reason :
  V.strip_doi_url (Py.strip (V.doi entry)) ≠ [] →
  http_get_json (V.WorksByDoi (V.strip_doi_url (Py.strip (V.doi entry))))
    = V.Failed reason →
  V.status (by_doi entry).2 = V.not_found.
Proof.
  intros Hd Hf. unfold by_doi, V.validate_by_doi.
  destruct (V.strip_doi_url _); [done|]. by rewrite Hf.
Qed.

Lemma validate_by_doi_decoded entry msg :
  V.strip_doi_url (Py.strip (V.doi entry)) ≠ [] →
  http_get_json (V.WorksByDoi (V.strip_doi_url (Py.strip (V.doi entry))))
    = V.Decoded msg →
  (V.title_match_score (V.title entry) (V.first_title (V.titles msg)) < 6 # 10)%Q →
  by_doi entry =
    ([V.WorksByDoi (V.strip_doi_url (Py.strip (V.doi entry)))],
     {| V.status := V.needs_correction;
        V.confidence := Some (round3 (V.title_match_score (V.title entry)
                                        (V.first_title (V.titles msg))));
        V.message := "DOI exists but title mismatch";
        V.remote := Some {| V.remote_doi := V.strip_doi_url (Py.strip (V.doi entry));
                            V.remote_title := V.first_title (V.titles msg) |} |}).
Proof.
  intros Hd Hf Hs. unfold by_doi, V.validate_by_doi.
  destruct (V.strip_doi_url _) eqn:E; [done|]. rewrite Hf.
  destruct (Qle_bool _ _) eqn:Hle; [|done].
  apply Qle_bool_iff in Hle. by apply Qle_not_lt in Hle.
Qed.

Lemma validate_by_title_sent entry :
  Py.strip (V.title entry) ≠ [] →
  (by_title entry).1 = [V.WorksByTitle (V.title entry)].
Proof.
  intros Ht. unfold by_title, V.validate_by_title.
  destruct (Py.strip _); [done|].
  destruct (http_get_json _) as [|msg]; [done|].
  destruct (V.items msg); [done|].
  by destruct (V.best_match _ _) as [[?|] ?].
Qed.

(** C3, amended: for every bibliography entry that has a non-empty
    identifier and a title, if the identifier path reports not_found (the
    lookup has failed), the remote matcher falls back to a title search, and
    the title-search classification replaces the identifier-path
    classification unless the fallback itself reports not_found.  When the
    lookup succeeds there is no fallback: a returned title that scores below
    0.6 against the entry's title classifies the entry as needs_correction,
    and no title search is sent. *)
Theorem doi_fallback (entry : V.BibEntry) :
  V.doi entry ≠ [] → V.title entry ≠ [] →
  let sent_doi := V.WorksByDoi (V.strip_doi_url (Py.strip (V.doi entry))) in
  (∀ reason, V.strip_doi_url (Py.strip (V.doi entry)) ≠ [] →
             http_get_json sent_doi = V.Failed reason →
             V.status (by_doi entry).2 = V.not_found)
  ∧ (V.status (by_doi entry).2 = V.not_found →
       validate entry
       = ((by_doi entry).1 ++ (by_title entry).1,
          if bool_decide (V.status (by_title entry).2 ≠ V.not_found)
          then (by_title entry).2 else (by_doi entry).2))
  ∧ (Py.strip (V.title entry) ≠ [] →
       (by_title entry).1 = [V.WorksByTitle (V.title entry)])
  ∧ (V.status (by_doi entry).2 ≠ V.not_found → validate entry = by_doi entry)
  ∧ (∀ msg, V.strip_doi_url (Py.strip (V.doi entry)) ≠ [] →
            http_get_json sent_doi = V.Decoded msg →
            (V.title_match_score (V.title entry) (V.first_title (V.titles msg))
               < 6 # 10)%Q →
            (validate entry).1 = [sent_doi]
            ∧ V.status (validate entry).2 = V.needs_correction
            ∧ V.message (validate entry).2 = "DOI exists but title mismatch").
Proof.
  intros Hdoi Htitle sent_doi.
  assert (Hstep : ∀ b, bool_decide (V.status (by_doi entry).2 = V.not_found) = b →
            validate entry
            = if b then ((by_doi entry).1 ++ (by_title entry).1,
                         if bool_decide (V.status (by_title entry).2 ≠ V.not_found)
                         then (by_title entry).2 else (by_doi entry).2)
              else by_doi entry).
  { intros b Hb. unfold validate, V.validate_entry.
    rewrite (bool_decide_eq_true_2 _ Hdoi), (bool_decide_eq_true_2 _ Htitle).
    fold by_doi by_title. destruct (by_doi entry) as [sent result].
    simpl in Hb. rewrite Hb. destruct b; [|done].
    simpl. by destruct (by_title entry). }
  split_and!.
  - intros reason. by apply validate_by_doi_failed.
  - intros Hnf. by rewrite (Hstep true) by by apply bool_decide_eq_true_2.
  - apply validate_by_title_sent.
  - intros Hnf. by rewrite (Hstep false) by by apply bool_decide_eq_false_2.
  - intros msg Hd Hf Hs.
    pose proof (validate_by_doi_decoded entry msg Hd Hf Hs) as Heq.
    rewrite (Hstep false); [by rewrite Heq|].
    apply bool_decide_eq_false_2. by rewrite Heq.
Qed.

End Remote.

(** The identifier lookup times out, the title search finds the paper. *)
Lemma doi_fallback_witness :
  V.doi (paper "10.1/x" "Deep Learning") ≠ []
  ∧ V.title (paper "10.1/x" "Deep Learning") ≠ []
  ∧ V.validate_entry failing_doi_service no_rounding (paper "10.1/x" "Deep Learning")
    = ([V.WorksByDoi "10.1/x"; V.WorksByTitle "Deep Learning"],
       {| V.status := V.valid; V.confidence := Some 1%Q;
          V.message := "Title validated against Crossref";
          V.remote := Some {| V.remote_doi := "10.1/x";
                              V.remote_title := "Deep Learning" |} |}).
Proof.
  assert (V.doi (paper "10.1/x" "Deep Learning") ≠ []) as Hd by done.
  assert (V.title (paper "10.1/x" "Deep Learning") ≠ []) as Ht by done.
  split; [exact Hd|]. split; [exact Ht|].
  destruct (doi_fallback failing_doi_service no_rounding
              (paper "10.1/x" "Deep Learning") Hd Ht) as (_ & H & _).
  rewrite H; [|reflexivity]. vm_compute. reflexivity.
Defined.

(** As stated, C3 fails: the identifier resolves to a title that scores 0
    against the entry's, the title search would classify the entry as valid,
    and yet the entry is classified needs_correction by the identifier path,
    with no title search sent. *)
Lemma low_score_no_fallback :
  (V.title_match_score "Deep Learning" "Cooking Pasta" < 6 # 10)%Q
  ∧ V.status (V.validate_by_title mismatching_service no_rounding
                (paper "10.1/x" "Deep Learning")).2 = V.valid
  ∧ (V.validate_entry mismatching_service no_rounding
       (paper "10.1/x" "Deep Learning")).1 = [V.WorksByDoi "10.1/x"]
  ∧ V.status (V.validate_entry mismatching_service no_rounding
                (paper "10.1/x" "Deep Learning")).2 = V.needs_correction.
Proof. split_and!; by vm_compute. Qed.

(** ** Bibliography parsing *)

(** *** The brace-depth scan *)

Lemma brace_scan_app depth s :
  ∀ final scanned rest, V.brace_scan depth s = (final, scanned, rest) →
  s = scanned ++ rest.
Proof.
  revert depth. induction s as [|c s IH]; intros [|d] final scanned rest Heq;
    simpl in Heq; try (by simplify_eq).
  destruct (V.brace_scan _ s) as [[f sc] r] eqn:E. simplify_eq.
  simpl. f_equal. by eapply IH.
Qed.

(** At the end of the input with the depth above 0, the scan has passed
    over all that was left. *)
Lemma brace_scan_unclosed depth s final scanned rest :
  V.brace_scan depth s = (final, scanned, rest) → final ≠ 0 →
  scanned = s ∧ rest = [].
Proof.
  revert depth final scanned rest.
  induction s as [|c s IH]; intros [|d] final scanned rest Heq Hne;
    simpl in Heq; try (by simplify_eq).
  destruct (V.brace_scan _ s) as [[f sc] r] eqn:E. simplify_eq.
  destruct (IH _ _ _ _ E Hne) as [-> ->]. done.
Qed.

Lemma brace_scan_closed depth s final scanned rest :
  V.brace_scan depth s = (final, scanned, rest) → final = 0 → depth ≠ 0 →
  ∃ block, scanned = block ++ ["}"%char].
Proof.
  revert depth final scanned rest.
  induction s as [|c s IH]; intros [|d] final scanned rest Heq Hf Hd;
    simpl in Heq; try (by simplify_eq).
  destruct (V.brace_scan _ s) as [[f sc] r] eqn:E. simplify_eq.
  destruct (decide (c = "{"%char)) as [->|Hc1].
  { destruct (IH _ _ _ _ E eq_refl) as [b ->]; [done|]. by exists ("{"%char :: b). }
  rewrite (eqc_ne c "{") in E by done.
  destruct (decide (c = "}"%char)) as [->|Hc2].
  - rewrite eqc_refl in E. destruct d as [|d].
    + destruct s; simpl in E; simplify_eq; by exists [].
    + destruct (IH _ _ _ _ E eq_refl) as [b ->]; [done|]. by exists ("}"%char :: b).
  - rewrite (eqc_ne c "}") in E by done.
    destruct (IH _ _ _ _ E eq_refl) as [b ->]; [done|]. by exists (c :: b).
Qed.

(** *** Spans *)

Lemma span_app p (l r : text) :
  Forall (λ c, p c = true) l →
  match r with [] => True | c :: _ => p c = false end →
  Py.span p (l ++ r) = (l, r).
Proof.
  intros Hl Hr. induction Hl as [|c l Hc _ IH]; simpl.
  - destruct r as [|c r]; [done|]. simpl. by rewrite Hr.
  - by rewrite Hc, IH.
Qed.

Lemma span_length p (s : text) :
  length (Py.span p s).1 + length (Py.span p s).2 = length s.
Proof.
  induction s as [|c s IH]; simpl; [done|].
  destruct (p c); [|done]. destruct (Py.span p s). simpl in *. lia.
Qed.

(** *** Field values *)

Lemma is_az_not_separator c : Py.is_az c = true → V.is_separator c = false.
Proof. by destruct c as [[] [] [] [] [] [] [] []]. Qed.

Lemma parse_fields_from_done n fields (s : text) :
  length s ≤ n → V.parse_fields_from n fields s = fields.
Proof.
  revert n. induction s as [|c s IH]; intros n Hn; [done|].
  simpl in Hn. destruct n as [|n]; [lia|]. simpl. apply IH. lia.
Qed.

Lemma span_head_false p c (r : text) : p c = false → Py.span p (c :: r) = ([], c :: r).
Proof. intros H. simpl. by rewrite H. Qed.

Lemma parse_field_unclosed c more v final :
  Py.is_az c = true → Forall (λ x, V.is_name_char x = true) more →
  V.brace_scan 1 v = (final, v, []) → final ≠ 0 →
  V.parse_field (c :: more ++ "="%char :: "{"%char :: v)
  = Some (Some (Py.lower (c :: more), Py.join " " (Py.split (Py.strip v))), []).
Proof.
  intros Hc Hmore Hscan Hne. unfold V.parse_field.
  rewrite (is_az_not_separator c Hc). unfold V.match_field_name. rewrite Hc.
  rewrite (span_app _ more ("="%char :: "{"%char :: v)) by done.
  rewrite !span_head_false by done. cbn [snd].
  rewrite !span_head_false by done. cbn [snd].
  unfold V.parse_value. rewrite Hscan. by destruct final.
Qed.

Lemma unclosed_field_value name v final scanned rest :
  field_name name →
  V.brace_scan 1 v = (final, scanned, rest) → final ≠ 0 →
  V.parse_bib_fields (name ++ "={" ++ v)
  = {[ Py.lower name := Py.join " " (Py.split (Py.strip v)) ]}.
Proof.
  intros Hname Hscan Hne.
  destruct (brace_scan_unclosed _ _ _ _ _ Hscan Hne) as [-> ->].
  destruct name as [|c more]; [done|]. destruct Hname as [Hc Hmore].
  unfold V.parse_bib_fields.
  change ((c :: more) ++ "={" ++ v) with (c :: more ++ "="%char :: "{"%char :: v).
  cbn [V.parse_fields_from].
  rewrite (parse_field_unclosed c more v final) by done.
  rewrite parse_fields_from_done by (simpl; lia).
  by rewrite insert_empty.
Qed.

(** *** Records *)

Lemma isspace_not_isword c : Py.isspace c = true → Py.isword c = false.
Proof. by destruct c as [[] [] [] [] [] [] [] []]. Qed.

Lemma match_header_eq ty ws body :
  header ty ws →
  V.match_header ("@"%char :: ty ++ ws ++ "{"%char :: body) = Some (ty, body).
Proof.
  intros (Hne & Hty & Hws). unfold V.match_header.
  rewrite (span_app _ ty (ws ++ "{"%char :: body)); [|done|].
  - destruct ty; [done|].
    by rewrite (span_app _ ws ("{"%char :: body)).
  - destruct Hws as [|c ws Hc _]; [done|]. by apply isspace_not_isword.
Qed.

Lemma parse_entries_from_skip rel (p r : text) nl :
  V.parse_entries_from rel (length p) nl (p ++ r)
  = V.parse_entries_from rel 0 (nl + Py.count "010" p) r.
Proof.
  revert nl. induction p as [|c p IH]; intros nl.
  - simpl. by rewrite Nat.add_0_r.
  - simpl. rewrite IH. f_equal. unfold Py.count. rewrite filter_cons.
    unfold Py.eqc. case_bool_decide; case_decide; simplify_eq; simpl; lia.
Qed.

Lemma parse_entries_from_other rel c (s : text) nl :
  c ≠ "@"%char →
  V.parse_entries_from rel 0 nl (c :: s)
  = V.parse_entries_from rel 0 (nl + Py.count "010" [c]) s.
Proof.
  intros Hc. simpl. rewrite (eqc_ne c "@") by done. f_equal.
  unfold Py.count. rewrite filter_cons.
  unfold Py.eqc. case_bool_decide; case_decide; simplify_eq; simpl; lia.
Qed.

(** A record that is never closed ends the parsing of the file. *)
Lemma unclosed_record_breaks rel nl ty ws body final scanned rest :
  header ty ws →
  V.brace_scan 1 body = (final, scanned, rest) → final ≠ 0 →
  V.parse_entries_from rel 0 nl ("@"%char :: ty ++ ws ++ "{"%char :: body) = [].
Proof.
  intros Hh Hscan Hne. cbn [V.parse_entries_from]. rewrite eqc_refl.
  unfold V.parse_record. rewrite (match_header_eq ty ws body Hh), Hscan.
  by destruct final.
Qed.

(** A record that is closed yields its entry, if its block has a comma, and
    the parsing goes on after its closing brace. *)
Lemma closed_record_continues rel nl ty ws body scanned rest :
  header ty ws →
  V.brace_scan 1 body = (0, scanned, rest) →
  V.parse_entries_from rel 0 nl ("@"%char :: ty ++ ws ++ "{"%char :: body)
  = option_list (V.entry_of_block rel (Py.lower ty) (nl + 1) (V.without_last scanned))
    ++ V.parse_entries_from rel 0
         (nl + Py.count "010" ("@"%char :: ty ++ ws ++ "{"%char :: scanned)) rest.
Proof.
  intros Hh Hscan. pose proof (brace_scan_app _ _ _ _ _ Hscan) as Hbody.
  cbn [V.parse_entries_from]. rewrite eqc_refl.
  unfold V.parse_record. rewrite (match_header_eq ty ws body Hh), Hscan.
  assert (Py.eqc "@" "010" = false) as -> by done.
  assert (∀ o : option V.BibEntry, from_option (λ e, [e]) [] o = option_list o)
    as -> by (by intros [e|]).
  f_equal. rewrite Hbody.
  replace (ty ++ ws ++ "{"%char :: scanned ++ rest)
    with ((ty ++ ws ++ "{"%char :: scanned) ++ rest)
    by (by rewrite <- !app_assoc).
  rewrite length_app, Nat.add_sub, parse_entries_from_skip. done.
Qed.

Lemma unclosed_record_after_text rel nl pre ty ws body final scanned rest :
  "@"%char ∉ pre → header ty ws →
  V.brace_scan 1 body = (final, scanned, rest) → final ≠ 0 →
  V.parse_entries_from rel 0 nl (pre ++ "@"%char :: ty ++ ws ++ "{"%char :: body) = [].
Proof.
  intros Hpre Hh Hscan Hne. revert nl.
  induction pre as [|c pre IH]; intros nl.
  - by eapply unclosed_record_breaks.
  - apply not_elem_of_cons in Hpre as [Hc Hpre].
    simpl app. rewrite parse_entries_from_other by done. by apply IH.
Qed.

(** C2, amended: when the end of the input is reached before the brace
    depth returns to 0, the brace-depth scan has passed over all that was
    left, and the scan of a field value returns that substring rather than
    failing.  A bibliography record whose opening brace is never closed
    yields no entry and ends the parsing of its file: nothing after its
    header is parsed, while a record that is closed yields its entry and the
    parsing goes on after it. *)
Theorem unclosed_braces :
  (∀ depth s final scanned rest,
     V.brace_scan depth s = (final, scanned, rest) → final ≠ 0 →
     scanned = s ∧ rest = [])
  ∧ (∀ name v final scanned rest,
       field_name name →
       V.brace_scan 1 v = (final, scanned, rest) → final ≠ 0 →
       V.parse_bib_fields (name ++ "={" ++ v)
       = {[ Py.lower name := Py.join " " (Py.split (Py.strip v)) ]})
  ∧ (∀ rel nl pre ty ws body final scanned rest,
       "@"%char ∉ pre → header ty ws →
       V.brace_scan 1 body = (final, scanned, rest) → final ≠ 0 →
       V.parse_entries_from rel 0 nl
         (pre ++ "@"%char :: ty ++ ws ++ "{"%char :: body) = [])
  ∧ (∀ rel nl ty ws body scanned rest,
       header ty ws →
       V.brace_scan 1 body = (0, scanned, rest) →
       V.parse_entries_from rel 0 nl ("@"%char :: ty ++ ws ++ "{"%char :: body)
       = option_list (V.entry_of_block rel (Py.lower ty) (nl + 1)
                        (V.without_last scanned))
         ++ V.parse_entries_from rel 0
              (nl + Py.count "010" ("@"%char :: ty ++ ws ++ "{"%char :: scanned))
              rest).
Proof.
  split_and!.
  - apply brace_scan_unclosed.
  - apply unclosed_field_value.
  - apply unclosed_record_after_text.
  - apply closed_record_continues.
Qed.

(** A title whose brace is never closed, and a record that is never closed
    after a comment line. *)
Lemma unclosed_braces_witness :
  V.parse_bib_fields "title={Deep {L}earning, year = 2015"
  = {[ txt "title" := txt "Deep {L}earning, year = 2015" ]}
  ∧ V.parse_entries_from "refs.bib" 0 0 ("% references " ++ "@book{b, title={y}") = [].
Proof.
  destruct unclosed_braces as (_ & Hfield & Hrecord & _). split.
  - apply (Hfield "title" "Deep {L}earning, year = 2015" 1
             "Deep {L}earning, year = 2015" []).
    + vm_compute. repeat constructor.
    + vm_compute. reflexivity.
    + done.
  - apply (Hrecord "refs.bib" 0 "% references " "book" [] "b, title={y}" 1
             "b, title={y}" []).
    + vm_compute. intros H. repeat (apply elem_of_cons in H as [H|H]; [discriminate H|]).
      by apply elem_of_nil in H.
    + vm_compute. split; [done|]. split; repeat constructor.
    + vm_compute. reflexivity.
    + done.
Defined.

(** As stated, C2 fails: the record [a] is never closed; it yields no
    entry, and the record [b] that follows it is not parsed either. *)
Lemma unclosed_record_yields_nothing :
  (V.brace_scan 1 "a, title={x}").1.1 ≠ 0
  ∧ V.parse_bib_entries [(txt "refs.bib", unclosed_bib)] = [].
Proof. split; by vm_compute. Qed.

(** ** The inclusion-tree resolver *)

Import Inclusion.

Section Resolver.

Context {X : Type}.
Variable fs : FileSystem.
Variable project_root : text.
Variable on_line : text → nat → text → option (list X).
Variable universe : gset text.
Hypothesis universe_files : ∀ p, is_file fs p = true → resolve fs p ∈ universe.

Lemma resolve_include_is_file base target p :
  resolve_include fs project_root base target = Some p → is_file fs p = true.
Proof.
  unfold resolve_include. destruct (Py.strip target); [done|].
  repeat case_match; naive_solver.
Qed.

Lemma returns_from_trans (st st' : State X) r :
  visited st ⊆ visited st' → returns_from universe st' r → returns_from universe st r.
Proof. destruct r; simpl; [|done..]. intros ? [? ?]. split; [done|set_solver]. Qed.

Lemma unvisited_mono (st st' : State X) :
  visited st ⊆ visited st' →
  size (universe ∖ visited st') ≤ size (universe ∖ visited st).
Proof. intros H. apply subseteq_size. set_solver. Qed.

Section Loops.

Variable walk_rec : text → State X → outcome (State X).
Variable n : nat.
Hypothesis walk_rec_returns : ∀ p st,
  visits_once universe st → resolve fs p ∈ universe →
  size (universe ∖ visited st) < n →
  returns_from universe st (walk_rec p st).

Lemma walk_targets_returns resolved targets st :
  visits_once universe st → size (universe ∖ visited st) < n →
  returns_from universe st
    (walk_targets fs project_root walk_rec resolved targets st).
Proof.
  revert st. induction targets as [|t targets IH]; intros st Hst Hn; simpl.
  - done.
  - destruct (resolve_include fs project_root resolved t) as [p|] eqn:Hp; [|by apply IH].
    apply resolve_include_is_file, universe_files in Hp.
    pose proof (walk_rec_returns p st Hst Hp Hn) as Hr.
    destruct (walk_rec p st) as [st'| |]; [|done..].
    destruct Hr as [Hst' Hsub].
    eapply returns_from_trans; [exact Hsub|]. apply IH; [done|].
    pose proof (unvisited_mono st st' Hsub). lia.
Qed.

Lemma walk_lines_returns resolved lines line_no st :
  visits_once universe st → size (universe ∖ visited st) < n →
  returns_from universe st
    (walk_lines fs project_root on_line walk_rec resolved lines line_no st).
Proof.
  revert line_no st. induction lines as [|l lines IH]; intros line_no st Hst Hn; simpl.
  - done.
  - destruct (on_line resolved line_no (strip_comment l)) as [found|]; [|done].
    set (st1 := {| visited := visited st; ordered := ordered st;
                   collected := collected st ++ found |}).
    pose proof (walk_targets_returns resolved
                  (include_targets 0 (strip_comment l)) st1 Hst Hn) as Hr.
    destruct (walk_targets _ _ _ _ _ st1) as [st'| |]; [|done..].
    destruct Hr as [Hst' Hsub].
    eapply (returns_from_trans st st'); [exact Hsub|]. apply IH; [done|].
    pose proof (unvisited_mono st1 st' Hsub). simpl in *. lia.
Qed.

End Loops.

Lemma walk_returns depth : ∀ p st,
  visits_once universe st → resolve fs p ∈ universe →
  size (universe ∖ visited st) < depth →
  returns_from universe st (walk fs project_root on_line depth p st).
Proof.
  induction depth as [|depth IH]; intros p st Hst Hp Hn; [lia|].
  simpl. case_decide as Hv; [done|].
  destruct Hst as (Hnd & Hiff & Hsub).
  set (st1 := {| visited := {[resolve fs p]} ∪ visited st;
                 ordered := ordered st ++ [resolve fs p];
                 collected := collected st |}).
  assert (visits_once universe st1) as Hst1.
  { split_and!; simpl.
    - apply NoDup_app. split_and!; [done| |apply NoDup_singleton].
      intros q Hq ->%list_elem_of_singleton. by apply Hv, Hiff.
    - intros q. rewrite elem_of_app, list_elem_of_singleton, Hiff. set_solver.
    - set_solver. }
  assert (size (universe ∖ visited st1) < depth) as Hn1.
  { assert (universe ∖ visited st1 ⊂ universe ∖ visited st) as Hlt
      by (simpl; set_solver).
    apply subset_size in Hlt. lia. }
  assert (visited st ⊆ visited st1) as Hsub1 by (simpl; set_solver).
  destruct (read_text fs (resolve fs p)) as [content|]; [|done].
  eapply returns_from_trans; [exact Hsub1|].
  by apply (walk_lines_returns (walk fs project_root on_line depth) depth IH).
Qed.

(** *** More depth changes nothing *)

Section Deeper.

Variables walk_f walk_g : text → State X → outcome (State X).
Hypothesis deeper : ∀ p st, walk_f p st ≠ OutOfFuel → walk_g p st = walk_f p st.

Lemma walk_targets_deeper resolved targets st :
  walk_targets fs project_root walk_f resolved targets st ≠ OutOfFuel →
  walk_targets fs project_root walk_g resolved targets st
  = walk_targets fs project_root walk_f resolved targets st.
Proof.
  revert st. induction targets as [|t targets IH]; intros st H; simpl in *; [done|].
  destruct (resolve_include fs project_root resolved t) as [p|]; [|by apply IH].
  destruct (walk_f p st) as [st'| |] eqn:Hf; [| |done].
  - rewrite deeper, Hf by (by rewrite Hf). by apply IH.
  - by rewrite deeper, Hf by (by rewrite Hf).
Qed.

Lemma walk_lines_deeper resolved lines line_no st :
  walk_lines fs project_root on_line walk_f resolved lines line_no st ≠ OutOfFuel →
  walk_lines fs project_root on_line walk_g resolved lines line_no st
  = walk_lines fs project_root on_line walk_f resolved lines line_no st.
Proof.
  revert line_no st. induction lines as [|l lines IH]; intros line_no st H;
    simpl in *; [done|].
  destruct (on_line resolved line_no (strip_comment l)) as [found|]; [|done].
  destruct (walk_targets fs project_root walk_f _ _ _) as [st'| |] eqn:Hf; [| |done].
  - rewrite walk_targets_deeper, Hf by (by rewrite Hf). by apply IH.
  - by rewrite walk_targets_deeper, Hf by (by rewrite Hf).
Qed.

End Deeper.

Lemma walk_deeper_step depth : ∀ p st,
  walk fs project_root on_line depth p st ≠ OutOfFuel →
  walk fs project_root on_line (S depth) p st = walk fs project_root on_line depth p st.
Proof.
  induction depth as [|depth IH]; intros p st H; [done|].
  cbn [walk] in H |- *. case_decide; [done|].
  destruct (read_text fs (resolve fs p)); [|done].
  by apply walk_lines_deeper.
Qed.

Lemma walk_deeper depth depth' p st :
  depth ≤ depth' →
  walk fs project_root on_line depth p st ≠ OutOfFuel →
  walk fs project_root on_line depth' p st = walk fs project_root on_line depth p st.
Proof.
  induction 1 as [|depth' _ IH]; intros H; [done|].
  rewrite walk_deeper_step; rewrite IH; done.
Qed.

(** *** A traversal that collects nothing raises nothing *)

Hypothesis on_line_total : ∀ resolved line_no code, is_Some (on_line resolved line_no code).

Lemma walk_targets_no_raise (walk_rec : text → State X → outcome (State X))
    resolved targets st :
  (∀ p st', walk_rec p st' ≠ Raised) →
  walk_targets fs project_root walk_rec resolved targets st ≠ Raised.
Proof.
  intros Hrec. revert st. induction targets as [|t targets IH]; intros st; simpl; [done|].
  destruct (resolve_include fs project_root resolved t) as [p|]; [|done].
  pose proof (Hrec p st). by destruct (walk_rec p st).
Qed.

Lemma walk_lines_no_raise (walk_rec : text → State X → outcome (State X))
    resolved lines line_no st :
  (∀ p st', walk_rec p st' ≠ Raised) →
  walk_lines fs project_root on_line walk_rec resolved lines line_no st ≠ Raised.
Proof.
  intros Hrec. revert line_no st.
  induction lines as [|l lines IH]; intros line_no st; simpl; [done|].
  destruct (on_line_total resolved line_no (strip_comment l)) as [found ->].
  pose proof (walk_targets_no_raise walk_rec resolved
                (include_targets 0 (strip_comment l))
                {| visited := visited st; ordered := ordered st;
                   collected := collected st ++ found |} Hrec).
  by destruct (walk_targets _ _ _ _ _ _).
Qed.

Lemma walk_no_raise depth : ∀ p st,
  walk fs project_root on_line depth p st ≠ Raised.
Proof.
  induction depth as [|depth IH]; intros p st; simpl; [done|].
  case_decide; [done|]. destruct (read_text fs (resolve fs p)); [|done].
  by apply walk_lines_no_raise.
Qed.

End Resolver.

Lemma visits_once_start {X : Type} universe : visits_once universe (@start X).
Proof.
  split_and!; simpl; [constructor| |set_solver].
  intros p. split; [by intros ?%elem_of_nil|set_solver].
Qed.

(** C7: for every inclusion graph over a finite set of files, the
    traversal from the entry file returns once it is given a recursion depth
    above the number of files, whatever more it is given; it visits each
    resolved file at most once.  [_collect_main_tex_tree] returns the list
    of the visits, without repetition; [_extract_sections] returns or raises
    the [ValueError] of a file outside the root. *)
Theorem inclusion_walk_terminates
    (fs : FileSystem) (project_root main_tex : text) (files : gset text)
    (depth : nat) :
  (∀ p, is_file fs p = true → resolve fs p ∈ files) →
  size (files ∪ {[resolve fs main_tex]}) < depth →
  (∃ ordered_files,
     T.collect_main_tex_tree fs depth main_tex project_root = Done ordered_files
     ∧ NoDup ordered_files
     ∧ ∀ depth', depth ≤ depth' →
         T.collect_main_tex_tree fs depth' main_tex project_root = Done ordered_files)
  ∧ P.extract_sections fs depth main_tex project_root ≠ OutOfFuel
  ∧ ∀ (X : Type) (on_line : text → nat → text → option (list X)),
      match walk fs project_root on_line depth main_tex start with
      | Done st => NoDup (ordered st) ∧ ∀ p, p ∈ ordered st ↔ p ∈ visited st
      | Raised => True
      | OutOfFuel => False
      end.
Proof.
  intros Hfiles Hdepth.
  set (universe := files ∪ {[resolve fs main_tex]}) in *.
  assert (Hu : ∀ p, is_file fs p = true → resolve fs p ∈ universe)
    by (intros p Hp; apply elem_of_union_l; auto).
  assert (Hwalk : ∀ (X : Type) (on_line : text → nat → text → option (list X)),
            returns_from universe start
              (walk fs project_root on_line depth main_tex start)).
  { intros X on_line. apply walk_returns; [done|apply visits_once_start| |].
    - apply elem_of_union_r. set_solver.
    - simpl. by rewrite difference_empty_L. }
  split_and!.
  - unfold T.collect_main_tex_tree.
    pose proof (Hwalk Empty_set (λ _ _ _, Some [])) as Hr.
    pose proof (walk_no_raise fs project_root (λ _ _ _, Some [])
                  (X := Empty_set) (λ _ _ _, ltac:(eauto)) depth main_tex start) as Hnr.
    destruct (walk fs project_root _ depth main_tex start) as [st| |] eqn:Hw; [|done..].
    exists (ordered st). split; [done|]. split; [apply Hr|].
    intros depth' Hle. rewrite walk_deeper with (depth := depth), Hw; [done..|].
    by rewrite Hw.
  - unfold P.extract_sections.
    pose proof (Hwalk _ (P.sections_of_line fs project_root)) as Hr.
    by destruct (walk fs project_root _ depth main_tex start).
  - intros X on_line. pose proof (Hwalk X on_line) as Hr.
    destruct (walk fs project_root on_line depth main_tex start); [|done..].
    destruct Hr as [(? & ? & _) _]. done.
Qed.

Lemma two_files_universe p :
  is_file two_files p = true
  → resolve two_files p ∈ ({[ txt "/p/a.tex"; txt "/p/b.tex" ]} : gset text).
Proof.
  simpl. intros [H|H]%orb_true_iff; apply bool_decide_eq_true in H as ->; set_solver.
Defined.

(** Two files that include each other: each is visited once. *)
Lemma inclusion_walk_terminates_witness :
  size (({[ txt "/p/a.tex"; txt "/p/b.tex" ]} : gset text)
          ∪ {[resolve two_files "/p/a.tex"]}) < 3
  ∧ ∃ ordered_files,
      T.collect_main_tex_tree two_files 3 "/p/a.tex" "/p" = Done ordered_files
      ∧ NoDup ordered_files.
Proof.
  assert (size (({[ txt "/p/a.tex"; txt "/p/b.tex" ]} : gset text)
                  ∪ {[resolve two_files "/p/a.tex"]}) < 3) as Hsize
    by (vm_compute; lia).
  split; [exact Hsize|].
  destruct (inclusion_walk_terminates two_files "/p" "/p/a.tex" _ 3
              two_files_universe Hsize) as [(ordered_files & Heq & Hnd & _) _].
  by exists ordered_files.
Defined.

Lemma mutual_inclusion_visits :
  T.collect_main_tex_tree two_files 3 "/p/a.tex" "/p"
  = Done [txt "/p/a.tex"; txt "/p/b.tex"].
Proof. vm_compute. reflexivity. Qed.

(** ** Figures *)

(** ** Prefixes and substrings *)

Lemma eqc_true a b : Py.eqc a b = true ↔ a = b.
Proof. unfold Py.eqc. apply bool_decide_eq_true. Qed.

Lemma strip_prefix_Some p s rest :
  Py.strip_prefix p s = Some rest ↔ s = p ++ rest.
Proof.
  revert s. induction p as [|a p IH]; intros s; simpl.
  - naive_solver.
  - destruct s as [|b s]; [naive_solver|].
    destruct (Py.eqc a b) eqn:E.
    + apply eqc_true in E as ->. rewrite IH. naive_solver.
    + split; [done|]. intros [= -> ->]. by rewrite eqc_refl in E.
Qed.

Lemma startswith_true p s :
  Py.startswith p s = true ↔ ∃ rest, s = p ++ rest.
Proof.
  revert s. induction p as [|a p IH]; intros s; simpl.
  - naive_solver.
  - destruct s as [|b s]; [naive_solver|].
    rewrite andb_true_iff, eqc_true, IH. naive_solver.
Qed.

Lemma contains_true sub s :
  Py.contains sub s = true ↔ ∃ pre post, s = pre ++ sub ++ post.
Proof.
  induction s as [|c s IH]; simpl.
  - rewrite orb_false_r, startswith_true. split.
    + intros [rest ->]. by exists [], rest.
    + intros (pre & post & H). destruct pre; [by exists post|done].
  - rewrite orb_true_iff, startswith_true, IH. split.
    + intros [[rest ->]|(pre & post & ->)]; [by exists [], rest|by exists (c :: pre), post].
    + intros ([|c' pre] & post & H); [left; by exists post|].
      right. simplify_eq/=. by exists pre, post.
Qed.

Lemma contains_false_tail sub c s :
  Py.contains sub (c :: s) = false → Py.contains sub s = false.
Proof. simpl. by intros [_ ?]%orb_false_iff. Qed.

(** A pattern that begins with the literal [p] is found in no text that
    does not contain [p]. *)
Lemma search_None {A} (m : text → option A) p s :
  (∀ t, is_Some (m t) → Py.startswith p t = true) →
  Py.contains p s = false → Py.search m s = None.
Proof.
  intros Hm. induction s as [|c s IH]; intros Hc; simpl in *.
  - destruct (m []) eqn:E; [|done].
    rewrite Hm in Hc by by rewrite E. done.
  - destruct (m (c :: s)) eqn:E.
    + rewrite Hm in Hc by by rewrite E. done.
    + apply IH. by apply orb_false_iff in Hc as [_ ?].
Qed.

Lemma match_label_prefix t :
  is_Some (T.match_label t) → Py.startswith "\label{" t = true.
Proof.
  unfold T.match_label. intros [x H].
  destruct (Py.strip_prefix "\label{" t) as [after|] eqn:E; [|done].
  apply strip_prefix_Some in E. apply startswith_true. eauto.
Qed.

Lemma match_caption_prefix t :
  is_Some (T.match_caption t) → Py.startswith "\caption" t = true.
Proof.
  unfold T.match_caption. intros [x H].
  destruct (Py.strip_prefix "\caption" t) as [after|] eqn:E; [|done].
  apply strip_prefix_Some in E. apply startswith_true. eauto.
Qed.

(** A block without a label command and without a caption command gives an
    environment without label and without caption. *)
Lemma env_of_block_bare rel line_no block :
  Py.contains "\label{" block = false → Py.contains "\caption" block = false →
  T.e_label (T.env_of_block rel line_no block) = []
  ∧ T.e_caption (T.env_of_block rel line_no block) = [].
Proof.
  intros Hl Hc. simpl.
  rewrite (search_None T.match_label "\label{" block match_label_prefix Hl).
  by rewrite (search_None T.match_caption "\caption" block match_caption_prefix Hc).
Qed.

(** ** The environments found *)

Lemma match_marker_Some keyword env_name s rest :
  T.match_marker keyword env_name s = Some rest →
  ∃ closing, s = ("\" ++ keyword ++ "{" ++ env_name) ++ closing ++ rest.
Proof.
  unfold T.match_marker.
  destruct (Py.strip_prefix _ s) as [after|] eqn:E; [|done].
  apply strip_prefix_Some in E. revert E.
  generalize ("\" ++ keyword ++ "{" ++ env_name). intros p ->. simpl.
  repeat case_match; intros; simplify_eq;
    first [by exists ["}"%char] | by exists ["*"%char; "}"%char]].
Qed.

Lemma after_end_suffix env_name s rest :
  T.after_end env_name s = Some rest → ∃ body, s = body ++ rest.
Proof.
  assert (Hhere : ∀ t, T.match_marker "end" env_name t = Some rest →
                       ∃ body, t = body ++ rest).
  { intros t [closing E]%match_marker_Some. eexists. by rewrite E, app_assoc. }
  induction s as [|c s IH]; cbn [T.after_end].
  - destruct (T.match_marker "end" env_name []) eqn:E; [|done].
    intros [= <-]. by apply Hhere.
  - destruct (T.match_marker "end" env_name (c :: s)) eqn:E.
    + intros [= <-]. by apply Hhere.
    + intros [body ->]%IH. by exists (c :: body).
Qed.

Lemma match_env_split env_name s block rest :
  T.match_env env_name s = Some (block, rest) →
  s = block ++ rest ∧ Py.startswith ("\begin{" ++ env_name) block = true.
Proof.
  unfold T.match_env.
  destruct (T.match_marker "begin" env_name s) as [body|] eqn:Hb; [|done].
  simpl. destruct (T.after_end env_name body) as [rest'|] eqn:He; [|done].
  simpl. intros [= <- <-].
  destruct (match_marker_Some _ _ _ _ Hb) as [closing Hs].
  destruct (after_end_suffix _ _ _ He) as [inner ->].
  assert (s = (("\begin{" ++ env_name) ++ closing ++ inner) ++ rest') as Hs'.
  { rewrite Hs. by rewrite <- !app_assoc. }
  clear Hb He Hs. subst s. rewrite length_app, Nat.add_sub, take_app_length.
  split; [done|]. apply startswith_true. by eexists.
Qed.

Lemma count_app c (a b : text) : Py.count c (a ++ b) = Py.count c a + Py.count c b.
Proof. unfold Py.count. by rewrite filter_app, length_app. Qed.

Lemma count_cons c x (s : text) :
  Py.count c (x :: s) = (if Py.eqc x c then 1 else 0) + Py.count c s.
Proof.
  unfold Py.count, Py.eqc. rewrite filter_cons.
  case_decide; case_bool_decide; simplify_eq; done.
Qed.

Lemma envs_from_found rel env_name s : ∀ skip pre env,
  env ∈ T.envs_from rel env_name skip (Py.count "010" pre) s →
  found_in env_name rel pre s env.
Proof.
  induction s as [|c s IH]; intros skip pre env Hin; simpl in Hin.
  { by apply elem_of_nil in Hin. }
  assert (Hnl : (if Py.eqc c "010" then S (Py.count "010" pre) else Py.count "010" pre)
                = Py.count "010" (pre ++ [c])).
  { rewrite count_app, count_cons.
    change (Py.count "010" []) with 0.
    destruct (Py.eqc c "010"); lia. }
  rewrite Hnl in Hin.
  assert (Hshift : ∀ k, env ∈ T.envs_from rel env_name k (Py.count "010" (pre ++ [c])) s →
                        found_in env_name rel pre (c :: s) env).
  { intros k (before & block & after & -> & Hm & ->)%IH.
    exists (c :: before), block, after. split; [done|]. split; [done|].
    by rewrite <- app_assoc. }
  destruct skip as [|k]; [|by eapply Hshift].
  destruct (T.match_env env_name (c :: s)) as [[block rest]|] eqn:Hm; [|by eapply Hshift].
  apply elem_of_cons in Hin as [->|Hin]; [|by eapply Hshift].
  destruct (match_env_split _ _ _ _ Hm) as [Hs _].
  exists [], block, rest. rewrite app_nil_r. split; [done|]. split; [by rewrite <- Hs|done].
Qed.

Lemma elem_of_concat {A} (x : A) (ls : list (list A)) :
  x ∈ concat ls ↔ ∃ l, l ∈ ls ∧ x ∈ l.
Proof.
  rewrite list_elem_of_In, in_concat. setoid_rewrite list_elem_of_In. done.
Qed.

Lemma extract_envs_found tex_files env_name env :
  env ∈ T.extract_envs tex_files env_name →
  ∃ rel content, (rel, content) ∈ tex_files ∧ found_in env_name rel [] content env.
Proof.
  unfold T.extract_envs. intros (l & Hl & Henv)%elem_of_concat.
  apply list_elem_of_fmap in Hl as ([rel content] & -> & Hin).
  exists rel, content. split; [done|]. by apply (envs_from_found rel env_name content 0 []).
Qed.

Lemma layout_issues_nil fig :
  T.layout_issues fig = []
  ↔ (∀ w, Py.search T.match_width (T.e_content fig) = Some w → T.above_one w = false)
    ∧ Py.search T.match_negative_hspace (T.e_content fig) = None.
Proof.
  unfold T.layout_issues.
  destruct (Py.search T.match_width _) as [w|];
    destruct (Py.search T.match_negative_hspace _) as [u|];
    try destruct (T.above_one w) eqn:Hw; simpl; split;
    try done; try (by intros [??]); try (by intros _; split; [intros ? [= <-]|]).
  all: intros [H _]; specialize (H w eq_refl); congruence.
Qed.

(** C8, amended: a figure environment that contains neither a label command
    nor a caption command yields the issues missing_label, with severity
    error, and missing_caption, with severity warning, both with the file
    and the 1-based line number of the environment's opening line.  They are
    its only issues unless its content meets a layout heuristic (a width
    above 1.0 of the column or text width, a negative horizontal space),
    each of which adds a warning. *)
Theorem bare_figure_issues (tex_files : list (text * text)) (refs : list Ref)
    (fig : T.Env) :
  fig ∈ T.extract_envs tex_files "figure" →
  (∃ rel content before after,
     (rel, content) ∈ tex_files
     ∧ content = before ++ T.e_content fig ++ after
     ∧ Py.startswith "\begin{figure" (T.e_content fig) = true
     ∧ T.e_file fig = rel
     ∧ T.e_line fig = Py.count "010" before + 1)
  ∧ (Py.contains "\label{" (T.e_content fig) = false →
     Py.contains "\caption" (T.e_content fig) = false →
     T.figure_issues (key_set r_key refs) fig
     = missing_label_at (T.e_file fig) (T.e_line fig)
       :: missing_caption_at (T.e_file fig) (T.e_line fig)
       :: T.layout_issues fig
     ∧ (T.layout_issues fig = []
        ↔ (∀ w, Py.search T.match_width (T.e_content fig) = Some w →
                T.above_one w = false)
          ∧ Py.search T.match_negative_hspace (T.e_content fig) = None)).
Proof.
  intros (rel & content & Hin & before & block & after & Hcontent & Hm & ->)%extract_envs_found.
  split.
  - exists rel, content, before, after. simpl.
    destruct (match_env_split _ _ _ _ Hm) as [_ Hstart]. done.
  - simpl T.e_content. intros Hl Hc. split; [|apply layout_issues_nil].
    destruct (env_of_block_bare rel (Py.count "010" ([] ++ before) + 1) block Hl Hc)
      as [Hlabel Hcaption].
    unfold T.figure_issues, T.label_issues, T.figure_caption_issues, T.located.
    rewrite Hlabel, Hcaption. done.
Qed.

(** A figure of width 0.8 without label and caption: two issues, on
    line 2. *)
Lemma bare_figure_issues_witness :
  T.env_of_block "main.tex" 2
    ("\begin{figure}" ++ newline ++ "\includegraphics[width=0.8\columnwidth]{plot}"
     ++ newline ++ "\end{figure}")
    ∈ T.extract_envs [(txt "main.tex", bare_figure)] "figure"
  ∧ T.figure_issues (key_set r_key [])
      (T.env_of_block "main.tex" 2
         ("\begin{figure}" ++ newline ++ "\includegraphics[width=0.8\columnwidth]{plot}"
          ++ newline ++ "\end{figure}"))
    = [missing_label_at "main.tex" 2; missing_caption_at "main.tex" 2].
Proof.
  assert (T.env_of_block "main.tex" 2
            ("\begin{figure}" ++ newline
             ++ "\includegraphics[width=0.8\columnwidth]{plot}"
             ++ newline ++ "\end{figure}")
          ∈ T.extract_envs [(txt "main.tex", bare_figure)] "figure") as Hin
    by (vm_compute; left).
  split; [exact Hin|].
  destruct (bare_figure_issues _ [] _ Hin) as [_ H].
  destruct H as [-> _]; [reflexivity..|]. reflexivity.
Defined.

(** As stated, C8 fails: a figure without label and caption that holds a
    negative horizontal space yields three issues. *)
Lemma squeezed_figure_three_issues :
  Py.contains "\label" squeezed_figure = false
  ∧ Py.contains "\caption" squeezed_figure = false
  ∧ T.issues (T.verify_figures [(txt "main.tex", squeezed_figure)] [])
    = [missing_label_at "main.tex" 2; missing_caption_at "main.tex" 2;
       [("type", VStr "negative_hspace"); ("severity", VStr "warning");
        ("file", VStr "main.tex"); ("line", VInt 2); ("label", VNone)]].
Proof. split_and!; by vm_compute. Qed.

(** ** Sections *)

Lemma find_section_first sections section_name m :
  first_matching sections section_name m →
  T.find_section sections section_name = Some m.
Proof.
  intros (i & Hi & Hm & Hmin). unfold T.find_section.
  assert (list_find (λ s, Py.contains (Py.lower section_name) (Py.lower (T.name s)) = true)
            sections = Some (i, m)) as ->; [|done].
  apply list_find_Some. split_and!; [done|by apply contains_true|].
  intros j s Hs Hj Hc. apply (Hmin j s Hj Hs). by apply contains_true.
Qed.

Lemma find_section_none sections section_name :
  (∀ s, s ∈ sections → ¬ name_matches section_name s) →
  T.find_section sections section_name = None.
Proof.
  intros Hnone. unfold T.find_section.
  assert (list_find (λ s, Py.contains (Py.lower section_name) (Py.lower (T.name s)) = true)
            sections = None) as ->; [|done].
  apply list_find_None, Forall_forall. intros s Hs Hc.
  apply (Hnone s Hs). by apply contains_true.
Qed.

(** C9: when a section is targeted by name, the section checked is the
    first extracted section whose name contains the requested name, case
    apart; when no section name matches, the result holds exactly one
    section_not_found issue, with severity error, no entity, and the names
    of all the sections. *)
Theorem section_targeting (tex_files : list (text * text)) (section_name : text)
    (min_words : Z) :
  let sections := T.extract_sections tex_files in
  let verdict := T.verify_section tex_files section_name min_words in
  (∀ m, first_matching sections section_name m →
        T.entities verdict = [T.section_entity m]
        ∧ T.issues verdict = T.section_issues m min_words
        ∧ T.available_sections verdict = None)
  ∧ ((∀ s, s ∈ sections → ¬ name_matches section_name s) →
       T.entities verdict = []
       ∧ T.issues verdict
         = [[("type", VStr "section_not_found"); ("severity", VStr "error");
             ("section", VStr section_name)]]
       ∧ T.available_sections verdict = Some (T.name <$> sections)).
Proof.
  intros sections verdict. subst verdict. unfold T.verify_section. fold sections.
  split.
  - intros m Hm. by rewrite (find_section_first _ _ _ Hm).
  - intros Hnone. by rewrite (find_section_none _ _ Hnone).
Qed.

(** The request [INTRO] finds the introduction; the request [method] finds
    nothing and is answered with the two section names. *)
Lemma section_targeting_witness :
  first_matching (T.extract_sections [(txt "main.tex", paper_body)]) "INTRO" introduction
  ∧ T.entities (T.verify_section [(txt "main.tex", paper_body)] "INTRO" 120)
    = [T.section_entity introduction]
  ∧ (∀ s, s ∈ T.extract_sections [(txt "main.tex", paper_body)] →
          ¬ name_matches "method" s)
  ∧ T.available_sections (T.verify_section [(txt "main.tex", paper_body)] "method" 120)
    = Some [txt "Introduction"; txt "Related Work"].
Proof.
  assert (first_matching (T.extract_sections [(txt "main.tex", paper_body)])
            "INTRO" introduction) as Hfirst.
  { exists 0. split_and!.
    - vm_compute. reflexivity.
    - by exists [], (txt "duction").
    - intros j s Hj. lia. }
  assert (∀ s, s ∈ T.extract_sections [(txt "main.tex", paper_body)] →
               ¬ name_matches "method" s) as Hnone.
  { intros s Hs Hm. apply contains_true in Hm.
    vm_compute in Hs.
    apply elem_of_cons in Hs as [->|Hs]; [by vm_compute in Hm|].
    apply elem_of_cons in Hs as [->|Hs]; [by vm_compute in Hm|].
    by apply elem_of_nil in Hs. }
  destruct (section_targeting [(txt "main.tex", paper_body)] "INTRO" 120) as [Hfound _].
  destruct (section_targeting [(txt "main.tex", paper_body)] "method" 120) as [_ Hmissing].
  split; [exact Hfirst|]. split; [exact (proj1 (Hfound _ Hfirst))|].
  split; [exact Hnone|].
  destruct (Hmissing Hnone) as (_ & _ & ->). vm_compute. reflexivity.
Defined.

(** * More properties of the scripts *)

Import Extraction.

(** ** String primitives, continued *)

Lemma span_spec p (s : text) :
  s = (Py.span p s).1 ++ (Py.span p s).2
  ∧ Forall (λ c, p c = true) (Py.span p s).1
  ∧ match (Py.span p s).2 with [] => True | c :: _ => p c = false end.
Proof.
  induction s as [|c s (IH1 & IH2 & IH3)]; simpl; [done|].
  destruct (p c) eqn:E; [|done].
  destruct (Py.span p s) as [run rest]. simpl in *. split_and!; [congruence|by constructor|done].
Qed.

Lemma split_at_first_Some c (s before after : text) :
  Py.split_at_first c s = Some (before, after) ↔ s = before ++ c :: after ∧ (c ∉ before).
Proof.
  revert before after. induction s as [|x s IH]; intros before after; simpl.
  - split; [done|]. intros [H _]. by destruct before.
  - destruct (Py.eqc x c) eqn:E.
    + apply eqc_true in E as ->. split.
      * intros [= <- <-]. split; [done|]. apply not_elem_of_nil.
      * intros [H Hn]. destruct before as [|b before]; [by simplify_eq/=|].
        simplify_eq/=. exfalso. apply Hn. left.
    + assert (x ≠ c) as Hne by (intros ->; by rewrite eqc_refl in E).
      split.
      * destruct (Py.split_at_first c s) as [[b a]|]; [|done]. simpl.
        intros [= <- <-]. destruct (IH b a) as [[-> Hn] _]; [done|].
        split; [done|]. by rewrite not_elem_of_cons.
      * intros [H Hn]. destruct before as [|b' before]; [by simplify_eq/=|].
        simplify_eq/=. apply not_elem_of_cons in Hn as [_ Hn].
        destruct (IH before after) as [_ ->]; done.
Qed.

Lemma lstrip_spec (s : text) :
  ∃ blank, s = blank ++ Py.lstrip s ∧ Forall (λ c, Py.isspace c = true) blank
    ∧ match Py.lstrip s with [] => True | c :: _ => Py.isspace c = false end.
Proof.
  induction s as [|c s (blank & IH1 & IH2 & IH3)]; simpl.
  - by exists [].
  - destruct (Py.isspace c) eqn:E.
    + exists (c :: blank). split_and!; [simpl; congruence|by constructor|done].
    + by exists [].
Qed.

Lemma rstrip_spec (s : text) :
  ∃ blank, s = Py.rstrip s ++ blank ∧ Forall (λ c, Py.isspace c = true) blank
    ∧ match last (Py.rstrip s) with None => True | Some c => Py.isspace c = false end.
Proof.
  unfold Py.rstrip. destruct (lstrip_spec (rev s)) as (blank & H1 & H2 & H3).
  exists (rev blank). split_and!.
  - rewrite <- rev_app_distr, <- H1. by rewrite rev_involutive.
  - by apply Forall_rev.
  - destruct (Py.lstrip (rev s)) as [|c t]; [done|].
    simpl. by rewrite last_snoc.
Qed.

Lemma strip_spec (s : text) :
  ∃ l r, s = l ++ Py.strip s ++ r
    ∧ Forall (λ c, Py.isspace c = true) l ∧ Forall (λ c, Py.isspace c = true) r
    ∧ trimmed (Py.strip s).
Proof.
  unfold Py.strip.
  destruct (lstrip_spec s) as (l & H1 & H2 & H3).
  destruct (rstrip_spec (Py.lstrip s)) as (r & H4 & H5 & H6).
  exists l, r. split_and!; [congruence|done|done|]. split; [|done].
  destruct (Py.rstrip (Py.lstrip s)) as [|c t] eqn:E; [done|].
  rewrite H4 in H3. done.
Qed.

Lemma lstrip_head (s : text) :
  match s with [] => True | c :: _ => Py.isspace c = false end → Py.lstrip s = s.
Proof. destruct s as [|c s]; simpl; [done|]. by intros ->. Qed.

Lemma strip_trimmed (t : text) : trimmed t → Py.strip t = t.
Proof.
  intros [H1 H2]. unfold Py.strip, Py.rstrip. rewrite (lstrip_head t H1).
  rewrite lstrip_head; [apply rev_involutive|].
  destruct t as [|c t] using rev_ind; [done|].
  rewrite rev_app_distr. simpl. by rewrite last_snoc in H2.
Qed.

Lemma strip_idemp (s : text) : Py.strip (Py.strip s) = Py.strip s.
Proof. destruct (strip_spec s) as (? & ? & _ & _ & _ & ?). by apply strip_trimmed. Qed.

Lemma elem_of_strip c (s : text) : c ∈ Py.strip s → c ∈ s.
Proof.
  destruct (strip_spec s) as (l & r & H & _). intros Hc.
  rewrite H. rewrite !elem_of_app. auto.
Qed.

Lemma split_on_spec c (s : text) piece :
  piece ∈ split_on c s → (c ∉ piece) ∧ (∀ x, x ∈ piece → x ∈ s).
Proof.
  revert piece. induction s as [|x s IH]; intros piece; simpl.
  - intros ->%list_elem_of_singleton. split; [apply not_elem_of_nil|done].
  - destruct (Py.eqc x c) eqn:E.
    + intros [->|H]%elem_of_cons.
      * split; [apply not_elem_of_nil|]. by intros ? ?%elem_of_nil.
      * destruct (IH _ H) as [? Hs]. split; [done|]. intros y Hy. right. auto.
    + assert (x ≠ c) as Hne by (intros ->; by rewrite eqc_refl in E).
      destruct (split_on c s) as [|p ps] eqn:Es.
      * intros ->%list_elem_of_singleton. split.
        -- rewrite not_elem_of_cons. split; [done|apply not_elem_of_nil].
        -- intros y ->%list_elem_of_singleton. left.
      * intros [->|H]%elem_of_cons.
        -- destruct (IH p) as [Hn Hs]; [left|]. split.
           ++ rewrite not_elem_of_cons. done.
           ++ intros y [->|Hy]%elem_of_cons; [left|right; auto].
        -- destruct (IH piece) as [Hn Hs]; [by right|]. split; [done|].
           intros y Hy. right. auto.
Qed.

Lemma listed_keys_spec group k :
  k ∈ listed_keys group →
  k ≠ [] ∧ Py.strip k = k ∧ (","%char ∉ k) ∧ (∀ x, x ∈ k → x ∈ group).
Proof.
  unfold listed_keys. rewrite list_elem_of_filter, list_elem_of_fmap.
  intros [Hne (piece & -> & Hp)]. apply split_on_spec in Hp as [Hn Hs].
  split_and!; [done|apply strip_idemp| |].
  - intros H%elem_of_strip. done.
  - intros x H%elem_of_strip. auto.
Qed.

Lemma elem_of_per_line {A} (found : nat → text → list A) content (x : A) :
  x ∈ per_line found content
  ↔ ∃ i line, Py.splitlines content !! i = Some line ∧ x ∈ found (S i) line.
Proof.
  unfold per_line. rewrite elem_of_concat. split.
  - intros (l & (i & line & -> & Hi)%elem_of_lookup_imap & Hx). eauto.
  - intros (i & line & Hi & Hx). eexists. split; [|done].
    apply elem_of_lookup_imap. eauto.
Qed.

Lemma match_cite_Some t command keys rest :
  match_cite t = Some (command, keys, rest) →
  t = "\" ++ command ++ "{" ++ keys ++ "}" ++ rest
  ∧ Py.contains "cite" command = true
  ∧ Forall (λ x, is_command_char x = true) command
  ∧ keys ≠ [] ∧ ("}"%char ∉ keys).
Proof.
  unfold match_cite. destruct t as [|c s1]; [done|].
  destruct (decide (c = "\"%char)) as [->|Hc];
    [|destruct c as [[] [] [] [] [] [] [] []]; simpl; done].
  destruct (span_spec Py.is_az s1) as (H1 & H2 & _).
  destruct (Py.span Py.is_az s1) as [letters s2]. cbn [fst snd] in *.
  destruct (span_spec is_command_char s2) as (H3 & H4 & _).
  destruct (Py.span is_command_char s2) as [more s3]. cbn [fst snd] in *.
  destruct (Py.contains "cite" letters) eqn:Hcite; [|done].
  destruct s3 as [|b r]; [done|].
  destruct (decide (b = "{"%char)) as [->|Hb];
    [|destruct b as [[] [] [] [] [] [] [] []]; simpl; done].
  destruct (Py.split_at_first "}" r) as [[[|k ks] after]|] eqn:Es; [done| |done].
  intros [= <- <- <-]. apply split_at_first_Some in Es as [-> Hn].
  split_and!.
  - rewrite H1, H3. by rewrite <- !app_assoc.
  - apply contains_true in Hcite as (pre & post & ->).
    apply contains_true. exists pre, (post ++ more). by rewrite <- !app_assoc.
  - apply Forall_app. split; [|done].
    eapply Forall_impl; [exact H2|]. intros x Hx. unfold is_command_char. by rewrite Hx.
  - done.
  - done.
Qed.

Lemma cite_matches_cons skip c (s : text) :
  cite_matches skip (c :: s)
  = match skip with
    | S k => cite_matches k s
    | O =>
        match match_cite (c :: s) with
        | Some (command, keys, rest) =>
            (command, keys) :: cite_matches (length s - length rest) s
        | None => cite_matches 0 s
        end
    end.
Proof. done. Qed.

Lemma cite_matches_spec s : ∀ skip command keys,
  (command, keys) ∈ cite_matches skip s →
  ∃ t rest, match_cite t = Some (command, keys, rest).
Proof.
  induction s as [|c s IH]; intros skip command keys.
  - by intros ?%elem_of_nil.
  - rewrite cite_matches_cons. destruct skip as [|k]; [|apply IH].
    destruct (match_cite (c :: s)) as [[[cmd ks] rest]|] eqn:E; [|apply IH].
    intros [[= -> ->]|H]%elem_of_cons; [eauto|by eapply IH].
Qed.

(** X1: Every citation that [_extract_citations] returns has a key that is not
    empty, has no whitespace around it and holds neither a comma nor a
    closing brace; its command is made of letters and stars and contains
    [cite]; it names one of the files read and one of its lines. *)
Theorem extracted_citations_well_formed (tex_files : list (text * text))
    (c : Citation) :
  c ∈ extract_citations tex_files →
  c_key c ≠ [] ∧ Py.strip (c_key c) = c_key c
  ∧ (","%char ∉ c_key c) ∧ ("}"%char ∉ c_key c)
  ∧ Py.contains "cite" (c_command c) = true
  ∧ Forall (λ x, is_command_char x = true) (c_command c)
  ∧ ∃ content, (c_file c, content) ∈ tex_files
      ∧ 1 ≤ c_line c ≤ length (Py.splitlines content).
Proof.
  unfold extract_citations. rewrite list_elem_of_bind.
  intros ([rel content] & (i & line & Hi & Hc)%elem_of_per_line & Hf).
  unfold citations_of_line in Hc. apply list_elem_of_bind in Hc as ([command keys] & Hc & Hm).
  apply list_elem_of_fmap in Hc as (k & -> & Hk). simpl.
  apply cite_matches_spec in Hm as (t & rest & (_ & Hcite & Hchars & _ & Hbrace)%match_cite_Some).
  apply listed_keys_spec in Hk as (Hne & Hstrip & Hcomma & Hsub).
  split_and!; try done.
  - intros Hin. apply Hbrace. auto.
  - exists content. split; [done|]. apply lookup_lt_Some in Hi. lia.
Qed.

Lemma extracted_citations_well_formed_witness :
  let c := cite "a" "citep" 1 in
  c_key c ≠ [] ∧ Py.strip (c_key c) = c_key c
  ∧ (","%char ∉ c_key c) ∧ ("}"%char ∉ c_key c)
  ∧ Py.contains "cite" (c_command c) = true
  ∧ Forall (λ x, is_command_char x = true) (c_command c)
  ∧ ∃ content, (c_file c, content) ∈ [(txt "main.tex", txt "See \citep{a, b}.")]
      ∧ 1 ≤ c_line c ≤ length (Py.splitlines content).
Proof.
  apply (extracted_citations_well_formed [(txt "main.tex", txt "See \citep{a, b}.")]).
  vm_compute. left.
Defined.

(** *** A call that lists keys *)

Lemma replace_absent old new (s : text) :
  Py.contains old s = false → Py.replace old new s = s.
Proof.
  unfold Py.replace. induction s as [|c s IH]; [done|].
  intros [Hs Hc]%orb_false_iff. cbn [Py.replace_from]. rewrite Hs. f_equal. auto.
Qed.

Lemma before_first_absent c (s : text) : c ∉ s → Py.before_first c s = s.
Proof.
  induction s as [|x s IH]; [done|]. intros [Hx Hs]%not_elem_of_cons. simpl.
  rewrite eqc_ne by done. f_equal. auto.
Qed.

(** A line without a comment character and without the placeholder of the
    stripper comes back as it is. *)
Lemma strip_comment_plain (line : text) :
  "%"%char ∉ line → Py.contains PERCENT line = false → strip_comment line = line.
Proof.
  intros Hp Hs. unfold strip_comment.
  rewrite (replace_absent escaped_percent).
  - rewrite before_first_absent by done. by apply replace_absent.
  - apply not_true_is_false. intros (pre & post & ->)%contains_true.
    apply Hp. rewrite !elem_of_app. right. left. right. left.
Qed.

Lemma match_cite_head c (s : text) : c ≠ "\"%char → match_cite (c :: s) = None.
Proof. intros Hc. by destruct c as [[] [] [] [] [] [] [] []]. Qed.

Lemma cite_matches_no_backslash (pre t : text) :
  "\"%char ∉ pre → cite_matches 0 (pre ++ t) = cite_matches 0 t.
Proof.
  induction pre as [|c pre IH]; [done|]. intros [Hc Hpre]%not_elem_of_cons.
  cbn [app]. rewrite cite_matches_cons, match_cite_head by done. auto.
Qed.

Lemma cite_matches_skip (p r : text) :
  cite_matches (length p) (p ++ r) = cite_matches 0 r.
Proof. induction p as [|c p IH]; [done|]. cbn [app length]. by rewrite cite_matches_cons. Qed.

Lemma cite_matches_none (s : text) : "\"%char ∉ s → cite_matches 0 s = [].
Proof.
  intros Hs. rewrite <- (app_nil_r s). by rewrite cite_matches_no_backslash.
Qed.

Lemma match_cite_call command (group rest : text) :
  citation_command command → group ≠ [] → "}"%char ∉ group →
  match_cite ("\" ++ command ++ "{" ++ group ++ "}" ++ rest)
  = Some (command, group, rest).
Proof.
  intros [Hchars Hcite] Hne Hbrace.
  destruct (span_spec Py.is_az command) as (Hcmd & Hl & Hm).
  destruct (Py.span Py.is_az command) as [letters more] eqn:E. cbn [fst snd] in *.
  assert (Forall (λ x, is_command_char x = true) more) as Hmore.
  { rewrite Hcmd in Hchars. by apply Forall_app in Hchars as [_ ?]. }
  change (txt "\" ++ ?s) with ("\"%char :: s). unfold match_cite.
  rewrite Hcmd, <- app_assoc.
  rewrite (span_app Py.is_az letters); [|done|].
  2:{ destruct more as [|x more']; [done|]. done. }
  rewrite (span_app is_command_char more); [|done|done].
  rewrite Hcite. change (txt "{" ++ ?s) with ("{"%char :: s).
  change (txt "}" ++ ?s) with ("}"%char :: s).
  lazy iota beta.
  assert (Py.split_at_first "}" (group ++ "}"%char :: rest) = Some (group, rest)) as ->
    by by apply split_at_first_Some.
  by destruct group.
Qed.

Lemma split_on_absent c (a : text) : c ∉ a → split_on c a = [a].
Proof.
  induction a as [|x a IH]; [done|]. intros [Hx Ha]%not_elem_of_cons.
  simpl. rewrite eqc_ne by done. by rewrite IH.
Qed.

Lemma split_on_app c (a b : text) :
  c ∉ a → split_on c (a ++ c :: b) = a :: split_on c b.
Proof.
  induction a as [|x a IH]; simpl.
  - by rewrite eqc_refl.
  - intros [Hx Ha]%not_elem_of_cons. rewrite eqc_ne by done. by rewrite IH.
Qed.

Lemma lstrip_blank (blank k : text) :
  Forall (λ c, Py.isspace c = true) blank →
  match k with [] => True | c :: _ => Py.isspace c = false end →
  Py.lstrip (blank ++ k) = k.
Proof.
  intros Hb Hk. induction Hb as [|c blank Hc _ IH]; [by apply lstrip_head|].
  simpl. by rewrite Hc.
Qed.

Lemma strip_blank (blank k : text) :
  Forall (λ c, Py.isspace c = true) blank → Py.strip k = k → Py.strip (blank ++ k) = k.
Proof.
  intros Hb Hk. destruct (strip_spec k) as (l & r & _ & _ & _ & [Hh Hl]).
  rewrite Hk in Hh, Hl. rewrite <- Hk at 2. unfold Py.strip.
  by rewrite lstrip_blank, lstrip_head.
Qed.

Lemma space_not_comma c : Py.isspace c = true → c ≠ ","%char.
Proof. by intros H ->. Qed.

Lemma strip_listed (blank : text) ks :
  Forall (λ c, Py.isspace c = true) blank → Forall plain_key ks → ks ≠ [] →
  Py.strip <$> split_on "," (blank ++ Py.join ", " ks) = ks.
Proof.
  intros Hb Hks. revert blank Hb. induction Hks as [|k ks (_ & Hk & Hc & _) Hks IH]; [done|].
  intros blank Hb _. assert (","%char ∉ blank ++ k) as Hn.
  { rewrite not_elem_of_app. split; [|done].
    intros Hin. eapply Forall_forall in Hb; [|exact Hin]. done. }
  destruct ks as [|k' ks].
  - cbn [Py.join]. rewrite split_on_absent by done. simpl. by rewrite strip_blank.
  - change (Py.join ", " (k :: k' :: ks))
      with (k ++ ","%char :: [" "%char] ++ Py.join ", " (k' :: ks)).
    rewrite app_assoc, split_on_app by done. cbn [fmap list_fmap].
    rewrite strip_blank by done. f_equal. apply IH; [|done].
    by repeat constructor.
Qed.

Lemma listed_keys_join ks :
  Forall plain_key ks → ks ≠ [] → listed_keys (Py.join ", " ks) = ks.
Proof.
  intros Hks Hne. unfold listed_keys.
  rewrite <- (app_nil_l (Py.join _ _)), strip_listed by done.
  induction Hks as [|k ks [Hk _] _ IH]; [done|].
  rewrite filter_cons_True by done. f_equal.
  destruct ks; [done|]. by apply IH.
Qed.

Lemma elem_of_join x sep (l : list text) :
  x ∈ Py.join sep l → x ∈ sep ∨ ∃ k, k ∈ l ∧ x ∈ k.
Proof.
  induction l as [|k l IH]; [by intros ?%elem_of_nil|].
  destruct l as [|k' l].
  - intros H. right. exists k. split; [left|done].
  - change (Py.join sep (k :: k' :: l)) with (k ++ sep ++ Py.join sep (k' :: l)).
    rewrite !elem_of_app. intros [H|[H|H]].
    + right. exists k. split; [left|done].
    + by left.
    + destruct (IH H) as [?|(k0 & ? & ?)]; [by left|].
      right. exists k0. split; [by right|done].
Qed.

(** X2: The keys that a citation command lists, separated by a comma and a
    blank, are extracted in their order, each with the command, the file
    and the line, whatever stands around the command on its line, as long
    as no other command and no comment does. *)
Theorem listed_citations_round_trip (rel : text) (line_no : nat)
    (pre command post : text) (ks : list text) :
  citation_command command → ks ≠ [] → Forall plain_key ks →
  "\"%char ∉ pre → "\"%char ∉ post →
  "%"%char ∉ pre ++ call command ks ++ post →
  Py.contains PERCENT (pre ++ call command ks ++ post) = false →
  citations_of_line rel line_no (pre ++ call command ks ++ post)
  = (λ k, {| c_key := k; c_command := command; c_file := rel; c_line := line_no |})
      <$> ks.
Proof.
  intros Hcmd Hne Hks Hpre Hpost Hpercent Hsentinel.
  unfold citations_of_line. rewrite strip_comment_plain by done.
  rewrite cite_matches_no_backslash by done.
  assert (Py.join ", " ks ≠ []) as Hgroup.
  { destruct Hks as [|k ks [Hk _] _]; [done|]. destruct k; [done|]. by destruct ks. }
  assert ("}"%char ∉ Py.join ", " ks) as Hbrace.
  { intros [Hin|(k & Hk & Hin)]%elem_of_join.
    - by repeat (apply elem_of_cons in Hin as [?|Hin]; [done|]); apply elem_of_nil in Hin.
    - eapply Forall_forall in Hks as (_ & _ & _ & Hn); [|exact Hk]. done. }
  unfold call. rewrite <- !app_assoc.
  change (txt "\" ++ ?s) with ("\"%char :: s). rewrite cite_matches_cons.
  change ("\"%char :: ?s) with (txt "\" ++ s).
  rewrite match_cite_call by done.
  replace (length _ - length post)
    with (length (command ++ "{" ++ Py.join ", " ks ++ "}")).
  2:{ rewrite !length_app. simpl. lia. }
  rewrite !app_assoc, cite_matches_skip, cite_matches_none by done.
  simpl. rewrite app_nil_r. by rewrite listed_keys_join.
Qed.

Lemma listed_citations_round_trip_witness :
  citations_of_line "main.tex" 7
    ("See " ++ call "citep*" [txt "knuth_84"; txt "lamport:94"] ++ " again.")
  = [ {| c_key := "knuth_84"; c_command := "citep*"; c_file := "main.tex"; c_line := 7 |};
      {| c_key := "lamport:94"; c_command := "citep*"; c_file := "main.tex"; c_line := 7 |} ].
Proof.
  apply (listed_citations_round_trip "main.tex" 7 "See " "citep*" " again."
           [txt "knuth_84"; txt "lamport:94"]).
  - split; [by repeat constructor|by vm_compute].
  - done.
  - repeat constructor; unfold plain_key; compute_done.
  - compute_done.
  - compute_done.
  - compute_done.
  - by vm_compute.
Defined.

(** ** References *)

Lemma match_ref_Some t keys rest :
  match_ref t = Some (keys, rest) →
  ∃ command, command ∈ ref_commands
    ∧ t = "\" ++ command ++ "{" ++ keys ++ "}" ++ rest
    ∧ keys ≠ [] ∧ ("}"%char ∉ keys).
Proof.
  unfold match_ref. destruct t as [|c s1]; [done|].
  destruct (decide (c = "\"%char)) as [->|Hc];
    [|destruct c as [[] [] [] [] [] [] [] []]; simpl; done].
  destruct (list_find _ ref_commands) as [[i command]|] eqn:Ef; [|done].
  apply list_find_Some in Ef as (Hi & [after ->]%startswith_true & _).
  cbn [fmap option_fmap option_map snd mbind option_bind].
  rewrite drop_app_length. destruct after as [|b r]; [done|].
  destruct (decide (b = "{"%char)) as [->|Hb];
    [|destruct b as [[] [] [] [] [] [] [] []]; simpl; done].
  destruct (Py.split_at_first "}" r) as [[[|k ks] after]|] eqn:Es; [done| |done].
  intros [= <- <-]. apply split_at_first_Some in Es as [-> Hn].
  exists command. split_and!; [by eapply list_elem_of_lookup_2|done|done|done].
Qed.

Lemma ref_matches_cons skip c (s : text) :
  ref_matches skip (c :: s)
  = match skip with
    | S k => ref_matches k s
    | O =>
        match match_ref (c :: s) with
        | Some (keys, rest) => keys :: ref_matches (length s - length rest) s
        | None => ref_matches 0 s
        end
    end.
Proof. done. Qed.

Lemma ref_matches_spec s : ∀ skip keys,
  keys ∈ ref_matches skip s →
  ∃ pre t rest, s = pre ++ t ∧ match_ref t = Some (keys, rest).
Proof.
  induction s as [|c s IH]; intros skip keys.
  - by intros ?%elem_of_nil.
  - rewrite ref_matches_cons.
    assert (∀ k, keys ∈ ref_matches k s →
              ∃ pre t rest, c :: s = pre ++ t ∧ match_ref t = Some (keys, rest)) as Hlater.
    { intros k (pre & t & rest & -> & H)%IH. by exists (c :: pre), t, rest. }
    destruct skip as [|k]; [|apply Hlater].
    destruct (match_ref (c :: s)) as [[ks rest]|] eqn:E; [|apply Hlater].
    intros [->|H]%elem_of_cons; [by exists [], (c :: s), rest|by eapply Hlater].
Qed.

(** X3: Every reference that [_extract_refs] returns stands, on the line it
    names and outside any comment, among the keys listed by a call of
    [\ref], [\autoref], [\eqref], [\cref] or [\Cref]. *)
Theorem extracted_refs_sound (tex_files : list (text * text)) (r : Ref) :
  r ∈ extract_refs tex_files →
  ∃ content line command,
    (r_file r, content) ∈ tex_files
    ∧ Py.splitlines content !! (r_line r - 1) = Some line ∧ 1 ≤ r_line r
    ∧ command ∈ ref_commands
    ∧ called_in (strip_comment line) command (r_key r).
Proof.
  unfold extract_refs. rewrite list_elem_of_bind.
  intros ([rel content] & (i & line & Hi & Hr)%elem_of_per_line & Hf).
  unfold refs_of_line in Hr. apply list_elem_of_bind in Hr as (keys & Hr & Hm).
  apply list_elem_of_fmap in Hr as (k & -> & Hk). simpl.
  apply ref_matches_spec in Hm as (pre & t & rest & Hcode & Hm).
  apply match_ref_Some in Hm as (command & Hcmd & -> & _ & Hbrace).
  exists content, line, command. rewrite Nat.sub_0_r.
  split_and!; [done|done|lia|done|]. by exists pre, keys, rest.
Qed.

Lemma extracted_refs_sound_witness :
  ∃ content line command,
    (txt "main.tex", content) ∈ [(txt "main.tex", txt "As \cref{fig:a, tab:b} and \pageref{x} show.")]
    ∧ Py.splitlines content !! (1 - 1) = Some line ∧ 1 ≤ 1
    ∧ command ∈ ref_commands
    ∧ called_in (strip_comment line) command "tab:b".
Proof.
  apply (extracted_refs_sound
           [(txt "main.tex", txt "As \cref{fig:a, tab:b} and \pageref{x} show.")]
           {| r_key := "tab:b"; r_file := "main.tex"; r_line := 1 |}).
  vm_compute. right. left.
Defined.

(** ** Bibliography keys *)

Lemma search_Some {A} (m : text → option A) (s : text) a :
  Py.search m s = Some a → ∃ pre t, s = pre ++ t ∧ m t = Some a.
Proof.
  induction s as [|c s IH]; simpl.
  - destruct (m []) eqn:E; [|done]. intros [= ->]. by exists [], [].
  - destruct (m (c :: s)) eqn:E.
    + intros [= ->]. by exists [], (c :: s).
    + intros (pre & t & -> & H)%IH. by exists (c :: pre), t.
Qed.

Lemma match_bib_key_Some t group :
  match_bib_key t = Some group → ","%char ∉ group.
Proof.
  unfold match_bib_key. destruct t as [|c s1]; [done|].
  destruct (decide (c = "@"%char)) as [->|Hc];
    [|destruct c as [[] [] [] [] [] [] [] []]; simpl; done].
  destruct (Py.span Py.isword s1) as [[|w word] s2]; [done|].
  destruct (Py.span Py.isspace s2).2 as [|b r]; [done|].
  destruct (decide (b = "{"%char)) as [->|Hb];
    [|destruct b as [[] [] [] [] [] [] [] []]; simpl; done].
  destruct (span_spec Py.isspace r) as (_ & Hblank & _).
  destruct (Py.span Py.isspace r) as [blank r1]. cbn [fst snd] in *.
  destruct (span_spec (λ c, negb (Py.eqc c ",")) r1) as (_ & Hbody & _).
  destruct (Py.span (λ c, negb (Py.eqc c ",")) r1) as [body r2]. cbn [fst snd] in *.
  destruct r2 as [|d r2]; [done|].
  destruct (decide (d = ","%char)) as [->|Hd];
    [|destruct d as [[] [] [] [] [] [] [] []]; simpl; done].
  destruct body as [|x body].
  - destruct (last blank) as [y|] eqn:El; [|done]. intros [= <-].
    apply last_Some in El as [blank' ->]. apply Forall_app in Hblank as [_ Hy].
    apply Forall_inv in Hy. intros Heq%list_elem_of_singleton. by apply space_not_comma in Hy.
  - intros [= <-] Hin. eapply Forall_forall in Hbody; [|exact Hin].
    by rewrite eqc_refl in Hbody.
Qed.

Lemma bib_key_of_line_spec rel line_no line b :
  b ∈ bib_key_of_line rel line_no line →
  P.file b = rel ∧ P.line b = line_no
  ∧ Py.strip (P.key b) = P.key b ∧ (","%char ∉ P.key b).
Proof.
  unfold bib_key_of_line. destruct (Py.search match_bib_key line) as [group|] eqn:E;
    [|by intros ?%elem_of_nil].
  intros ->%list_elem_of_singleton. simpl. split_and!; [done|done|apply strip_idemp|].
  apply search_Some in E as (pre & t & _ & H%match_bib_key_Some).
  intros Hin%elem_of_strip. done.
Qed.

Lemma bib_key_lines rel (lines : list text) : ∀ n,
  P.line <$> concat (imap (λ i line, bib_key_of_line rel (S (n + i)) line) lines)
  `sublist_of` seq (S n) (length lines).
Proof.
  induction lines as [|line lines IH]; intros n; [done|].
  rewrite imap_cons. cbn [concat length seq]. rewrite fmap_app.
  assert (imap ((λ i l, bib_key_of_line rel (S (n + i)) l) ∘ S) lines
          = imap (λ i l, bib_key_of_line rel (S (S n + i)) l) lines) as ->.
  { apply imap_ext. intros i x _. simpl. do 2 f_equal. lia. }
  rewrite Nat.add_0_r. unfold bib_key_of_line at 1.
  destruct (Py.search match_bib_key line); simpl.
  - apply sublist_skip, (IH (S n)).
  - apply sublist_cons, (IH (S n)).
Qed.

(** X4: [_extract_bib_keys] finds at most one key on a line of a bibliography
    file and reports the keys in the order of their lines; a key it
    reports has no whitespace around it and holds no comma. *)
Theorem bib_keys_one_per_line (rel content : text) :
  let found := extract_bib_keys [(rel, content)] in
  P.line <$> found `sublist_of` seq 1 (length (Py.splitlines content))
  ∧ Forall (λ b, P.file b = rel ∧ Py.strip (P.key b) = P.key b
                 ∧ (","%char ∉ P.key b)) found.
Proof.
  unfold extract_bib_keys. cbn [mbind list_bind]. rewrite app_nil_r. split.
  - apply (bib_key_lines rel (Py.splitlines content) 0).
  - apply Forall_forall. intros b (i & line & _ & Hb)%elem_of_per_line.
    apply bib_key_of_line_spec in Hb. naive_solver.
Qed.

(** ** Unreferenced figures and tables *)

Lemma elem_of_labels_of envs l :
  l ∈ P.labels_of envs ↔ l ≠ [] ∧ ∃ env, env ∈ envs ∧ P.label env = l.
Proof.
  unfold P.labels_of. rewrite elem_of_list_to_set, list_elem_of_filter, list_elem_of_fmap.
  naive_solver.
Qed.

Lemma elem_of_unreferenced prefix envs refs l :
  l ∈ P.labels_of envs ∖ P.refs_with prefix (key_set r_key refs)
  ↔ counted_unreferenced prefix envs refs l.
Proof.
  unfold counted_unreferenced, P.refs_with.
  rewrite elem_of_difference, elem_of_labels_of, elem_of_filter, elem_of_key_set.
  naive_solver.
Qed.

Lemma unreferenced_listed kind prefix envs refs :
  lists_sorted (counted_unreferenced prefix envs refs) (unreferenced_anchor kind envs)
    (P.unreferenced_issue kind envs
       <$> sorted (P.labels_of envs ∖ P.refs_with prefix (key_set r_key refs))).
Proof.
  exists (sorted (P.labels_of envs ∖ P.refs_with prefix (key_set r_key refs))).
  split_and!; [apply NoDup_sorted|apply StronglySorted_sorted| |].
  - intros l. by rewrite elem_of_sorted, elem_of_unreferenced.
  - apply Forall2_fmap_r, Forall_Forall2_diag, Forall_forall.
    intros l [Hl _]%elem_of_sorted%elem_of_difference.
    apply elem_of_labels_of in Hl as [_ Hl].
    destruct (list_find_first_occurrence P.label envs l) as (env & Hfind & Hfirst);
      [by apply elem_of_key_set|].
    exists env. split; [done|]. unfold P.unreferenced_issue, P.first_by_key.
    by rewrite Hfind.
Qed.

Lemma env_issues_types kind prefix env t :
  t ≠ kind ++ "_missing_label" → t ≠ kind ++ "_label_prefix" →
  t ≠ kind ++ "_missing_caption" →
  Forall (λ d, has_type t d = false) (P.env_issues kind prefix env).
Proof.
  intros H1 H2 H3. unfold P.env_issues.
  assert (∀ s d, t ≠ s → has_type t (("type", VStr s) :: d) = false) as Hty.
  { intros s d Hs. unfold has_type. simpl. apply bool_decide_eq_false_2. congruence. }
  destruct (P.has_label env), (Py.startswith _ _), (P.has_caption env); simpl;
    repeat constructor; by apply Hty.
Qed.

(** The findings on unreferenced labels among those of [_build_issues]. *)
Lemma unreferenced_findings (citations : list Citation) (entries : list P.BibKey)
    (refs : list Ref) (figures tables : list P.Env) :
  let issues := P.all_issues citations entries refs figures tables in
  of_type "unreferenced_figure" issues
  = P.unreferenced_issue "figure" figures
      <$> sorted (P.labels_of figures ∖ P.refs_with "fig:" (key_set r_key refs))
  ∧ of_type "unreferenced_table" issues
    = P.unreferenced_issue "table" tables
        <$> sorted (P.labels_of tables ∖ P.refs_with "tab:" (key_set r_key refs)).
Proof.
  cbn zeta. unfold P.all_issues. rewrite !of_type_app.
  assert (∀ t (A : Type) (f : A → dict) (l : list A),
            (∀ x, has_type t (f x) = false) → of_type t (f <$> l) = []) as Hmap.
  { intros t A f l Hf. apply of_type_none, Forall_fmap, Forall_true. exact Hf. }
  assert (∀ t (f : P.Env → list dict) l,
            (∀ x, Forall (λ d, has_type t d = false) (f x)) →
            of_type t (concat (f <$> l)) = []) as Hconcat.
  { intros t f l Hf. by apply of_type_none, Forall_concat_fmap. }
  assert (∀ t (A : Type) (f : A → dict) (l : list A),
            (∀ x, has_type t (f x) = true) → of_type t (f <$> l) = f <$> l) as Hall.
  { intros t A f l Hf. apply of_type_all, Forall_fmap, Forall_true. exact Hf. }
  split.
  - rewrite (Hmap "unreferenced_figure" _ (P.undefined_issue citations)) by done.
    rewrite (Hmap "unreferenced_figure" _ (P.uncited_issue entries)) by done.
    rewrite !(Hconcat "unreferenced_figure") by (intros x; by apply env_issues_types).
    rewrite (Hmap "unreferenced_figure" _ (P.unreferenced_issue "table" tables)) by done.
    rewrite (Hall "unreferenced_figure" _ (P.unreferenced_issue "figure" figures)) by done.
    by rewrite app_nil_r.
  - rewrite (Hmap "unreferenced_table" _ (P.undefined_issue citations)) by done.
    rewrite (Hmap "unreferenced_table" _ (P.uncited_issue entries)) by done.
    rewrite !(Hconcat "unreferenced_table") by (intros x; by apply env_issues_types).
    rewrite (Hmap "unreferenced_table" _ (P.unreferenced_issue "figure" figures)) by done.
    by rewrite (Hall "unreferenced_table" _ (P.unreferenced_issue "table" tables)) by done.
Qed.

(** X5: The unreferenced_figure findings of [_build_issues], before the cut,
    list in sorted order the non-empty labels of figures that no reference
    names or that do not begin with [fig:]: a label without the prefix is
    reported as unreferenced even when a reference names it.  Each finding
    carries the file and line of the first figure that bears the label.
    The same holds of tables and [tab:]. *)
Theorem unreferenced_labels_listed (citations : list Citation)
    (entries : list P.BibKey) (refs : list Ref) (figures tables : list P.Env) :
  let issues := P.all_issues citations entries refs figures tables in
  lists_sorted (counted_unreferenced "fig:" figures refs)
    (unreferenced_anchor "figure" figures) (of_type "unreferenced_figure" issues)
  ∧ lists_sorted (counted_unreferenced "tab:" tables refs)
      (unreferenced_anchor "table" tables) (of_type "unreferenced_table" issues).
Proof.
  cbn zeta.
  destruct (unreferenced_findings citations entries refs figures tables) as [-> ->].
  split; apply unreferenced_listed.
Qed.

(** A figure labelled [plot:a] that [\ref{plot:a}] names is reported as
    unreferenced all the same. *)
Lemma referenced_figure_reported_unreferenced :
  of_type "unreferenced_figure" (P.all_issues [] [] [plot_reference] [plot_figure] [])
  = [unreferenced_at "figure" "plot:a" "main.tex" 3].
Proof. by vm_compute. Qed.

(** ** Reference counts *)

Lemma ref_count_zero refs (l : text) :
  l ≠ [] → (T.ref_count refs l = 0 ↔ l ∉ key_set r_key refs).
Proof.
  intros Hl. unfold T.ref_count. destruct l as [|c l]; [done|].
  rewrite length_zero_iff_nil, elem_of_key_set. split.
  - intros Hnil (r & Hr & Hk).
    assert (r ∈ filter (λ ref, r_key ref = c :: l) refs) as Hin
      by by apply list_elem_of_filter.
    rewrite Hnil in Hin. by apply elem_of_nil in Hin.
  - intros Hnone. apply elem_of_nil_inv. intros r [Hk Hr]%list_elem_of_filter.
    apply Hnone. eauto.
Qed.

(** X6: In [_verify_figures] and [_verify_tables], an environment is reported
    as unreferenced exactly when it has a label with the expected prefix
    and the reference count of its entity is 0. *)
Theorem unreferenced_iff_count_zero (prefix : text) (refs : list Ref) (env : T.Env) :
  (∃ d, d ∈ T.label_issues prefix (key_set r_key refs) env
        ∧ has_type "unreferenced" d = true)
  ↔ T.e_label env ≠ [] ∧ Py.startswith prefix (T.e_label env) = true
    ∧ get "ref_count" (T.entity refs env) = Some (VInt 0).
Proof.
  assert (get "ref_count" (T.entity refs env)
          = Some (VInt (Z.of_nat (T.ref_count refs (T.e_label env))))) as -> by done.
  unfold T.label_issues.
  case_bool_decide as Hlabel.
  { split; [by intros (d & ->%list_elem_of_singleton & ?)|by intros []]. }
  destruct (Py.startswith prefix (T.e_label env)) eqn:Hprefix; simpl.
  2:{ split; [by intros (d & ->%list_elem_of_singleton & ?)|by intros (? & ? & ?)]. }
  case_bool_decide as Hrefs.
  - split; [|intros _; eexists; split; [left|done]].
    intros _. split_and!; [done..|]. do 2 f_equal.
    apply (ref_count_zero refs) in Hrefs; [|done]. by rewrite Hrefs.
  - split; [by intros (d & ?%elem_of_nil & _)|].
    intros (_ & _ & [= Hz]). exfalso.
    eapply (ref_count_zero refs); [exact Hlabel| |exact Hrefs]. lia.
Qed.

(** ** The content of a section *)

Lemma sections_from_cons rel line lines line_no current :
  T.sections_from rel (line :: lines) line_no current
  = match heading_of line with
    | Some (command, heading) =>
        T.close current
        ++ T.sections_from rel lines (S line_no)
             (Some ({| T.name := Py.strip heading; T.level := command; T.file := rel;
                       T.line := line_no; T.content := [] |}, []))
    | None =>
        T.sections_from rel lines (S line_no)
          ((λ '(heading, content_lines), (heading, content_lines ++ [strip_comment line]))
             <$> current)
    end.
Proof.
  cbn [T.sections_from]. unfold heading_of.
  by destruct (Py.search _ (strip_comment line)) as [[[command heading] rest]|].
Qed.

Lemma sections_from_suffix rel before rest : ∀ line_no current,
  ∃ found current',
    T.sections_from rel (before ++ rest) line_no current
    = found ++ T.sections_from rel rest (line_no + length before) current'.
Proof.
  induction before as [|line before IH]; intros line_no current.
  - exists [], current. simpl. by rewrite Nat.add_0_r.
  - cbn [app length]. rewrite sections_from_cons, Nat.add_succ_r.
    destruct (heading_of line) as [[command heading]|].
    + edestruct IH as (found & current' & ->).
      exists (T.close current ++ found), current'. by rewrite <- app_assoc.
    + apply IH.
Qed.

Lemma sections_from_body rel body rest : ∀ line_no heading content_lines,
  Forall (λ l, heading_of l = None) body →
  T.sections_from rel (body ++ rest) line_no (Some (heading, content_lines))
  = T.sections_from rel rest (line_no + length body)
      (Some (heading, content_lines ++ (strip_comment <$> body))).
Proof.
  induction body as [|line body IH]; intros line_no heading content_lines Hbody.
  - simpl. by rewrite Nat.add_0_r, app_nil_r.
  - apply Forall_cons in Hbody as [Hline Hbody].
    cbn [app length]. rewrite sections_from_cons, Hline, Nat.add_succ_r. simpl.
    rewrite IH by done. by rewrite <- app_assoc.
Qed.

(** X7: In [verify_content_targets.py], the content of a section is made of
    the lines between the line of its heading and the next line with a
    heading, or the end of the file, each without its comment and joined by
    line feeds; what follows the heading on its own line is left out.  The
    section carries the number of the line of its heading. *)
Theorem section_content_between_headings (tex_files : list (text * text))
    (rel content : text) (before body after : list text)
    (line command heading : text) :
  (rel, content) ∈ tex_files →
  Py.splitlines content = before ++ line :: body ++ after →
  heading_of line = Some (command, heading) →
  Forall (λ l, heading_of l = None) body →
  match after with [] => True | l :: _ => is_Some (heading_of l) end →
  {| T.name := Py.strip heading; T.level := command; T.file := rel;
     T.line := S (length before);
     T.content := Py.join newline (strip_comment <$> body) |}
  ∈ T.extract_sections tex_files.
Proof.
  intros Hfile Hlines Hline Hbody Hafter.
  unfold T.extract_sections. apply elem_of_concat. eexists. split.
  { apply list_elem_of_fmap. exists (rel, content). split; [done|exact Hfile]. }
  rewrite Hlines.
  destruct (sections_from_suffix rel before (line :: body ++ after) 1 None)
    as (found & current' & ->).
  apply elem_of_app. right. rewrite sections_from_cons, Hline.
  apply elem_of_app. right. rewrite sections_from_body by done.
  destruct after as [|l after].
  - simpl. left.
  - destruct Hafter as [[c h] Hl]. rewrite sections_from_cons, Hl. simpl. left.
Qed.

Lemma section_content_between_headings_witness :
  {| T.name := "Method"; T.level := "section"; T.file := "main.tex"; T.line := 2;
     T.content := "We sample. " ++ newline ++ "Then we fit." |}
  ∈ T.extract_sections [(txt "main.tex", short_paper)].
Proof.
  apply (section_content_between_headings [(txt "main.tex", short_paper)]
           "main.tex" short_paper [txt "\documentclass{article}"]
           [txt "We sample. % how?"; txt "Then we fit."] []
           "\section{ Method }" "section" " Method ").
  - left.
  - by vm_compute.
  - by vm_compute.
  - repeat constructor; by vm_compute.
  - done.
Defined.

(** ** The minimum length of a section *)

(** X8: [main] of [verify_content_targets.py] raises [--min-section-words] to
    1 at least: a section that is found and has no word is reported as too
    short whatever minimum was asked for. *)
Theorem empty_section_reported (args : TMain.Args) (tex_files : list (text * text))
    (payload : TMain.Payload) (e : dict) :
  TMain.main args tex_files = (0%Z, Some payload) →
  TMain.target args = TMain.section →
  e ∈ TMain.entities payload → get "word_count" e = Some (VInt 0) →
  ∃ d minimum, d ∈ TMain.issues payload ∧ has_type "section_too_short" d = true
    ∧ get "word_count" d = Some (VInt 0)
    ∧ get "minimum" d = Some (VInt minimum) ∧ (1 ≤ minimum)%Z.
Proof.
  unfold TMain.main. intros Hmain Htarget. rewrite Htarget in Hmain.
  destruct (Py.strip (TMain.section_name args)) as [|c name] eqn:Hname; [done|].
  injection Hmain as <-. cbn [TMain.entities TMain.issues].
  unfold T.verify_section.
  destruct (T.find_section _ _) as [m|]; cbn [T.entities T.issues];
    [|by intros ?%elem_of_nil].
  intros ->%list_elem_of_singleton [= Hwords].
  unfold T.section_issues. rewrite bool_decide_eq_true_2 by lia.
  eexists _, (Z.max 1 (TMain.min_section_words args)).
  split; [left|]. split_and!; [done| |done|lia].
  cbn [get]. repeat case_decide; try done. by rewrite Hwords.
Qed.

Lemma empty_section_reported_witness :
  ∃ payload d minimum,
    TMain.main lenient_run [(txt "main.tex", empty_intro)] = (0%Z, Some payload)
    ∧ d ∈ TMain.issues payload ∧ has_type "section_too_short" d = true
    ∧ get "word_count" d = Some (VInt 0)
    ∧ get "minimum" d = Some (VInt minimum) ∧ (1 ≤ minimum)%Z.
Proof.
  assert (∃ payload, TMain.main lenient_run [(txt "main.tex", empty_intro)]
                     = (0%Z, Some payload)) as [payload Hrun]
    by (eexists; vm_compute; reflexivity).
  injection Hrun as <-.
  destruct (empty_section_reported lenient_run [(txt "main.tex", empty_intro)] _
              [("name", VStr "Intro"); ("file", VStr "main.tex"); ("line", VInt 1);
               ("word_count", VInt 0)] eq_refl eq_refl)
    as (d & minimum & H); [vm_compute; left|done|].
  by eexists _, d, minimum.
Defined.

(** ** The remote matcher, continued *)

Section Lookups.

Variable http_get_json : V.Request → V.Response.
Variable round3 : Q → Q.

Lemma validate_by_title_requests entry :
  (V.validate_by_title http_get_json round3 entry).1
  = match Py.strip (V.title entry) with
    | [] => []
    | _ => [V.WorksByTitle (V.title entry)]
    end.
Proof.
  unfold V.validate_by_title. destruct (Py.strip _); [done|].
  destruct (http_get_json _) as [|msg]; [done|].
  destruct (V.items msg); [done|].
  by destruct (V.best_match _ _) as [[?|] ?].
Qed.

Lemma validate_by_doi_requests entry :
  (V.validate_by_doi http_get_json round3 entry).1
  = match V.strip_doi_url (Py.strip (V.doi entry)) with
    | [] => []
    | d => [V.WorksByDoi d]
    end.
Proof.
  unfold V.validate_by_doi. destruct (V.strip_doi_url _); [done|].
  by destruct (http_get_json _).
Qed.

(** X9: For one entry the remote matcher sends at most one lookup by
    identifier and then at most one search by title, in that order and for
    that entry only; it looks up no identifier when the entry has none, and
    searches no title that is blank. *)
Theorem lookups_per_entry (entry : V.BibEntry) :
  let sent := (V.validate_entry http_get_json round3 entry).1 in
  sent `sublist_of` [V.WorksByDoi (V.strip_doi_url (Py.strip (V.doi entry)));
                     V.WorksByTitle (V.title entry)]
  ∧ (V.doi entry = [] → ∀ d, V.WorksByDoi d ∉ sent)
  ∧ (Py.strip (V.title entry) = [] → ∀ t, V.WorksByTitle t ∉ sent).
Proof.
  cbn zeta. unfold V.validate_entry.
  pose proof (validate_by_doi_requests entry) as Hd.
  pose proof (validate_by_title_requests entry) as Ht.
  destruct (V.validate_by_doi http_get_json round3 entry) as [sent result].
  destruct (V.validate_by_title http_get_json round3 entry) as [sent' fallback].
  cbn [fst] in Hd, Ht. subst sent sent'.
  assert (∀ d t, V.WorksByDoi d ∉ [V.WorksByTitle t]) as Hdt.
  { intros d t Hin%list_elem_of_singleton. done. }
  assert (∀ d t, V.WorksByTitle t ∉ [V.WorksByDoi d]) as Htd.
  { intros d t Hin%list_elem_of_singleton. done. }
  case_bool_decide as Hdoi.
  - destruct (bool_decide (V.status result = V.not_found) && _); cbn [fst].
    + destruct (V.strip_doi_url _) as [|c d] eqn:Ed, (Py.strip (V.title entry)) eqn:Et;
        cbn [app]; split_and!; try done;
        try (intros _ t; rewrite ?not_elem_of_cons; split_and?; try done;
             apply not_elem_of_nil).
      * apply sublist_nil_l.
      * apply sublist_cons, sublist_skip, sublist_nil_l.
      * apply sublist_skip, sublist_nil_l.
    + destruct (V.strip_doi_url _) as [|c d] eqn:Ed; split_and!; try done;
        try (intros; apply not_elem_of_nil); try by intros; apply Htd.
      * apply sublist_nil_l.
      * apply sublist_skip, sublist_nil_l.
  - case_bool_decide as Htitle; cbn [fst].
    + destruct (Py.strip (V.title entry)) eqn:Et; split_and!; try done;
        try (intros; apply not_elem_of_nil); try by intros; apply Hdt.
      * apply sublist_nil_l.
      * apply sublist_cons, sublist_skip, sublist_nil_l.
    + split_and!; try (intros; apply not_elem_of_nil). apply sublist_nil_l.
Qed.

(** *** The best candidate *)

Lemma best_match_snoc entry candidates w :
  V.best_match entry (candidates ++ [w])
  = let '(best, best_score) := V.best_match entry candidates in
    if negb (Qle_bool (candidate_score entry w) best_score)
    then (Some (candidate_record w), candidate_score entry w)
    else (best, best_score).
Proof. unfold V.best_match. rewrite foldl_app. simpl. by destruct (foldl _ _ _). Qed.

Lemma best_match_spec entry candidates :
  match V.best_match entry candidates with
  | (None, s) => s = 0%Q ∧ Forall (λ w, (candidate_score entry w <= 0)%Q) candidates
  | (Some best, s) =>
      ∃ w, first_best entry candidates w ∧ best = candidate_record w
           ∧ s = candidate_score entry w ∧ (0 < s)%Q
  end.
Proof.
  induction candidates as [|x l IH] using rev_ind; [by split|].
  rewrite best_match_snoc. destruct (V.best_match entry l) as [[best|] s].
  - destruct IH as (w & (i & Hi & Hmax & Hbefore) & -> & -> & Hpos).
    destruct (Qle_bool _ _) eqn:Hle; simpl.
    + apply Qle_bool_iff in Hle. exists w. split_and!; try done.
      exists i. split_and!.
      * by apply lookup_app_l_Some.
      * intros w' [Hw'| ->%list_elem_of_singleton]%elem_of_app; auto.
      * intros j w' Hj Hw'. apply (Hbefore j); [done|].
        rewrite lookup_app_l in Hw'; [done|]. apply lookup_lt_Some in Hi. lia.
    + assert (candidate_score entry w < candidate_score entry x)%Q as Hlt.
      { apply Qnot_le_lt. intros Hle'%Qle_bool_iff. congruence. }
      exists x. split_and!; try done; [|by eapply Qlt_trans].
      exists (length l). split_and!.
      * by rewrite lookup_app_r, Nat.sub_diag.
      * intros w' [Hw'| ->%list_elem_of_singleton]%elem_of_app; [|apply Qle_refl].
        apply Qlt_le_weak. eapply Qle_lt_trans; [by apply Hmax|done].
      * intros j w' Hj Hw'. rewrite lookup_app_l in Hw' by done.
        eapply Qle_lt_trans; [|exact Hlt]. apply Hmax. by eapply list_elem_of_lookup_2.
  - destruct IH as [-> Hall]. destruct (Qle_bool _ _) eqn:Hle; simpl.
    + apply Qle_bool_iff in Hle. split; [done|]. apply Forall_app. split; [done|].
      by constructor.
    + assert (0 < candidate_score entry x)%Q as Hlt.
      { apply Qnot_le_lt. intros Hle'%Qle_bool_iff. congruence. }
      exists x. split_and!; try done.
      exists (length l). split_and!.
      * by rewrite lookup_app_r, Nat.sub_diag.
      * intros w' [Hw'| ->%list_elem_of_singleton]%elem_of_app; [|apply Qle_refl].
        apply Qlt_le_weak. eapply Qle_lt_trans; [|exact Hlt].
        eapply Forall_forall in Hall; [exact Hall|done].
      * intros j w' Hj Hw'. rewrite lookup_app_l in Hw' by done.
        eapply Qle_lt_trans; [|exact Hlt].
        eapply Forall_forall in Hall; [exact Hall|]. by eapply list_elem_of_lookup_2.
Qed.

(** X10: When the search by title is answered, the entry is classified as
    likely_hallucinated exactly when no candidate scores above 0; otherwise
    the record reported is that of the first of the candidates with the
    highest score, and the entry is valid only if that score is at least
    0.75 and the identifier of the candidate, if it has one, is the one of
    the entry, case apart. *)
Theorem title_search_verdict (entry : V.BibEntry) (msg : V.Message) :
  Py.strip (V.title entry) ≠ [] →
  http_get_json (V.WorksByTitle (V.title entry)) = V.Decoded msg →
  let result := (V.validate_by_title http_get_json round3 entry).2 in
  (V.status result = V.likely_hallucinated
   ↔ Forall (λ w, (candidate_score entry w <= 0)%Q) (V.items msg))
  ∧ (∀ best, V.remote result = Some best →
       ∃ w, first_best entry (V.items msg) w ∧ best = candidate_record w)
  ∧ (V.status result = V.valid →
       ∃ w, first_best entry (V.items msg) w
            ∧ (75 # 100 <= candidate_score entry w)%Q
            ∧ (V.work_doi w = []
               ∨ V.doi entry ≠ []
                 ∧ Py.lower (Py.strip (V.doi entry)) = Py.lower (V.work_doi w))).
Proof.
  intros Htitle Hmsg. cbn zeta. unfold V.validate_by_title.
  destruct (Py.strip (V.title entry)) as [|c t]; [done|]. rewrite Hmsg.
  pose proof (best_match_spec entry (V.items msg)) as Hbest.
  destruct (V.items msg) as [|w0 ws] eqn:Hitems; [by split_and!|].
  rewrite <- Hitems in *. clear Hitems.
  destruct (V.best_match entry (V.items msg)) as [[best|] s].
  - destruct Hbest as (w & Hfirst & -> & -> & Hpos).
    assert (¬ Forall (λ w, (candidate_score entry w <= 0)%Q) (V.items msg)) as Hsome.
    { intros Hall. destruct Hfirst as (i & Hi & _).
      eapply Forall_forall in Hall; [|by eapply list_elem_of_lookup_2].
      by apply Qle_not_lt in Hall. }
    cbn [snd]. destruct (Qle_bool (75 # 100) _) eqn:Hle.
    + apply Qle_bool_iff in Hle. unfold Py.eqt.
      repeat case_bool_decide; cbn [andb negb V.status V.remote].
      all: split_and!; [split; [done|by intros ?]|intros ? [= <-]; eauto|].
      all: try done.
      all: intros _; exists w; split_and!; try done.
      all: try (left; done).
      right. by split.
    + cbn [V.status V.remote]. split_and!; [split; [done|by intros ?]| |done].
      intros ? [= <-]. eauto.
  - destruct Hbest as [_ Hall]. by split_and!.
Qed.

End Lookups.

Lemma title_search_verdict_witness :
  let entry := paper "" "Deep Learning" in
  let result := (V.validate_by_title two_candidates no_rounding entry).2 in
  (V.status result = V.likely_hallucinated
   ↔ Forall (λ w, (candidate_score entry w <= 0)%Q)
       (V.items {| V.titles := [];
                   V.items := [{| V.work_titles := [txt "Deep Residual Learning"];
                                  V.work_doi := "10.1/a" |};
                               {| V.work_titles := [txt "Deep Learning"];
                                  V.work_doi := "10.1/b" |}] |}))
  ∧ V.remote result
    = Some {| V.remote_doi := "10.1/b"; V.remote_title := "Deep Learning" |}.
Proof.
  intros entry result.
  destruct (title_search_verdict two_candidates no_rounding entry
              {| V.titles := [];
                 V.items := [{| V.work_titles := [txt "Deep Residual Learning"];
                                V.work_doi := "10.1/a" |};
                             {| V.work_titles := [txt "Deep Learning"];
                                V.work_doi := "10.1/b" |}] |})
    as (H & _ & _); [by vm_compute|done|].
  split; [exact H|by vm_compute].
Defined.

(** ** Identifiers written as addresses *)

Lemma strip_prefix_ci_lower (p s : text) : Py.strip_prefix_ci (Py.lower p) (p ++ s) = Some s.
Proof. induction p as [|c p IH]; [done|]. simpl. by rewrite eqc_refl. Qed.

Lemma strip_doi_url_address (url d : text) :
  resolver_address url → V.strip_doi_url (url ++ d) = d.
Proof.
  intros (scheme & s & dx & host & -> & Hscheme & Hs & Hdx & Hhost).
  unfold V.strip_doi_url. rewrite <- !app_assoc.
  rewrite <- Hscheme, strip_prefix_ci_lower. cbn [mbind option_bind].
  assert (default (s ++ "://" ++ dx ++ host ++ d)
            (Py.strip_prefix_ci "s" (s ++ "://" ++ dx ++ host ++ d))
          = "://" ++ dx ++ host ++ d) as ->.
  { destruct Hs as [->|Hs]; [done|]. by rewrite <- Hs, strip_prefix_ci_lower. }
  assert (Py.strip_prefix_ci "://" ("://" ++ dx ++ host ++ d) = Some (dx ++ host ++ d))
    as -> by done.
  cbn [mbind option_bind].
  assert (default (dx ++ host ++ d) (Py.strip_prefix_ci "dx." (dx ++ host ++ d))
          = host ++ d) as ->.
  { destruct Hdx as [->|Hdx]; [|by rewrite <- Hdx, strip_prefix_ci_lower].
    destruct host as [|h1 [|h2 host]]; try done.
    injection Hhost as H1 H2 _. simpl. rewrite H1, H2. done. }
  rewrite <- Hhost, strip_prefix_ci_lower. done.
Qed.

(** X11: An identifier that the entry gives as an address of the resolver is
    looked up as the bare identifier that follows the address. *)
Theorem doi_address_looked_up_bare (http_get_json : V.Request → V.Response)
    (round3 : Q → Q) (entry : V.BibEntry) (url d : text) :
  resolver_address url → d ≠ [] →
  Py.strip (V.doi entry) = url ++ d →
  (V.validate_by_doi http_get_json round3 entry).1 = [V.WorksByDoi d].
Proof.
  intros Hurl Hd Hdoi. rewrite validate_by_doi_requests, Hdoi, strip_doi_url_address by done.
  by destruct d.
Qed.

Lemma doi_address_looked_up_bare_witness :
  (V.validate_by_doi failing_doi_service no_rounding
     (paper " HTTPS://dx.doi.org/10.1038/nature14539 " "Deep learning")).1
  = [V.WorksByDoi "10.1038/nature14539"].
Proof.
  apply (doi_address_looked_up_bare failing_doi_service no_rounding
           (paper " HTTPS://dx.doi.org/10.1038/nature14539 " "Deep learning")
           "HTTPS://dx.doi.org/" "10.1038/nature14539").
  - exists (txt "HTTP"), (txt "S"), (txt "dx."), (txt "doi.org/").
    split_and!; [done|done|by right|by right|done].
  - done.
  - by vm_compute.
Defined.

(** ** The report of the validator *)






(** ** Title normalisation *)

(** X13: The score of two titles lies between 0 and 1. *)
Theorem title_score_range (a b : text) :
  (0 <= V.title_match_score a b <= 1)%Q.
Proof.
  unfold V.title_match_score.
  destruct (_ || _); [done|]. destruct (bool_decide _); [done|].
  destruct (_ || _); [done|]. destruct (_ || _); [done|].
  set (A := list_to_set _ : gset text). set (B := list_to_set _ : gset text).
  assert (size (A ∩ B) ≤ size (A ∪ B)) as Hsize by (apply subseteq_size; set_solver).
  unfold Qle. simpl. split; [lia|].
  destruct (size (A ∪ B)) as [|u] eqn:Hu; [lia|].
  rewrite Z.mul_1_r.
  rewrite <- (Nat2Pos.id (S u)) in Hsize by done.
  rewrite <- positive_nat_Z. lia.
Qed.

Lemma match_command_head c (s : text) : c ≠ "\"%char → V.match_command (c :: s) = None.
Proof. intros Hc. by destruct c as [[] [] [] [] [] [] [] []]. Qed.

Lemma unwrap_commands_cons skip c (s : text) :
  V.unwrap_commands skip (c :: s)
  = match skip with
    | S k => V.unwrap_commands k s
    | O =>
        match V.match_command (c :: s) with
        | Some (inner, rest) => inner ++ V.unwrap_commands (length s - length rest) s
        | None => c :: V.unwrap_commands 0 s
        end
    end.
Proof. done. Qed.

Lemma unwrap_commands_plain (s : text) : "\"%char ∉ s → V.unwrap_commands 0 s = s.
Proof.
  induction s as [|c s IH]; [done|]. intros [Hc Hs]%not_elem_of_cons.
  rewrite unwrap_commands_cons, match_command_head by done. f_equal. auto.
Qed.

Lemma plain_char_cases c :
  plain_char c = true →
  c ≠ "\"%char ∧ c ≠ "{"%char ∧ c ≠ "}"%char
  ∧ Py.is_az c || Py.isdigit c || Py.isspace c = true
  ∧ Py.lower_char c = c ∧ (Py.isspace c = true → c = " "%char).
Proof. by destruct c as [[] [] [] [] [] [] [] []]. Qed.

Lemma blank_is_space c : Py.eqc c " " = true → Py.isspace c = true.
Proof. by intros ->%eqc_true. Qed.

(** The whitespace runs of a text of plain characters are single blanks
    exactly when it holds no two blanks in a row. *)
Lemma collapse_spaces_plain (s : text) : ∀ in_run,
  Forall (λ c, plain_char c = true) s → Py.contains "  " s = false →
  (in_run = true → match s with c :: _ => c ≠ " "%char | [] => True end) →
  V.collapse_spaces in_run s = s.
Proof.
  induction s as [|c s IH]; intros in_run Hs Hdouble Hrun; [done|].
  apply Forall_cons in Hs as [Hc Hs].
  apply plain_char_cases in Hc as (_ & _ & _ & _ & _ & Hblank).
  cbn [Py.contains] in Hdouble. apply orb_false_iff in Hdouble as [Hstart Hdouble].
  cbn [V.collapse_spaces]. destruct (Py.isspace c) eqn:Hspace.
  - rewrite (Hblank eq_refl) in *. destruct in_run; [by destruct Hrun|].
    simpl. f_equal. apply IH; [done..|]. intros _.
    destruct s as [|d s]; [done|]. intros ->. done.
  - f_equal. apply IH; [done..|]. done.
Qed.

Lemma collapse_spaces_head (s : text) :
  match V.collapse_spaces true s with c :: _ => c ≠ " "%char | [] => True end.
Proof.
  induction s as [|c s IH]; [done|]. cbn [V.collapse_spaces].
  destruct (Py.isspace c) eqn:Hspace; [done|]. simpl. by intros ->.
Qed.

Lemma collapse_spaces_spec (s : text) : ∀ in_run,
  Forall (λ c, Py.is_az c || Py.isdigit c || Py.isspace c = true) s →
  Forall (λ c, Py.is_az c || Py.isdigit c || Py.eqc c " " = true)
    (V.collapse_spaces in_run s)
  ∧ Py.contains "  " (V.collapse_spaces in_run s) = false.
Proof.
  induction s as [|c s IH]; intros in_run Hs; [done|].
  apply Forall_cons in Hs as [Hc Hs]. cbn [V.collapse_spaces].
  destruct (Py.isspace c) eqn:Hspace.
  - destruct (IH true Hs) as [IH1 IH2]. destruct in_run; [done|].
    simpl app. split; [by constructor|].
    cbn [Py.contains]. rewrite IH2, orb_false_r.
    pose proof (collapse_spaces_head s) as Hhead.
    destruct (V.collapse_spaces true s) as [|d r]; [done|].
    simpl. rewrite (eqc_ne _ d) by done. done.
  - destruct (IH false Hs) as [IH1 IH2]. split.
    + constructor; [|done]. rewrite orb_false_r in Hc. by rewrite Hc.
    + cbn [Py.contains]. rewrite IH2, orb_false_r. simpl.
      rewrite eqc_ne; [done|]. by intros <-.
Qed.

Lemma contains_middle sub (l s r : text) :
  Py.contains sub (l ++ s ++ r) = false → Py.contains sub s = false.
Proof.
  intros H. apply not_true_is_false. intros (pre & post & ->)%contains_true.
  apply not_true_iff_false in H. apply H, contains_true.
  exists (l ++ pre), (post ++ r). by rewrite <- !app_assoc.
Qed.

Lemma lower_char_blank c : Py.lower_char c = " "%char → c = " "%char.
Proof. by destruct c as [[] [] [] [] [] [] [] []]. Qed.

Lemma lower_char_space c : Py.isspace (Py.lower_char c) = Py.isspace c.
Proof. by destruct c as [[] [] [] [] [] [] [] []]. Qed.

Lemma contains_double_blank_lower (s : text) :
  Py.contains "  " (Py.lower s) = Py.contains "  " s.
Proof.
  induction s as [|c s IH]; [done|].
  change (Py.lower (c :: s)) with (Py.lower_char c :: Py.lower s).
  cbn [Py.contains]. rewrite IH. f_equal.
  destruct s as [|d s]; simpl; [by rewrite !andb_false_r|].
  rewrite !andb_true_r. unfold Py.eqc.
  repeat case_bool_decide; try done; simplify_eq.
  - exfalso. by repeat match goal with H : _ ≠ _ |- _ =>
      apply H; symmetry; apply lower_char_blank; congruence end.
  - exfalso. by repeat match goal with H : _ ≠ _ |- _ =>
      apply H; symmetry; apply lower_char_blank; congruence end.
  - exfalso. by repeat match goal with H : _ ≠ _ |- _ =>
      apply H; symmetry; apply lower_char_blank; congruence end.
Qed.

Lemma blank_punctuation_spec (s : text) :
  Forall (λ c, Py.is_az c || Py.isdigit c || Py.isspace c = true) (V.blank_punctuation s).
Proof.
  induction s as [|c s IH]; simpl; constructor; [|done].
  by destruct (Py.is_az c || Py.isdigit c || Py.isspace c) eqn:E.
Qed.

Lemma blank_punctuation_plain (s : text) :
  Forall (λ c, plain_char c = true) s → V.blank_punctuation s = s.
Proof.
  induction 1 as [|c s (_ & _ & _ & Hc & _)%plain_char_cases _ IH]; [done|].
  simpl. rewrite Hc. f_equal. exact IH.
Qed.

Lemma drop_braces_plain (s : text) :
  Forall (λ c, plain_char c = true) s → V.drop_braces s = s.
Proof.
  unfold V.drop_braces.
  induction 1 as [|c s (_ & ? & ? & _)%plain_char_cases _ IH]; [done|].
  rewrite filter_cons_True by done. f_equal. exact IH.
Qed.

Lemma lower_plain (s : text) : Forall (λ c, plain_char c = true) s → Py.lower s = s.
Proof.
  induction 1 as [|c s (_ & _ & _ & _ & Hc & _)%plain_char_cases _ IH]; [done|].
  unfold Py.lower in *. simpl. by rewrite Hc, IH.
Qed.

Lemma lower_char_plain c :
  Py.is_az c || Py.isdigit c || Py.eqc c " " = true → plain_char (Py.lower_char c) = true.
Proof. by destruct c as [[] [] [] [] [] [] [] []]. Qed.

Lemma lower_trimmed (s : text) : trimmed s → trimmed (Py.lower s).
Proof.
  intros [Hh Hl]. split.
  - destruct s as [|c s]; [done|]. simpl. by rewrite lower_char_space.
  - unfold Py.lower. destruct s as [|c s] using rev_ind; [done|].
    rewrite map_app. simpl. rewrite last_snoc in *. by rewrite lower_char_space.
Qed.

(** X14: [_normalize_title] returns a title in normal form, made of lower-case
    letters, digits and single blanks between words, and it leaves a title
    in normal form as it is; so it is idempotent. *)
Theorem normalize_title_canonical (t : text) :
  canonical_title (V.normalize_title t)
  ∧ (∀ n, canonical_title n → V.normalize_title n = n)
  ∧ V.normalize_title (V.normalize_title t) = V.normalize_title t.
Proof.
  assert (canonical_title (V.normalize_title t)) as Hcanonical.
  { unfold V.normalize_title. destruct t as [|c t]; [by repeat split|].
    set (s3 := V.blank_punctuation _).
    destruct (collapse_spaces_spec s3 false (blank_punctuation_spec _)) as [Hchars Hdouble].
    destruct (strip_spec (V.collapse_spaces false s3)) as (l & r & Hs & _ & _ & Htrim).
    rewrite Hs in Hchars, Hdouble.
    apply Forall_app in Hchars as [_ [Hchars _]%Forall_app].
    apply contains_middle in Hdouble. split_and!.
    - unfold Py.lower. apply List.Forall_map.
      eapply Forall_impl; [exact Hchars|]. intros x. apply lower_char_plain.
    - by apply lower_trimmed.
    - by rewrite contains_double_blank_lower. }
  assert (∀ n, canonical_title n → V.normalize_title n = n) as Hfixed.
  { intros n (Hchars & Htrim & Hdouble). unfold V.normalize_title.
    destruct n as [|c n]; [done|].
    rewrite unwrap_commands_plain.
    2:{ intros Hin. eapply Forall_forall in Hchars; [|exact Hin].
        by apply plain_char_cases in Hchars as (? & _). }
    rewrite drop_braces_plain, blank_punctuation_plain by done.
    rewrite collapse_spaces_plain by done.
    rewrite strip_trimmed by done. by apply lower_plain. }
  split_and!; [done|done|by apply Hfixed].
Qed.

(** *** Letter case *)

Lemma lower_cons c (s : text) : Py.lower (c :: s) = Py.lower_char c :: Py.lower s.
Proof. done. Qed.



Lemma lower_char_idemp c : Py.lower_char (Py.lower_char c) = Py.lower_char c.
Proof. by destruct c as [[] [] [] [] [] [] [] []]. Qed.

Lemma lower_idemp (s : text) : Py.lower (Py.lower s) = Py.lower s.
Proof. induction s as [|c s IH]; [done|]. by rewrite !lower_cons, lower_char_idemp, IH. Qed.





















(** ** Include targets *)

Lemma endswith_app (t suffix : text) : Py.endswith suffix (t ++ suffix) = true.
Proof.
  unfold Py.endswith. rewrite rev_app_distr. apply startswith_true. by eexists.
Qed.

Lemma trimmed_strip (s : text) : trimmed (Py.strip s).
Proof. by destruct (strip_spec s) as (? & ? & _ & _ & _ & ?). Qed.

Lemma strip_suffixed (t : text) :
  Py.strip t ≠ [] → Py.strip (Py.strip t ++ ".tex") = Py.strip t ++ ".tex".
Proof.
  intros Hne. apply strip_trimmed. destruct (trimmed_strip t) as [Hh _].
  split.
  - by destruct (Py.strip t).
  - change (txt ".tex") with ([ "."%char; "t"%char; "e"%char] ++ ["x"%char]).
    by rewrite app_assoc, last_snoc.
Qed.

(** What [_resolve_include] returns is a regular file. *)
Lemma include_target_is_file (fs : FileSystem) (project_root base target p : text) :
  resolve_include fs project_root base target = Some p → is_file fs p = true.
Proof.
  unfold resolve_include. destruct (Py.strip target); [done|].
  repeat case_match; naive_solver.
Qed.

(** X16: [_resolve_include] reads a target without the blanks around it and
    with the suffix [.tex], which it adds when the target lacks it: a blank
    target resolves to nothing, and a target resolves the same with and
    without blanks around it, and with and without the suffix.  What a
    target resolves to is a regular file. *)
Theorem include_target_forms (fs : FileSystem) (project_root base target : text) :
  (Py.strip target = [] → resolve_include fs project_root base target = None)
  ∧ resolve_include fs project_root base (Py.strip target)
    = resolve_include fs project_root base target
  ∧ (Py.strip target ≠ [] → Py.endswith ".tex" (Py.strip target) = false →
     resolve_include fs project_root base (Py.strip target ++ ".tex")
     = resolve_include fs project_root base target)
  ∧ (∀ p, resolve_include fs project_root base target = Some p →
          is_file fs p = true).
Proof.
  split_and!.
  - intros H. unfold resolve_include. by rewrite H.
  - unfold resolve_include. by rewrite strip_idemp.
  - intros Hne Hsuffix. unfold resolve_include.
    rewrite strip_suffixed by done. rewrite endswith_app, Hsuffix.
    destruct (Py.strip target) eqn:E; [done|]. done.
  - intros p. apply include_target_is_file.
Qed.

(** ** What a traversal keeps *)

Section Kept.

Context {X : Type}.
Variable fs : FileSystem.
Variable project_root : text.
Variable on_line : text → nat → text → option (list X).

(** [kept st st'] holds of a state and a later one; [known p] of the paths
    that the inclusion directives lead to. *)
Variable kept : State X → State X → Prop.
Variable known : text → Prop.
Hypothesis kept_refl : ∀ st, kept st st.
Hypothesis kept_trans : ∀ st1 st2 st3, kept st1 st2 → kept st2 st3 → kept st1 st3.
Hypothesis kept_collect : ∀ st resolved line_no code found,
  on_line resolved line_no code = Some found →
  kept st {| visited := visited st; ordered := ordered st;
             collected := collected st ++ found |}.
Hypothesis kept_visit : ∀ st p, known p →
  kept st {| visited := {[resolve fs p]} ∪ visited st;
             ordered := ordered st ++ [resolve fs p];
             collected := collected st |}.
Hypothesis known_include : ∀ base target p,
  resolve_include fs project_root base target = Some p → known p.

Let keeps (st : State X) (r : outcome (State X)) : Prop :=
  match r with Done st' => kept st st' | _ => True end.

Lemma walk_targets_keeps (walk_rec : text → State X → outcome (State X))
    resolved targets st :
  (∀ p st', known p → keeps st' (walk_rec p st')) →
  keeps st (walk_targets fs project_root walk_rec resolved targets st).
Proof.
  intros Hrec. revert st. induction targets as [|t targets IH]; intros st; simpl.
  - apply kept_refl.
  - destruct (resolve_include fs project_root resolved t) as [p|] eqn:Hp; [|apply IH].
    pose proof (Hrec p st (known_include _ _ _ Hp)) as Hr.
    destruct (walk_rec p st) as [st'| |]; [|done..].
    specialize (IH st'). unfold keeps in *.
    destruct (walk_targets _ _ _ _ _ st'); [|done..]. by eapply kept_trans.
Qed.

Lemma walk_lines_keeps (walk_rec : text → State X → outcome (State X))
    resolved lines line_no st :
  (∀ p st', known p → keeps st' (walk_rec p st')) →
  keeps st (walk_lines fs project_root on_line walk_rec resolved lines line_no st).
Proof.
  intros Hrec. revert line_no st.
  induction lines as [|l lines IH]; intros line_no st; simpl.
  - apply kept_refl.
  - destruct (on_line resolved line_no (strip_comment l)) as [found|] eqn:Hfound; [|done].
    set (st1 := {| visited := visited st; ordered := ordered st;
                   collected := collected st ++ found |}).
    pose proof (walk_targets_keeps walk_rec resolved
                  (include_targets 0 (strip_comment l)) st1 Hrec) as Hr.
    destruct (walk_targets _ _ _ _ _ st1) as [st'| |]; [|done..].
    specialize (IH (S line_no) st'). unfold keeps in *.
    destruct (walk_lines _ _ _ _ _ _ _ st'); [|done..].
    eapply kept_trans; [|eapply kept_trans; [exact Hr|exact IH]].
    by eapply kept_collect.
Qed.

Lemma walk_keeps depth : ∀ p st,
  known p → keeps st (walk fs project_root on_line depth p st).
Proof.
  induction depth as [|depth IH]; intros p st Hp; [done|].
  cbn [walk]. case_decide; [apply kept_refl|].
  set (st1 := {| visited := {[resolve fs p]} ∪ visited st;
                 ordered := ordered st ++ [resolve fs p];
                 collected := collected st |}).
  assert (kept st st1) as Hvisit by by apply kept_visit.
  destruct (read_text fs (resolve fs p)) as [content|]; [|done].
  pose proof (walk_lines_keeps (walk fs project_root on_line depth) (resolve fs p)
                (Py.splitlines content) 1 st1 IH) as Hr.
  unfold keeps in *. destruct (walk_lines _ _ _ _ _ _ _ st1); [|done..].
  by eapply kept_trans.
Qed.

End Kept.

(** X17: The list of [_collect_main_tex_tree] begins with the entry file; every
    file after it was found as a regular file when an inclusion directive
    was resolved. *)
Theorem tree_begins_with_entry (fs : FileSystem) (depth : nat)
    (main_tex project_root : text) (files : list text) :
  (∀ p, resolve fs (resolve fs p) = resolve fs p) →
  T.collect_main_tex_tree fs depth main_tex project_root = Done files →
  ∃ included, files = resolve fs main_tex :: included
              ∧ Forall (λ p, is_file fs p = true) included.
Proof.
  intros Hresolve. unfold T.collect_main_tex_tree.
  destruct depth as [|depth]; [done|]. cbn [walk].
  case_decide as Hvisited; [by apply elem_of_empty in Hvisited|].
  set (on_line := λ (_ : text) (_ : nat) (_ : text), Some (@nil Empty_set)).
  set (kept := λ st st' : State Empty_set,
         ∃ new, ordered st' = ordered st ++ new
                ∧ Forall (λ p, is_file fs p = true) new).
  set (known := λ p, is_file fs p = true ∧ resolve fs p = p).
  assert (∀ st, kept st st) as Hrefl.
  { intros st. exists []. by rewrite app_nil_r. }
  assert (∀ st1 st2 st3, kept st1 st2 → kept st2 st3 → kept st1 st3) as Htrans.
  { intros st1 st2 st3 (n1 & H1 & F1) (n2 & H2 & F2). exists (n1 ++ n2).
    split; [by rewrite H2, H1, <- app_assoc|by apply Forall_app]. }
  assert (∀ p st, known p →
            match walk fs project_root on_line depth p st with
            | Done st' => kept st st' | _ => True end) as Hwalk.
  { intros p st Hp.
    apply (walk_keeps fs project_root on_line kept known); try done.
    - intros st0 ? ? ? found _. exists []. by rewrite app_nil_r.
    - intros st0 q [Hq1 Hq2]. exists [resolve fs q]. split; [done|].
      rewrite Hq2. by constructor.
    - intros base target q Hq. split.
      + by apply (include_target_is_file fs project_root base target).
      + unfold resolve_include in Hq. destruct (Py.strip target); [done|].
        repeat case_match; simplify_eq; apply Hresolve. }
  destruct (read_text fs (resolve fs main_tex)) as [content|].
  2:{ intros [= <-]. simpl. by exists []. }
  set (st1 := {| visited := {[resolve fs main_tex]} ∪ visited start;
                 ordered := ordered start ++ [resolve fs main_tex];
                 collected := collected start |}).
  pose proof (walk_lines_keeps fs project_root on_line kept known Hrefl Htrans) as Hlines.
  specialize (Hlines ltac:(intros st0 ? ? ? found _; exists []; by rewrite app_nil_r)).
  specialize (Hlines ltac:(intros base target q Hq; split;
    [by apply (include_target_is_file fs project_root base target)
    |unfold resolve_include in Hq; destruct (Py.strip target); [done|];
     repeat case_match; simplify_eq; apply Hresolve])).
  specialize (Hlines (walk fs project_root on_line depth) (resolve fs main_tex)
                (Py.splitlines content) 1 st1 Hwalk).
  destruct (walk_lines _ _ _ _ _ _ _ st1) as [st'| |]; [|done..].
  intros [= <-]. destruct Hlines as (new & -> & Hnew). by exists new.
Qed.

Lemma tree_begins_with_entry_witness :
  ∃ included,
    [txt "/p/a.tex"; txt "/p/b.tex"] = resolve two_files "/p/a.tex" :: included
    ∧ Forall (λ p, is_file two_files p = true) included.
Proof.
  apply (tree_begins_with_entry two_files 3 "/p/a.tex" "/p"); [done|by vm_compute].
Defined.

(** ** The levels of the headings *)

Lemma match_section_command commands s command name rest :
  match_section commands s = Some (command, name, rest) → command ∈ commands.
Proof.
  unfold match_section. destruct s as [|c s1]; [done|].
  destruct (decide (c = "\"%char)) as [->|Hc];
    [|destruct c as [[] [] [] [] [] [] [] []]; simpl; done].
  destruct (list_find _ commands) as [[i cmd]|] eqn:Ef; [|done].
  apply list_find_Some in Ef as (Hi & _ & _).
  cbn [fmap option_fmap option_map snd mbind option_bind].
  intros H. assert (cmd = command) as <-.
  { repeat case_match; by simplify_eq. }
  by eapply list_elem_of_lookup_2.
Qed.

Lemma section_matches_cons commands skip c (s : text) :
  section_matches commands skip (c :: s)
  = match skip with
    | S k => section_matches commands k s
    | O =>
        match match_section commands (c :: s) with
        | Some (command, name, rest) =>
            (command, name) :: section_matches commands (length s - length rest) s
        | None => section_matches commands 0 s
        end
    end.
Proof. done. Qed.

Lemma section_matches_command commands s : ∀ skip command name,
  (command, name) ∈ section_matches commands skip s → command ∈ commands.
Proof.
  induction s as [|c s IH]; intros skip command name.
  - by intros ?%elem_of_nil.
  - rewrite section_matches_cons. destruct skip as [|k]; [|apply IH].
    destruct (match_section commands (c :: s)) as [[[cmd nm] rest]|] eqn:E; [|apply IH].
    intros [[= -> ->]|H]%elem_of_cons; [by eapply match_section_command|by eapply IH].
Qed.

Lemma section_level_leveled command :
  command ∈ P.section_commands → (command, P.section_level command) ∈ leveled_commands.
Proof.
  unfold P.section_commands, leveled_commands.
  rewrite !elem_of_cons, elem_of_nil. intros [->|[->|[->|[->|[->|[]]]]]];
    compute_done.
Qed.

(** X18: Every heading that [_extract_sections] of [parse_latex_structure.py]
    returns carries one of the five commands with its level, from 1 for
    [\section] to 5 for [\subparagraph]; the level 0 that the lookup of the
    level falls back on does not occur.  Its name has no whitespace around
    it. *)
Theorem section_levels_known (fs : FileSystem) (depth : nat)
    (main_tex project_root : text) (sections : list P.Section_)
    (traversed : gset text) :
  P.extract_sections fs depth main_tex project_root = Done (sections, traversed) →
  Forall (λ s, (P.s_command s, P.s_level s) ∈ leveled_commands
               ∧ Py.strip (P.s_name s) = P.s_name s) sections.
Proof.
  unfold P.extract_sections.
  set (Q := λ s, (P.s_command s, P.s_level s) ∈ leveled_commands
                 ∧ Py.strip (P.s_name s) = P.s_name s).
  set (kept := λ st st' : State P.Section_,
         Forall Q (collected st) → Forall Q (collected st')).
  assert (∀ st resolved line_no code found,
            P.sections_of_line fs project_root resolved line_no code = Some found →
            kept st {| visited := visited st; ordered := ordered st;
                       collected := collected st ++ found |}) as Hcollect.
  { intros st resolved line_no code found Hfound Hst. simpl.
    apply Forall_app. split; [done|].
    unfold P.sections_of_line in Hfound. apply mapM_Some_1 in Hfound.
    eapply Forall2_impl_elem_of in Hfound.
    - eapply Forall2_Forall_r; [exact Hfound|]. intros x y H. exact H.
    - intros [command name] s Hin Hs. simpl in Hs.
      destruct (relative_to fs resolved project_root); [|done].
      simpl in Hs. injection Hs as <-. split; simpl.
      + apply section_level_leveled. by eapply section_matches_command.
      + apply strip_idemp. }
  pose proof (walk_keeps fs project_root (P.sections_of_line fs project_root)
                kept (λ _, True)) as Hwalk.
  specialize (Hwalk (λ st H, H) (λ st1 st2 st3 H12 H23 H, H23 (H12 H)) Hcollect).
  specialize (Hwalk (λ st p _ H, H) (λ _ _ _ _, I) depth main_tex start I).
  destruct (walk fs project_root _ depth main_tex start) as [st| |]; [|done..].
  intros [= <- _]. apply Hwalk. constructor.
Qed.

Lemma section_levels_known_witness :
  Forall (λ s, (P.s_command s, P.s_level s) ∈ leveled_commands
               ∧ Py.strip (P.s_name s) = P.s_name s)
    [ {| P.s_name := "One"; P.s_level := 1; P.s_command := "section";
         P.s_file := "a.tex"; P.s_line := 1 |};
      {| P.s_name := "Two"; P.s_level := 2; P.s_command := "subsection";
         P.s_file := "b.tex"; P.s_line := 1 |} ].
Proof.
  apply (section_levels_known two_files 3 "/p/a.tex" "/p" _
           {[txt "/p/a.tex"; txt "/p/b.tex"]}).
  vm_cast_no_check (eq_refl (P.extract_sections two_files 3 "/p/a.tex" "/p")).
Defined.

(** ** The main file *)

Lemma first_with_documentclass_spec read tex_files :
  match first_with_documentclass read tex_files with
  | Some (Some path) =>
      ∃ i, tex_files !! i = Some path ∧ declares_class read path
           ∧ ∀ j q, j < i → tex_files !! j = Some q → ¬ declares_class read q
  | Some None => ∀ q, q ∈ tex_files → ¬ declares_class read q
  | None => True
  end.
Proof.
  induction tex_files as [|p files IH]; cbn [first_with_documentclass].
  - by intros q ?%elem_of_nil.
  - destruct (read p) as [content|] eqn:Hread; cbn [mbind option_bind]; [|done].
    destruct (Py.contains "\documentclass" content) eqn:Hclass.
    + exists 0. split_and!; [done|by exists content|]. intros j q Hj. lia.
    + assert (¬ declares_class read p) as Hp.
      { intros (content' & Hc & Hd). congruence. }
      destruct (first_with_documentclass read files) as [[path|]|]; [| |done].
      * destruct IH as (i & Hi & Hd & Hbefore). exists (S i).
        split_and!; [done|done|]. intros [|j] q Hj Hq; simplify_eq/=; [done|].
        eapply Hbefore; [|done]. lia.
      * intros q [->|Hq]%elem_of_cons; auto.
Qed.

(** X19: [_find_main_tex] returns no file only when it is given none.  The file
    it returns is the first of the files whose text holds [\documentclass],
    or the first file of all when no file does. *)
Theorem main_tex_choice (read : text → option text) (tex_files : list text) :
  (find_main_tex read tex_files = Some None ↔ tex_files = [])
  ∧ ∀ path, find_main_tex read tex_files = Some (Some path) →
      (∃ i, tex_files !! i = Some path ∧ declares_class read path
            ∧ ∀ j q, j < i → tex_files !! j = Some q → ¬ declares_class read q)
      ∨ (head tex_files = Some path ∧ ∀ q, q ∈ tex_files → ¬ declares_class read q).
Proof.
  unfold find_main_tex.
  pose proof (first_with_documentclass_spec read tex_files) as Hspec.
  destruct (first_with_documentclass read tex_files) as [[found|]|] eqn:E; simpl.
  - split.
    + split; [done|]. intros ->. by simplify_eq/=.
    + intros path [= <-]. by left.
  - split.
    + split; [|by intros ->]. by destruct tex_files.
    + intros path [= Hhead]. by right.
  - split; [|done]. split; [done|]. intros ->. by simplify_eq/=.
Qed.

(** ** Records that are closed *)

Lemma brace_scan_nesting (s rest : text) : ∀ depth depth',
  nesting depth s = Some depth' →
  V.brace_scan (S depth) (s ++ rest)
  = let '(final, scanned, remaining) := V.brace_scan (S depth') rest in
    (final, s ++ scanned, remaining).
Proof.
  induction s as [|c s IH]; intros depth depth' H.
  - simpl in H. injection H as <-. simpl app. by destruct (V.brace_scan _ rest) as [[? ?] ?].
  - cbn [nesting] in H. cbn [app V.brace_scan].
    destruct (Py.eqc c "{") eqn:Hopen.
    + rewrite (IH _ _ H). by destruct (V.brace_scan _ rest) as [[? ?] ?].
    + destruct (Py.eqc c "}") eqn:Hclose.
      * destruct depth as [|d]; [done|]. rewrite (IH _ _ H).
        by destruct (V.brace_scan _ rest) as [[? ?] ?].
      * rewrite (IH _ _ H). by destruct (V.brace_scan _ rest) as [[? ?] ?].
Qed.

Lemma brace_scan_block (block rest : text) :
  balanced block →
  V.brace_scan 1 (block ++ "}"%char :: rest) = (0, block ++ ["}"%char], rest).
Proof.
  intros H. rewrite (brace_scan_nesting block _ 0 0 H). cbn [V.brace_scan].
  rewrite eqc_refl. assert (Py.eqc "}" "{" = false) as -> by done. by destruct rest.
Qed.

Lemma parse_entries_from_text rel (pre s : text) : ∀ nl,
  "@"%char ∉ pre →
  V.parse_entries_from rel 0 nl (pre ++ s)
  = V.parse_entries_from rel 0 (nl + Py.count "010" pre) s.
Proof.
  induction pre as [|c pre IH]; intros nl Hpre.
  - simpl. by rewrite Nat.add_0_r.
  - apply not_elem_of_cons in Hpre as [Hc Hpre]. cbn [app].
    rewrite parse_entries_from_other, IH by done. f_equal.
    change (c :: pre) with ([c] ++ pre). rewrite count_app. lia.
Qed.

Lemma without_last_snoc (s : text) c : V.without_last (s ++ [c]) = s.
Proof.
  unfold V.without_last. rewrite length_app. simpl.
  rewrite Nat.add_sub. by rewrite take_app_length.
Qed.

Lemma entry_of_block_fields rel ty line_no (key fields : text) :
  ","%char ∉ key →
  V.entry_of_block rel (Py.lower ty) line_no (key ++ "," ++ fields)
  = Some (entry_with rel line_no ty key fields).
Proof.
  intros Hkey. unfold V.entry_of_block.
  assert (Py.split_at_first "," (key ++ "," ++ fields) = Some (key, fields)) as ->
    by by apply split_at_first_Some.
  done.
Qed.

(** X20: A record [@type{key, fields}] whose braces are paired yields one
    entry: its key is what precedes the first comma, without the blanks
    around it; its type is in lower case; its line is that of the [@],
    counted in line feeds from 1; its fields are read from what follows the
    comma, [eprint] taking precedence over [arxiv].  The parsing goes on
    after the closing brace. *)
Theorem closed_record_parsed (rel pre ty ws key fields post : text) :
  "@"%char ∉ pre → header ty ws → ","%char ∉ key →
  balanced (key ++ "," ++ fields) →
  V.parse_bib_entries
    [(rel, pre ++ "@" ++ ty ++ ws ++ "{" ++ key ++ "," ++ fields ++ "}" ++ post)]
  = entry_with rel (Py.count "010" pre + 1) ty key fields
    :: V.parse_entries_from rel 0
         (Py.count "010"
            (pre ++ "@" ++ ty ++ ws ++ "{" ++ key ++ "," ++ fields ++ "}"))
         post.
Proof.
  intros Hpre Hheader Hkey Hbalanced. unfold V.parse_bib_entries.
  cbn [fmap list_fmap concat]. rewrite app_nil_r.
  set (block := key ++ "," ++ fields) in *.
  assert (∀ front : text,
            front ++ "@" ++ ty ++ ws ++ "{" ++ key ++ "," ++ fields ++ "}" ++ post
            = front ++ "@"%char :: ty ++ ws ++ "{"%char :: block ++ "}"%char :: post)
    as Hcontent.
  { intros front. unfold block. by rewrite <- !app_assoc. }
  assert (∀ front : text,
            front ++ "@" ++ ty ++ ws ++ "{" ++ key ++ "," ++ fields ++ "}"
            = front ++ "@"%char :: ty ++ ws ++ "{"%char :: block ++ ["}"%char])
    as Hrecord.
  { intros front. unfold block. by rewrite <- !app_assoc. }
  rewrite Hcontent, Hrecord.
  rewrite parse_entries_from_text by done.
  pose proof (brace_scan_block block post Hbalanced) as Hscan.
  rewrite (closed_record_continues rel _ ty ws _ _ post Hheader Hscan).
  rewrite without_last_snoc. unfold block at 1.
  rewrite entry_of_block_fields by done. simpl option_list. cbn [app].
  f_equal. f_equal. by rewrite count_app.
Qed.

Lemma closed_record_parsed_witness :
  V.parse_bib_entries [(txt "refs.bib", one_record)]
  = [ {| V.key := "lecun2015"; V.entry_type := "article"; V.file := "refs.bib";
         V.line := 2; V.title := "Deep {L}earning"; V.author := ""; V.year := "2015";
         V.doi := ""; V.arxiv := "1234.5678" |} ].
Proof.
  refine (eq_trans
    (closed_record_parsed "refs.bib" ("% my references" ++ newline) "Article" []
       " lecun2015 " " title = {Deep {L}earning}, year = 2015, eprint = {1234.5678} "
       newline _ _ _ _) _).
  - compute_done.
  - split_and!; [done|by repeat constructor|constructor].
  - compute_done.
  - by vm_compute.
  - by vm_compute.
Defined.

(** ** Fields *)

Lemma parse_fields_from_cons skip fields c (s : text) :
  V.parse_fields_from skip fields (c :: s)
  = match skip with
    | S k => V.parse_fields_from k fields s
    | O =>
        match V.parse_field (c :: s) with
        | None => fields
        | Some (None, rest) => V.parse_fields_from (length s - length rest) fields s
        | Some (Some (name, value), rest) =>
            V.parse_fields_from (length s - length rest) (<[name := value]> fields) s
        end
    end.
Proof. done. Qed.

Lemma parse_fields_from_skip (p r : text) fields :
  V.parse_fields_from (length p) fields (p ++ r) = V.parse_fields_from 0 fields r.
Proof.
  induction p as [|c p IH]; [done|]. cbn [app length]. by rewrite parse_fields_from_cons.
Qed.

Lemma parse_fields_from_separators (seps r : text) fields :
  Forall (λ c, V.is_separator c = true) seps →
  V.parse_fields_from 0 fields (seps ++ r) = V.parse_fields_from 0 fields r.
Proof.
  induction 1 as [|c seps Hc _ IH]; [done|]. cbn [app].
  rewrite parse_fields_from_cons. unfold V.parse_field. rewrite Hc.
  by rewrite Nat.sub_diag.
Qed.

Lemma quote_scan_closed (v r : text) : ∀ prev,
  "034"%char ∉ v → last (prev :: v) ≠ Some "\"%char →
  V.quote_scan prev (v ++ "034"%char :: r) = (v, "034"%char :: r).
Proof.
  induction v as [|c v IH]; intros prev Hquote Hlast.
  - cbn [app V.quote_scan]. rewrite eqc_refl.
    rewrite eqc_ne; [done|]. intros ->. by apply Hlast.
  - apply not_elem_of_cons in Hquote as [Hc Hquote].
    cbn [app V.quote_scan]. rewrite (eqc_ne c "034") by done. cbn [andb].
    rewrite IH; [done|done|]. by rewrite last_cons_cons in Hlast.
Qed.

Lemma parse_value_bare c (s : text) :
  c ≠ "{"%char → c ≠ "034"%char →
  V.parse_value (c :: s)
  = Py.span (λ c, negb (Py.eqc c "," || Py.eqc c "010" || Py.eqc c "013")) (c :: s).
Proof. intros H1 H2. by destruct c as [[] [] [] [] [] [] [] []]. Qed.

Lemma parse_value_written d (v r : text) :
  writable d v →
  V.parse_value (written d v ++ ","%char :: r) = (v, ","%char :: r).
Proof.
  destruct d; simpl written.
  - intros Hv. cbn [app]. unfold V.parse_value.
    rewrite <- app_assoc. cbn [app].
    rewrite (brace_scan_block v _ Hv). by rewrite without_last_snoc.
  - intros [Hquote Hlast]. cbn [app]. unfold V.parse_value.
    rewrite <- app_assoc. cbn [app]. rewrite quote_scan_closed; [done|done|].
    destruct v as [|c v]; [done|]. by rewrite last_cons_cons.
  - intros [Hhead Hchars]. destruct v as [|c v]; [done|].
    destruct Hhead as (_ & H1 & H2). cbn [app]. rewrite parse_value_bare by done.
    change (c :: v ++ ","%char :: r) with ((c :: v) ++ ","%char :: r).
    apply span_app; [|done].
    eapply Forall_impl; [exact Hchars|]. intros x (? & ? & ?).
    by rewrite !eqc_ne.
Qed.

Lemma written_head d v :
  writable d v →
  match written d v with c :: _ => Py.isspace c = false | [] => False end.
Proof.
  destruct d; simpl; [done|done|]. intros [Hhead _]. destruct v; [done|]. by destruct Hhead.
Qed.

Lemma name_char_not_space c : Py.isspace c = true → V.is_name_char c = false.
Proof. by destruct c as [[] [] [] [] [] [] [] []]. Qed.

(** One round of the loop on a field that is well written. *)
Lemma parse_field_written (f : Field) (r : text) :
  well_written f →
  V.parse_field (f_name f ++ " = " ++ written (f_delimiters f) (f_value f)
                   ++ ","%char :: r)
  = Some (Some (Py.lower (f_name f), stored (f_value f)), ","%char :: r).
Proof.
  intros [Hname Hvalue]. destruct (f_name f) as [|c more] eqn:En; [done|].
  destruct Hname as [Hc Hmore]. cbn [app]. unfold V.parse_field.
  rewrite (is_az_not_separator c Hc). unfold V.match_field_name. rewrite Hc.
  rewrite (span_app _ more) by done.
  change (txt " = " ++ ?x) with (" "%char :: "="%char :: " "%char :: x).
  pose proof (written_head _ _ Hvalue) as Hhead.
  destruct (written (f_delimiters f) (f_value f)) as [|w ws] eqn:Ew; [done|].
  assert (Py.span Py.isspace (" "%char :: "="%char :: " "%char :: (w :: ws) ++ ","%char :: r)
          = ([" "%char], "="%char :: " "%char :: (w :: ws) ++ ","%char :: r)) as -> by done.
  cbn [snd].
  assert (Py.span Py.isspace (" "%char :: (w :: ws) ++ ","%char :: r)
          = ([" "%char], (w :: ws) ++ ","%char :: r)) as ->.
  { simpl. by rewrite Hhead. }
  cbn [snd app]. change (w :: ws ++ ","%char :: r) with ((w :: ws) ++ ","%char :: r).
  rewrite <- Ew, parse_value_written by done. done.
Qed.

(** The loop over a field on its line. *)
Lemma parse_fields_from_line (f : Field) (r : text) fields :
  well_written f →
  V.parse_fields_from 0 fields (field_line f ++ r)
  = V.parse_fields_from 0 (<[Py.lower (f_name f) := stored (f_value f)]> fields) r.
Proof.
  intros Hf. unfold field_line. rewrite <- !app_assoc.
  rewrite (parse_fields_from_separators "  ") by (by repeat constructor).
  destruct (f_name f) as [|c more] eqn:En; [by destruct Hf as [Hname _]; rewrite En in Hname|].
  cbn [app]. rewrite parse_fields_from_cons.
  change (c :: more ++ ?x) with ((c :: more) ++ x). rewrite <- En.
  change (txt "," ++ ?x) with (","%char :: x).
  rewrite parse_field_written by done.
  set (consumed := more ++ " = " ++ written (f_delimiters f) (f_value f)).
  replace (more ++ " = " ++ written (f_delimiters f) (f_value f)
             ++ ","%char :: newline ++ r)
    with (consumed ++ ","%char :: newline ++ r)
    by (unfold consumed; by rewrite <- !app_assoc).
  rewrite length_app, Nat.add_sub, parse_fields_from_skip.
  apply (parse_fields_from_separators (","%char :: newline)). by repeat constructor.
Qed.

Lemma parse_fields_from_text fs : ∀ fields,
  Forall well_written fs →
  V.parse_fields_from 0 fields (fields_text fs)
  = foldl (λ m f, <[Py.lower (f_name f) := stored (f_value f)]> m) fields fs.
Proof.
  induction fs as [|f fs IH]; intros fields Hfs; [done|].
  apply Forall_cons in Hfs as [Hf Hfs]. unfold fields_text. cbn [fmap list_fmap concat foldl].
  rewrite parse_fields_from_line by done. by apply IH.
Qed.

(** X21: [_parse_bib_fields] reads back the fields that are written one on a
    line as [name = value,] with the value in braces, in double quotes or
    bare: each name is stored in lower case with its value, the whitespace
    of the value reduced to single blanks, and a field that is given again
    replaces the earlier one. *)
Theorem fields_round_trip (fs : list Field) :
  Forall well_written fs → V.parse_bib_fields (fields_text fs) = fields_map fs.
Proof. apply parse_fields_from_text. Qed.

Lemma fields_round_trip_witness :
  V.parse_bib_fields (fields_text sample_fields)
  = <[txt "year" := txt "2015"]>
      (<[txt "note" := txt "in {press"]>
         (<[txt "year" := txt "2014"]>
            (<[txt "title" := txt "Deep {L}earning"]> ∅))).
Proof.
  rewrite (fields_round_trip sample_fields).
  - unfold fields_map, sample_fields. cbn [foldl f_name f_value].
    repeat f_equal; vm_compute; reflexivity.
  - repeat constructor; try done; try compute_done.
Defined.

(** ** What the entries of a bibliography hold *)

Lemma split_go_words (s : text) : ∀ cur,
  Forall (λ c, Py.isspace c = false) cur → Forall wordlike (Py.split_go cur s).
Proof.
  assert (∀ cur : text, cur ≠ [] → Forall (λ c, Py.isspace c = false) cur →
            wordlike (rev cur)) as Hrev.
  { intros cur Hne Hcur. split; [|by apply Forall_rev].
    intros H. apply Hne. by rewrite <- (rev_involutive cur), H. }
  induction s as [|c s IH]; intros cur Hcur; simpl.
  - destruct cur as [|x cur]; [constructor|]. constructor; [by apply Hrev|constructor].
  - destruct (Py.isspace c) eqn:Hc.
    + destruct cur as [|x cur]; [by apply IH|].
      constructor; [by apply Hrev|by apply IH].
    + apply IH. by constructor.
Qed.

Lemma split_go_word (w : text) : ∀ cur rest,
  Forall (λ c, Py.isspace c = false) w →
  Py.split_go cur (w ++ rest) = Py.split_go (rev w ++ cur) rest.
Proof.
  induction w as [|c w IH]; intros cur rest Hw; [done|].
  apply Forall_cons in Hw as [Hc Hw]. cbn [app Py.split_go]. rewrite Hc.
  rewrite IH by done. simpl. by rewrite <- app_assoc.
Qed.

Lemma split_join (ws : list text) :
  Forall wordlike ws → Py.split (Py.join " " ws) = ws.
Proof.
  unfold Py.split. induction 1 as [|w ws [Hne Hw] Hws IH]; [done|].
  destruct ws as [|w' ws].
  - cbn [Py.join]. rewrite <- (app_nil_r w) at 1. rewrite split_go_word by done.
    rewrite app_nil_r. simpl. destruct (rev w) eqn:E.
    + exfalso. apply Hne. by rewrite <- (rev_involutive w), E.
    + by rewrite <- E, rev_involutive.
  - change (Py.join " " (w :: w' :: ws))
      with (w ++ " "%char :: Py.join " " (w' :: ws)).
    rewrite split_go_word by done. rewrite app_nil_r. cbn [Py.split_go].
    assert (Py.isspace " " = true) as -> by done.
    destruct (rev w) eqn:E.
    + exfalso. apply Hne. by rewrite <- (rev_involutive w), E.
    + rewrite <- E, rev_involutive. by rewrite IH.
Qed.

Lemma single_spaced_join (x : text) : single_spaced (Py.join " " (Py.split x)).
Proof.
  unfold single_spaced. rewrite split_join; [done|]. by apply split_go_words.
Qed.

Lemma parse_value_stored (s : text) name value rest :
  V.parse_field s = Some (Some (name, value), rest) →
  Py.lower name = name ∧ single_spaced value.
Proof.
  unfold V.parse_field. destruct s as [|c s']; [done|].
  destruct (V.is_separator c); [done|].
  destruct (V.match_field_name (c :: s')) as [[nm after]|]; [|done].
  destruct (snd (Py.span Py.isspace after)) as [|x v]; [done|].
  destruct (V.parse_value (x :: v)) as [val r]. intros [= <- <- <-].
  split; [apply lower_idemp|apply single_spaced_join].
Qed.

Lemma parse_fields_from_stored (s : text) : ∀ skip fields,
  map_Forall (λ name value, Py.lower name = name ∧ single_spaced value) fields →
  map_Forall (λ name value, Py.lower name = name ∧ single_spaced value)
    (V.parse_fields_from skip fields s).
Proof.
  induction s as [|c s IH]; intros skip fields Hfields; [done|].
  rewrite parse_fields_from_cons. destruct skip as [|k]; [|by apply IH].
  destruct (V.parse_field (c :: s)) as [[[[name value]|] rest]|] eqn:E; [| |done].
  - apply IH. apply map_Forall_insert_2; [|done]. by eapply parse_value_stored.
  - by apply IH.
Qed.

Lemma field_stored (s name : text) : single_spaced (V.field (V.parse_bib_fields s) name).
Proof.
  unfold V.field, V.parse_bib_fields.
  pose proof (parse_fields_from_stored s 0 ∅ (map_Forall_empty _)) as H.
  destruct (V.parse_fields_from 0 ∅ s !! name) as [v|] eqn:E; [|done].
  by apply H in E as [_ ?].
Qed.

Lemma arxiv_stored (s : text) :
  single_spaced (default (V.field (V.parse_bib_fields s) "arxiv")
                   (V.parse_bib_fields s !! txt "eprint")).
Proof.
  destruct (V.parse_bib_fields s !! txt "eprint") as [v|] eqn:E; [|apply field_stored].
  pose proof (parse_fields_from_stored s 0 ∅ (map_Forall_empty _)) as H.
  by apply H in E as [_ ?].
Qed.

Lemma entry_of_block_spec rel ty line_no block e :
  V.entry_of_block rel ty line_no block = Some e →
  V.file e = rel ∧ V.line e = line_no ∧ V.entry_type e = ty
  ∧ Py.strip (V.key e) = V.key e ∧ (","%char ∉ V.key e)
  ∧ Forall single_spaced [V.title e; V.author e; V.year e; V.doi e; V.arxiv e].
Proof.
  unfold V.entry_of_block.
  destruct (Py.split_at_first "," block) as [[before fields_text]|] eqn:Es; [|done].
  apply split_at_first_Some in Es as [_ Hcomma]. intros [= <-].
  cbn [V.file V.line V.entry_type V.key V.title V.author V.year V.doi V.arxiv].
  split_and!; [done|done|done|apply strip_idemp| |].
  - intros Hin%elem_of_strip. done.
  - repeat apply Forall_cons_2; [exact (field_stored _ _)..|exact (arxiv_stored _)|constructor].
Qed.

Lemma match_header_word s word body :
  V.match_header s = Some (word, body) → word ≠ [].
Proof.
  unfold V.match_header. destruct s as [|c s1]; [done|].
  destruct (decide (c = "@"%char)) as [->|Hc];
    [|destruct c as [[] [] [] [] [] [] [] []]; simpl; done].
  destruct (Py.span Py.isword s1) as [[|w ws] s2]; [done|].
  repeat case_match; by intros [= <- <-].
Qed.

Lemma parse_record_spec rel line_no s e rest :
  V.parse_record rel line_no s = Some (Some e, rest) →
  V.file e = rel ∧ V.line e = line_no
  ∧ V.entry_type e ≠ [] ∧ Py.lower (V.entry_type e) = V.entry_type e
  ∧ Py.strip (V.key e) = V.key e ∧ (","%char ∉ V.key e)
  ∧ Forall single_spaced [V.title e; V.author e; V.year e; V.doi e; V.arxiv e].
Proof.
  unfold V.parse_record. destruct (V.match_header s) as [[word body]|] eqn:Eh; [|done].
  apply match_header_word in Eh.
  destruct (V.brace_scan 1 body) as [[depth scanned] r]. destruct depth; [|done].
  destruct (V.entry_of_block _ _ _ _) as [e'|] eqn:Ee; [|done].
  intros [= <- <-]. apply entry_of_block_spec in Ee as (? & ? & Hty & ? & ? & ?).
  split_and!; try done.
  - rewrite Hty. destruct word; [done|]. done.
  - rewrite Hty. apply lower_idemp.
Qed.

Lemma parse_entries_from_spec rel (s : text) : ∀ skip nl e,
  e ∈ V.parse_entries_from rel skip nl s →
  V.file e = rel ∧ nl + 1 ≤ V.line e ≤ nl + Py.count "010" s + 1
  ∧ V.entry_type e ≠ [] ∧ Py.lower (V.entry_type e) = V.entry_type e
  ∧ Py.strip (V.key e) = V.key e ∧ (","%char ∉ V.key e)
  ∧ Forall single_spaced [V.title e; V.author e; V.year e; V.doi e; V.arxiv e].
Proof.
  induction s as [|c s IH]; intros skip nl e; [by intros ?%elem_of_nil|].
  cbn [V.parse_entries_from]. rewrite count_cons.
  assert (∀ k, e ∈ V.parse_entries_from rel k
                    (if Py.eqc c "010" then S nl else nl) s →
            V.file e = rel
            ∧ nl + 1 ≤ V.line e ≤ nl + ((if Py.eqc c "010" then 1 else 0) + Py.count "010" s) + 1
            ∧ V.entry_type e ≠ [] ∧ Py.lower (V.entry_type e) = V.entry_type e
            ∧ Py.strip (V.key e) = V.key e ∧ (","%char ∉ V.key e)
            ∧ Forall single_spaced [V.title e; V.author e; V.year e; V.doi e; V.arxiv e])
    as Hlater.
  { intros k (? & ? & ?)%IH. split; [done|]. split; [|done].
    destruct (Py.eqc c "010"); lia. }
  destruct skip as [|k]; [|apply Hlater].
  destruct (Py.eqc c "@") eqn:Hat; [|apply Hlater].
  destruct (V.parse_record rel (nl + 1) (c :: s)) as [[entry rest]|] eqn:Er;
    [|by intros ?%elem_of_nil].
  intros [Hin|Hin]%elem_of_app; [|by eapply Hlater].
  destruct entry as [e'|]; [|by apply elem_of_nil in Hin].
  apply list_elem_of_singleton in Hin as ->.
  apply parse_record_spec in Er as (? & -> & ?). split; [done|]. split; [lia|done].
Qed.

(** X22: Every entry that [_parse_bib_entries] returns names one of the files
    read and a line of it, counted in line feeds.  Its key has no
    whitespace around it and no comma in it; its type is not empty and in
    lower case; in its title, author, year, identifier and preprint number
    the words are separated by single blanks. *)
Theorem parsed_entries_well_formed (bib_files : list (text * text)) (e : V.BibEntry) :
  e ∈ V.parse_bib_entries bib_files →
  (∃ content, (V.file e, content) ∈ bib_files
              ∧ 1 ≤ V.line e ≤ Py.count "010" content + 1)
  ∧ Py.strip (V.key e) = V.key e ∧ (","%char ∉ V.key e)
  ∧ V.entry_type e ≠ [] ∧ Py.lower (V.entry_type e) = V.entry_type e
  ∧ Forall single_spaced [V.title e; V.author e; V.year e; V.doi e; V.arxiv e].
Proof.
  unfold V.parse_bib_entries. rewrite elem_of_concat.
  intros (l & ([rel content] & -> & Hfile)%list_elem_of_fmap & He).
  apply parse_entries_from_spec in He as (<- & Hline & ? & ? & ? & ? & ?).
  split_and!; try done. exists content. split; [done|lia].
Qed.

Lemma parsed_entries_well_formed_witness :
  let e := entry_with "refs.bib" 2 "Article" " lecun2015 "
             " title = {Deep {L}earning}, year = 2015, eprint = {1234.5678} " in
  (∃ content, (V.file e, content) ∈ [(txt "refs.bib", one_record)]
              ∧ 1 ≤ V.line e ≤ Py.count "010" content + 1)
  ∧ Py.strip (V.key e) = V.key e ∧ (","%char ∉ V.key e)
  ∧ V.entry_type e ≠ [] ∧ Py.lower (V.entry_type e) = V.entry_type e
  ∧ Forall single_spaced [V.title e; V.author e; V.year e; V.doi e; V.arxiv e].
Proof.
  apply (parsed_entries_well_formed [(txt "refs.bib", one_record)]).
  vm_compute. left.
Defined.

(** ** Comments *)

Lemma replace_from_cons old new skip c (s : text) :
  Py.replace_from old new skip (c :: s)
  = match skip with
    | S k => Py.replace_from old new k s
    | O =>
        if Py.startswith old (c :: s)
        then new ++ Py.replace_from old new (length old - 1) s
        else c :: Py.replace_from old new 0 s
    end.
Proof. done. Qed.

(** No escaped comment character begins in a text that holds no comment
    character and does not end with a backslash, whatever follows it. *)
Lemma replace_escaped_code (code rest : text) :
  "%"%char ∉ code → last code ≠ Some "\"%char →
  Py.replace escaped_percent PERCENT (code ++ "%"%char :: rest)
  = code ++ Py.replace escaped_percent PERCENT ("%"%char :: rest).
Proof.
  unfold Py.replace. induction code as [|c code IH]; intros Hp Hlast; [done|].
  apply not_elem_of_cons in Hp as [Hc Hp]. cbn [app].
  rewrite replace_from_cons.
  assert (Py.startswith escaped_percent (c :: code ++ "%"%char :: rest) = false) as ->.
  { unfold escaped_percent. simpl. destruct code as [|d code]; simpl.
    - rewrite eqc_ne; [done|]. intros <-. by apply Hlast.
    - apply not_elem_of_cons in Hp as [Hd _]. rewrite (eqc_ne "%" d) by done.
      by rewrite andb_false_r. }
  f_equal. apply IH; [done|]. destruct code; [done|]. by rewrite last_cons_cons in Hlast.
Qed.

Lemma before_first_code c (code rest : text) :
  c ∉ code → Py.before_first c (code ++ c :: rest) = code.
Proof.
  induction code as [|x code IH]; simpl.
  - by rewrite eqc_refl.
  - intros [Hx Hcode]%not_elem_of_cons. rewrite eqc_ne by done. f_equal. auto.
Qed.

Lemma replace_escaped_head (rest : text) :
  ∃ rest', Py.replace escaped_percent PERCENT ("%"%char :: rest) = "%"%char :: rest'.
Proof. unfold Py.replace. rewrite replace_from_cons. simpl. eauto. Qed.

(** The comment stripper returns the code that precedes a comment as it
    is, whatever the comment holds, when the code has no comment character
    of its own, does not end with a backslash and does not hold the
    placeholder of the stripper. *)
Lemma strip_comment_code (code comment : text) :
  "%"%char ∉ code → last code ≠ Some "\"%char → Py.contains PERCENT code = false →
  strip_comment (code ++ "%" ++ comment) = code.
Proof.
  intros Hp Hlast Hs. unfold strip_comment.
  change (txt "%" ++ comment) with ("%"%char :: comment).
  rewrite replace_escaped_code by done.
  destruct (replace_escaped_head comment) as [rest' ->].
  rewrite before_first_code by done. by apply replace_absent.
Qed.

(** X23: What stands in a comment yields no citation: a line with a comment
    gives the citations of the code before the comment, whatever the
    comment holds. *)
Theorem commented_citations_ignored (rel : text) (line_no : nat) (code comment : text) :
  "%"%char ∉ code → last code ≠ Some "\"%char → Py.contains PERCENT code = false →
  citations_of_line rel line_no (code ++ "%" ++ comment)
  = citations_of_line rel line_no code.
Proof.
  intros Hp Hlast Hs. unfold citations_of_line.
  by rewrite strip_comment_code, strip_comment_plain.
Qed.

Lemma commented_citations_ignored_witness :
  citations_of_line "main.tex" 4
    ("As shown \citep{knuth_84}. " ++ "%" ++ " see also \cite{old_one} 100\%")
  = citations_of_line "main.tex" 4 "As shown \citep{knuth_84}. ".
Proof.
  apply (commented_citations_ignored "main.tex" 4 "As shown \citep{knuth_84}. "
           " see also \cite{old_one} 100\%").
  - compute_done.
  - by vm_compute.
  - by vm_compute.
Defined.

(** ** References that are found *)

Lemma match_ref_head c (s : text) : c ≠ "\"%char → match_ref (c :: s) = None.
Proof. intros Hc. by destruct c as [[] [] [] [] [] [] [] []]. Qed.

Lemma ref_matches_no_backslash (pre t : text) :
  "\"%char ∉ pre → ref_matches 0 (pre ++ t) = ref_matches 0 t.
Proof.
  induction pre as [|c pre IH]; [done|]. intros [Hc Hpre]%not_elem_of_cons.
  cbn [app]. rewrite ref_matches_cons, match_ref_head by done. auto.
Qed.

Lemma find_ref_command command (t : text) :
  command ∈ ref_commands →
  snd <$> list_find (λ cmd, Py.startswith cmd (command ++ "{" ++ t) = true) ref_commands
  = Some command.
Proof.
  intros Hcmd.
  assert (∃ i, list_find (λ cmd, Py.startswith cmd (command ++ "{" ++ t) = true)
                 ref_commands = Some (i, command)) as [i ->]; [|done].
  assert (∀ i, ref_commands !! i = Some command →
               (∀ j y, ref_commands !! j = Some y → j < i →
                       ¬ ∃ rest, command ++ "{" ++ t = y ++ rest) →
               list_find (λ cmd, Py.startswith cmd (command ++ "{" ++ t) = true)
                 ref_commands = Some (i, command)) as Hfind.
  { intros i Hi Hearlier. apply list_find_Some.
    split_and!; [done|apply startswith_true; by eexists|].
    intros j y Hj Hlt ?%startswith_true. by eapply Hearlier. }
  unfold ref_commands in Hcmd.
  repeat (apply elem_of_cons in Hcmd as [->|Hcmd]); [..|by apply elem_of_nil in Hcmd].
  - exists 0. apply Hfind; [done|]. intros j y _ Hlt. lia.
  - exists 1. apply Hfind; [done|]. intros j y Hj Hlt [rest Heq].
    do 5 (destruct j as [|j]; [simpl in Hj; injection Hj as <-; (lia || done)|]). lia.
  - exists 2. apply Hfind; [done|]. intros j y Hj Hlt [rest Heq].
    do 5 (destruct j as [|j]; [simpl in Hj; injection Hj as <-; (lia || done)|]). lia.
  - exists 3. apply Hfind; [done|]. intros j y Hj Hlt [rest Heq].
    do 5 (destruct j as [|j]; [simpl in Hj; injection Hj as <-; (lia || done)|]). lia.
  - exists 4. apply Hfind; [done|]. intros j y Hj Hlt [rest Heq].
    do 5 (destruct j as [|j]; [simpl in Hj; injection Hj as <-; (lia || done)|]). lia.
Qed.

Lemma match_ref_call command (group rest : text) :
  command ∈ ref_commands → group ≠ [] → "}"%char ∉ group →
  match_ref ("\" ++ command ++ "{" ++ group ++ "}" ++ rest) = Some (group, rest).
Proof.
  intros Hcmd Hne Hbrace.
  change (txt "\" ++ ?s) with ("\"%char :: s). unfold match_ref.
  rewrite find_ref_command by done. cbn [mbind option_bind].
  rewrite drop_app_length. change (txt "{" ++ ?s) with ("{"%char :: s).
  change (txt "}" ++ ?s) with ("}"%char :: s). lazy iota beta.
  assert (Py.split_at_first "}" (group ++ "}"%char :: rest) = Some (group, rest)) as ->
    by by apply split_at_first_Some.
  by destruct group.
Qed.

Lemma ref_matches_call (pre command group post : text) :
  "\"%char ∉ pre → command ∈ ref_commands → group ≠ [] → "}"%char ∉ group →
  ∃ more, ref_matches 0 (pre ++ "\" ++ command ++ "{" ++ group ++ "}" ++ post)
          = group :: more.
Proof.
  intros Hpre Hcmd Hne Hbrace. rewrite ref_matches_no_backslash by done.
  change (txt "\" ++ ?s) with ("\"%char :: s). rewrite ref_matches_cons.
  change ("\"%char :: ?s) with (txt "\" ++ s).
  rewrite match_ref_call by done. eauto.
Qed.

Lemma named_in_extracted tex_files l :
  named_in tex_files l → l ∈ key_set r_key (extract_refs tex_files).
Proof.
  intros (rel & content & i & pre & command & ks & post
          & Hfile & Hline & Hcmd & Hks & Hl & Hpre & Hpercent & Hsentinel).
  apply elem_of_key_set. exists {| r_key := l; r_file := rel; r_line := S i |}.
  split; [|done]. unfold extract_refs. apply list_elem_of_bind.
  exists (rel, content). split; [|done]. apply elem_of_per_line.
  exists i, (pre ++ call command ks ++ post). split; [done|].
  unfold refs_of_line. rewrite strip_comment_plain by done.
  assert (ks ≠ []) as Hne by (intros ->; by apply elem_of_nil in Hl).
  assert (Py.join ", " ks ≠ []) as Hgroup.
  { destruct Hks as [|k ks [Hk _] _]; [done|]. destruct k; [done|]. by destruct ks. }
  assert ("}"%char ∉ Py.join ", " ks) as Hbrace.
  { intros [Hin|(k & Hk & Hin)]%elem_of_join.
    - by repeat (apply elem_of_cons in Hin as [?|Hin]; [done|]); apply elem_of_nil in Hin.
    - eapply Forall_forall in Hks as (_ & _ & _ & Hn); [|exact Hk]. done. }
  unfold call. rewrite <- !app_assoc.
  destruct (ref_matches_call pre command (Py.join ", " ks) post) as [more ->]; [done..|].
  apply list_elem_of_bind. exists (Py.join ", " ks). split; [|left].
  rewrite listed_keys_join by done. apply list_elem_of_fmap. by exists l.
Qed.

(** ** What the scripts say of a label that is referenced *)

Lemma label_issues_unreferenced prefix ref_keys env d :
  d ∈ T.label_issues prefix ref_keys env → has_type "unreferenced" d = true →
  get "label" d = Some (VStr (T.e_label env)) ∧ T.e_label env ∉ ref_keys.
Proof.
  unfold T.label_issues. case_bool_decide; [by intros ->%list_elem_of_singleton|].
  destruct (Py.startswith prefix (T.e_label env)); simpl;
    [|by intros ->%list_elem_of_singleton].
  case_bool_decide; [|by intros ?%elem_of_nil].
  by intros ->%list_elem_of_singleton.
Qed.

Lemma figure_issues_unreferenced ref_keys env d :
  d ∈ T.figure_issues ref_keys env → has_type "unreferenced" d = true →
  get "label" d = Some (VStr (T.e_label env)) ∧ T.e_label env ∉ ref_keys.
Proof.
  unfold T.figure_issues. rewrite !elem_of_app. intros [H|[H|H]].
  - by apply (label_issues_unreferenced "fig:").
  - unfold T.figure_caption_issues in H. repeat case_bool_decide;
      try (by apply elem_of_nil in H); by apply list_elem_of_singleton in H as ->.
  - unfold T.layout_issues in H. apply elem_of_app in H as [H|H].
    + destruct (Py.search T.match_width _) as [w|]; [|by apply elem_of_nil in H].
      destruct (T.above_one w); [|by apply elem_of_nil in H].
      by apply list_elem_of_singleton in H as ->.
    + destruct (Py.search T.match_negative_hspace _); [|by apply elem_of_nil in H].
      by apply list_elem_of_singleton in H as ->.
Qed.

Lemma table_issues_unreferenced ref_keys env d :
  d ∈ T.table_issues ref_keys env → has_type "unreferenced" d = true →
  get "label" d = Some (VStr (T.e_label env)) ∧ T.e_label env ∉ ref_keys.
Proof.
  unfold T.table_issues. rewrite !elem_of_app. intros [H|[H|H]].
  - by apply (label_issues_unreferenced "tab:").
  - case_bool_decide; [|by apply elem_of_nil in H].
    by apply list_elem_of_singleton in H as ->.
  - destruct (_ && _); [|by apply elem_of_nil in H].
    by apply list_elem_of_singleton in H as ->.
Qed.

Lemma section_issues_types m min_words d :
  d ∈ T.section_issues m min_words → has_type "unreferenced" d = false.
Proof.
  unfold T.section_issues. rewrite !elem_of_app.
  intros [H|[H|[H|H]]].
  - case_bool_decide; [|by apply elem_of_nil in H].
    by apply list_elem_of_singleton in H as ->.
  - apply list_elem_of_bind in H as ([idx l] & H & _).
    destruct (Py.word_search _ _ _); [|by apply elem_of_nil in H].
    by apply list_elem_of_singleton in H as ->.
  - apply list_elem_of_bind in H as ([idx l] & H & _).
    destruct (Py.strip l) as [|c s]; [by apply elem_of_nil in H|].
    destruct (_ && _); [|by apply elem_of_nil in H].
    by apply list_elem_of_singleton in H as ->.
  - apply list_elem_of_bind in H as (p & H & _).
    case_bool_decide; [|by apply elem_of_nil in H].
    by apply list_elem_of_singleton in H as ->.
Qed.

Lemma elem_of_slice_to {A} (l : list A) n x : x ∈ P.slice_to l n → x ∈ l.
Proof.
  unfold P.slice_to. destruct (_ <? _)%Z; intros (i & Hi)%list_elem_of_lookup_1;
    apply lookup_take_Some in Hi as [Hi _]; by eapply list_elem_of_lookup_2.
Qed.

Lemma unreferenced_issue_named kind prefix envs refs l d :
  d ∈ P.unreferenced_issue kind envs
        <$> sorted (P.labels_of envs ∖ P.refs_with prefix (key_set r_key refs)) →
  get "label" d = Some (VStr l) →
  Py.startswith prefix l = true → l ∉ key_set r_key refs.
Proof.
  intros (l' & -> & Hl'%elem_of_sorted%elem_of_unreferenced)%list_elem_of_fmap [= ->] Hprefix.
  destruct Hl' as (_ & _ & Hnot). rewrite elem_of_key_set. naive_solver.
Qed.

(** X24: A label that a reference command names in the files that are
    read is not reported as unreferenced by [verify_content_targets.py],
    whatever the target; [parse_latex_structure.py] does not report it as an
    unreferenced figure when it begins with [fig:], nor as an unreferenced
    table when it begins with [tab:]. *)
Theorem named_label_not_unreferenced (tex_files bib_files : list (text * text))
    (l : text) :
  named_in tex_files l →
  (∀ args payload d,
     TMain.main args tex_files = (0%Z, Some payload) → d ∈ TMain.issues payload →
     has_type "unreferenced" d = true → get "label" d ≠ Some (VStr l))
  ∧ (∀ max_issues d,
       d ∈ P.issues (PMain.main max_issues tex_files bib_files) →
       get "label" d = Some (VStr l) →
       (Py.startswith "fig:" l = true → has_type "unreferenced_figure" d = false)
       ∧ (Py.startswith "tab:" l = true → has_type "unreferenced_table" d = false)).
Proof.
  intros Hnamed%named_in_extracted. split.
  - intros args payload d Hmain Hd Htype Hlabel. unfold TMain.main in Hmain.
    assert (d ∈ T.issues
              match TMain.target args with
              | TMain.figures => T.verify_figures tex_files (extract_refs tex_files)
              | TMain.tables => T.verify_tables tex_files (extract_refs tex_files)
              | TMain.section =>
                  T.verify_section tex_files (Py.strip (TMain.section_name args))
                    (Z.max 1 (TMain.min_section_words args))
              end) as Hin.
    { destruct (TMain.target args), (Py.strip (TMain.section_name args));
        by simplify_eq/=. }
    clear Hmain Hd. destruct (TMain.target args).
    + apply elem_of_concat in Hin as (ds & (env & -> & _)%list_elem_of_fmap & Hin).
      destruct (figure_issues_unreferenced _ _ _ Hin Htype) as [Heq Hnot].
      rewrite Hlabel in Heq. by simplify_eq.
    + apply elem_of_concat in Hin as (ds & (env & -> & _)%list_elem_of_fmap & Hin).
      destruct (table_issues_unreferenced _ _ _ Hin Htype) as [Heq Hnot].
      rewrite Hlabel in Heq. by simplify_eq.
    + unfold T.verify_section in Hin. destruct (T.find_section _ _) as [m|]; simpl in Hin.
      * apply section_issues_types in Hin. congruence.
      * by apply list_elem_of_singleton in Hin as ->.
  - intros max_issues d Hd%elem_of_slice_to Hlabel.
    destruct (unreferenced_findings (extract_citations tex_files)
                (extract_bib_keys bib_files) (extract_refs tex_files)
                (extract_environments tex_files "figure" "fig:")
                (extract_environments tex_files "table" "tab:")) as [Hfig Htab].
    split; intros Hprefix; apply not_true_is_false; intros Htype.
    + assert (d ∈ of_type "unreferenced_figure"
                    (P.all_issues (extract_citations tex_files)
                       (extract_bib_keys bib_files) (extract_refs tex_files)
                       (extract_environments tex_files "figure" "fig:")
                       (extract_environments tex_files "table" "tab:"))) as Hin
        by by apply list_elem_of_filter.
      rewrite Hfig in Hin. by eapply unreferenced_issue_named.
    + assert (d ∈ of_type "unreferenced_table"
                    (P.all_issues (extract_citations tex_files)
                       (extract_bib_keys bib_files) (extract_refs tex_files)
                       (extract_environments tex_files "figure" "fig:")
                       (extract_environments tex_files "table" "tab:"))) as Hin
        by by apply list_elem_of_filter.
      rewrite Htab in Hin. by eapply unreferenced_issue_named.
Qed.

Lemma named_label_not_unreferenced_witness :
  (∀ args payload d,
     TMain.main args [(txt "main.tex", figure_paper)] = (0%Z, Some payload) →
     d ∈ TMain.issues payload →
     has_type "unreferenced" d = true → get "label" d ≠ Some (VStr "fig:plot"))
  ∧ (∀ max_issues d,
       d ∈ P.issues (PMain.main max_issues [(txt "main.tex", figure_paper)] []) →
       get "label" d = Some (VStr "fig:plot") →
       (Py.startswith "fig:" "fig:plot" = true → has_type "unreferenced_figure" d = false)
       ∧ (Py.startswith "tab:" "fig:plot" = true → has_type "unreferenced_table" d = false)).
Proof.
  apply (named_label_not_unreferenced [(txt "main.tex", figure_paper)] [] "fig:plot").
  exists "main.tex", figure_paper, 3, "See ", "autoref",
    [txt "fig:plot"; txt "fig:other"], ".".
  split_and!.
  - left.
  - by vm_compute.
  - compute_done.
  - repeat constructor; try done; compute_done.
  - left.
  - compute_done.
  - compute_done.
  - by vm_compute.
Defined.

(** ** A bibliography as it is written *)

Lemma nesting_app (a b : text) : ∀ d d',
  nesting d a = Some d' → nesting d (a ++ b) = nesting d' b.
Proof.
  induction a as [|c a IH]; intros d d' H; [by injection H as <-|].
  cbn [nesting app] in *. destruct (Py.eqc c "{"); [by apply IH|].
  destruct (Py.eqc c "}"); [|by apply IH].
  destruct d; [done|]. by apply IH.
Qed.

Lemma nesting_deeper (s : text) : ∀ d d' k,
  nesting d s = Some d' → nesting (d + k) s = Some (d' + k).
Proof.
  induction s as [|c s IH]; intros d d' k H; [by injection H as <-|].
  cbn [nesting] in *. destruct (Py.eqc c "{"); [by apply (IH (S d))|].
  destruct (Py.eqc c "}"); [|by apply IH].
  destruct d; [done|]. by apply (IH d).
Qed.

Lemma nesting_plain (s : text) d :
  "{"%char ∉ s → "}"%char ∉ s → nesting d s = Some d.
Proof.
  induction s as [|c s IH]; [done|].
  intros [H1 H1']%not_elem_of_cons [H2 H2']%not_elem_of_cons.
  cbn [nesting]. rewrite !eqc_ne by done. auto.
Qed.

Lemma balanced_app (a b : text) : balanced a → balanced b → balanced (a ++ b).
Proof. unfold balanced. intros Ha Hb. by rewrite (nesting_app a b 0 0). Qed.

Lemma balanced_plain (s : text) : "{"%char ∉ s → "}"%char ∉ s → balanced s.
Proof. apply nesting_plain. Qed.

Lemma balanced_braces (v : text) : balanced v → balanced ("{" ++ v ++ "}").
Proof.
  unfold balanced. intros H. change (txt "{" ++ ?s) with ("{"%char :: s).
  cbn [nesting]. rewrite eqc_refl.
  rewrite (nesting_app v _ 1 1); [|by apply (nesting_deeper v 0 0 1)].
  done.
Qed.

Lemma name_char_plain c :
  V.is_name_char c = true →
  c ≠ "{"%char ∧ c ≠ "}"%char ∧ c ≠ "@"%char ∧ Py.is_linebreak c = false.
Proof. by destruct c as [[] [] [] [] [] [] [] []]. Qed.

Lemma is_az_name_char c : Py.is_az c = true → V.is_name_char c = true.
Proof. unfold V.is_name_char. by intros ->. Qed.

Lemma field_name_chars name :
  field_name name → Forall (λ c, V.is_name_char c = true) name.
Proof.
  destruct name as [|c more]; [done|]. intros [Hc Hmore].
  constructor; [by apply is_az_name_char|done].
Qed.

Lemma word_char_one_line c : Py.isword c = true → Py.is_linebreak c = false.
Proof. by destruct c as [[] [] [] [] [] [] [] []]. Qed.

Lemma written_chars (Q : ascii → Prop) d (v : text) :
  Q "{"%char → Q "}"%char → Q "034"%char → Forall Q v → Forall Q (written d v).
Proof.
  intros H1 H2 H3 Hv. destruct d; simpl; [| |done];
    (constructor; [done|]); apply Forall_app; split; try done; by repeat constructor.
Qed.

Lemma field_code_chars (Q : ascii → Prop) (f : Field) :
  Q " "%char → Q "="%char → Q ","%char → Q "{"%char → Q "}"%char → Q "034"%char →
  Forall Q (f_name f) → Forall Q (f_value f) → Forall Q (field_code f).
Proof.
  intros. unfold field_code. rewrite !Forall_app.
  split_and!; try done; try (by apply written_chars); by repeat constructor.
Qed.

Lemma field_line_code (f : Field) : field_line f = field_code f ++ newline.
Proof. unfold field_line, field_code. by rewrite <- !app_assoc. Qed.

Lemma count_one_line (s : text) : one_line s → Py.count "010" s = 0.
Proof.
  induction 1 as [|c s Hc _ IH]; [done|]. rewrite count_cons, IH.
  rewrite eqc_ne; [done|]. by intros ->.
Qed.

Lemma written_balanced d (v : text) : writable d v → balanced v → balanced (written d v).
Proof.
  intros Hw Hv. destruct d; simpl; [by apply balanced_braces| |done].
  change ("034"%char :: v ++ ["034"%char]) with (["034"%char] ++ v ++ ["034"%char]).
  apply balanced_app; [done|]. by apply balanced_app.
Qed.

Section Record.

Context (r : BibRecord) (Hr : well_formed_record r).

Lemma field_well_formed f :
  f ∈ b_fields r →
  well_written f ∧ balanced (f_value f) ∧ one_line (f_value f) ∧ ("@"%char ∉ f_value f).
Proof.
  destruct Hr as (_ & _ & _ & _ & _ & Hfs). intros Hf.
  by eapply Forall_forall in Hfs.
Qed.

Lemma field_code_one_line f : f ∈ b_fields r → one_line (field_code f).
Proof.
  intros (Hw & _ & Hl & _)%field_well_formed. apply field_code_chars; try done.
  destruct Hw as [Hname _]. eapply Forall_impl; [by apply field_name_chars|].
  intros c Hc. by apply name_char_plain in Hc as (_ & _ & _ & ?).
Qed.

Lemma field_code_no_at f : f ∈ b_fields r → "@"%char ∉ field_code f.
Proof.
  intros (Hw & _ & _ & Hat)%field_well_formed.
  assert (Forall (λ c, c ≠ "@"%char) (field_code f)) as Hall.
  { apply field_code_chars; try done.
    - destruct Hw as [Hname _]. eapply Forall_impl; [by apply field_name_chars|].
      intros c Hc. by apply name_char_plain in Hc as (_ & _ & ? & _).
    - apply Forall_forall. by intros c Hc ->. }
  intros Hin. by eapply Forall_forall in Hall.
Qed.

Lemma field_line_balanced f : f ∈ b_fields r → balanced (field_line f).
Proof.
  intros (Hw & Hb & _ & _)%field_well_formed. destruct Hw as [Hname Hv].
  assert (balanced (f_name f)) as Hn.
  { pose proof (field_name_chars _ Hname) as Hchars.
    apply balanced_plain; intros Hin; eapply Forall_forall in Hchars; try exact Hin;
      by apply name_char_plain in Hchars as (? & ? & _). }
  unfold field_line. repeat (apply balanced_app; [try done|]); try done.
  by apply written_balanced.
Qed.

Lemma fields_text_balanced : balanced (fields_text (b_fields r)).
Proof.
  pose proof field_line_balanced as H. unfold fields_text.
  induction (b_fields r) as [|f fs IH]; [done|]. cbn [fmap list_fmap concat].
  apply balanced_app; [apply H; left|]. apply IH. intros g Hg. apply H. by right.
Qed.

Lemma count_fields_text : Py.count "010" (fields_text (b_fields r)) = length (b_fields r).
Proof.
  pose proof field_code_one_line as H. unfold fields_text.
  induction (b_fields r) as [|f fs IH]; [done|]. cbn [fmap list_fmap concat length].
  rewrite count_app, field_line_code, count_app, count_one_line by (apply H; left).
  rewrite IH; [done|]. intros g Hg. apply H. by right.
Qed.

Lemma record_header_one_line : one_line ("@" ++ b_type r ++ "{" ++ b_key r ++ ",").
Proof.
  destruct Hr as (_ & Hty & _ & _ & Hkey & _). unfold one_line.
  rewrite !Forall_app. split_and!; try done; try (by repeat constructor).
  eapply Forall_impl; [exact Hty|]. apply word_char_one_line.
Qed.

(** The validator reads the record, and goes on after it. *)
Lemma record_text_parsed rel nl (rest : text) :
  V.parse_entries_from rel 0 nl (record_text r ++ rest)
  = entry_of_record rel (nl + 1, r)
    :: V.parse_entries_from rel 0 (nl + length (b_fields r) + 2) rest.
Proof.
  destruct Hr as (Hne & Hty & (Hkne & Hstrip & Hcomma & Hclose) & Hopen & Hkey & Hfs).
  set (fields := newline ++ fields_text (b_fields r)).
  set (block := b_key r ++ "," ++ fields).
  assert (record_text r ++ rest
          = "@"%char :: b_type r ++ [] ++ "{"%char :: block ++ "}"%char :: newline ++ rest)
    as ->.
  { unfold record_text, block, fields. by rewrite <- !app_assoc. }
  assert (balanced block) as Hbalanced.
  { unfold block, fields. apply balanced_app; [by apply balanced_plain|].
    apply balanced_app; [done|]. apply balanced_app; [done|]. apply fields_text_balanced. }
  pose proof (brace_scan_block block (newline ++ rest) Hbalanced) as Hscan.
  assert (header (b_type r) []) as Hheader by (split_and!; [done|done|constructor]).
  rewrite (closed_record_continues rel nl (b_type r) [] _ _ _ Hheader Hscan).
  rewrite without_last_snoc. unfold block at 1.
  rewrite entry_of_block_fields by done. simpl option_list. cbn [app].
  rewrite parse_entries_from_text by by (intros ?%list_elem_of_singleton).
  f_equal.
  - unfold entry_with, entry_of_record. cbn [fst snd]. rewrite Hstrip.
    assert (V.parse_bib_fields fields = fields_map (b_fields r)) as ->; [|done].
    unfold V.parse_bib_fields, fields.
    rewrite (parse_fields_from_separators newline) by (by repeat constructor).
    apply parse_fields_from_text. eapply Forall_impl; [exact Hfs|]. by intros f [? _].
  - f_equal. unfold block, fields.
    repeat (rewrite count_cons || rewrite count_app).
    rewrite count_fields_text.
    rewrite (count_one_line (b_type r)), (count_one_line (b_key r)); [|done|].
    2:{ eapply Forall_impl; [exact Hty|]. apply word_char_one_line. }
    simpl. change (Py.count "010" []) with 0. change (Py.count "010" newline) with 1. lia.
Qed.

End Record.

Lemma bibliography_parsed rel (rs : list BibRecord) : ∀ nl,
  Forall well_formed_record rs →
  V.parse_entries_from rel 0 nl (bibliography rs)
  = entry_of_record rel <$> placed (nl + 1) rs.
Proof.
  induction rs as [|r rs IH]; intros nl Hrs; [done|].
  apply Forall_cons in Hrs as [Hr Hrs]. unfold bibliography.
  cbn [fmap list_fmap concat placed]. rewrite record_text_parsed by done.
  f_equal. rewrite (IH _ Hrs). do 2 f_equal. lia.
Qed.

Lemma splitlines_go_line (l rest : text) : ∀ cur,
  one_line l →
  Py.splitlines_go cur (l ++ newline ++ rest) = (rev cur ++ l) :: Py.splitlines_go [] rest.
Proof.
  induction l as [|c l IH]; intros cur Hl.
  - rewrite app_nil_r. cbn. by destruct rest.
  - apply Forall_cons in Hl as [Hc Hl]. cbn [app Py.splitlines_go]. rewrite Hc.
    rewrite IH by done. cbn [rev]. by rewrite <- app_assoc.
Qed.

Lemma splitlines_lines (ls : list text) :
  Forall one_line ls → Py.splitlines (concat ((λ l, l ++ newline) <$> ls)) = ls.
Proof.
  unfold Py.splitlines. induction 1 as [|l ls Hl _ IH]; [done|].
  cbn [fmap list_fmap concat]. rewrite <- app_assoc, splitlines_go_line by done.
  by rewrite IH.
Qed.

Lemma fields_text_lines (fs : list Field) :
  fields_text fs = concat ((λ l, l ++ newline) <$> (field_code <$> fs)).
Proof.
  unfold fields_text. induction fs as [|f fs IH]; [done|].
  cbn [fmap list_fmap concat]. by rewrite IH, field_line_code.
Qed.

Lemma record_text_lines (r : BibRecord) :
  record_text r = concat ((λ l, l ++ newline) <$> record_lines r).
Proof.
  unfold record_text, record_lines. rewrite fields_text_lines.
  cbn [fmap list_fmap concat]. rewrite fmap_app, concat_app.
  cbn [fmap list_fmap concat]. by rewrite app_nil_r, <- !app_assoc.
Qed.

Lemma bibliography_lines (rs : list BibRecord) :
  bibliography rs = concat ((λ l, l ++ newline) <$> (rs ≫= record_lines)).
Proof.
  unfold bibliography. induction rs as [|r rs IH]; [done|].
  cbn [fmap list_fmap concat mbind list_bind]. rewrite fmap_app, concat_app.
  by rewrite IH, record_text_lines.
Qed.

Lemma record_lines_one_line (r : BibRecord) :
  well_formed_record r → Forall one_line (record_lines r).
Proof.
  intros Hr. unfold record_lines. constructor; [by apply record_header_one_line|].
  apply Forall_app. split; [|by repeat constructor].
  apply Forall_fmap, Forall_forall. intros f Hf. by apply (field_code_one_line r).
Qed.

Lemma match_bib_key_head c (s : text) : c ≠ "@"%char → match_bib_key (c :: s) = None.
Proof. intros Hc. by destruct c as [[] [] [] [] [] [] [] []]. Qed.

Lemma search_bib_key_none (s : text) :
  "@"%char ∉ s → Py.search match_bib_key s = None.
Proof.
  induction s as [|c s IH]; [done|]. intros [Hc Hs]%not_elem_of_cons.
  cbn [Py.search]. rewrite match_bib_key_head by done. auto.
Qed.

Lemma search_bib_key_header (ty key : text) :
  ty ≠ [] → Forall (λ c, Py.isword c = true) ty → plain_key key →
  Py.search match_bib_key ("@" ++ ty ++ "{" ++ key ++ ",") = Some key.
Proof.
  intros Hne Hty (Hkne & Hstrip & Hcomma & _).
  assert (match_bib_key ("@" ++ ty ++ "{" ++ key ++ ",") = Some key) as Hmatch.
  { change (txt "@" ++ ?s) with ("@"%char :: s). unfold match_bib_key.
    rewrite (span_app Py.isword ty) by done.
    destruct ty as [|t ty]; [done|]. change (txt "{" ++ ?s) with ("{"%char :: s).
    cbn [Py.span]. assert (Py.isspace "{" = false) as -> by done. cbn [snd].
    pose proof (trimmed_strip key) as [Hhead _]. rewrite Hstrip in Hhead.
    destruct key as [|k key]; [done|].
    cbn [app Py.span]. rewrite Hhead.
    change (k :: key ++ ",") with ((k :: key) ++ ","%char :: []).
    rewrite (span_app (λ c, negb (Py.eqc c ",")) (k :: key)); [done| |done].
    apply Forall_forall. intros c Hc. rewrite eqc_ne; [done|]. by intros ->. }
  destruct ("@" ++ ty ++ "{" ++ key ++ ",") eqn:E; cbn [Py.search]; by rewrite Hmatch.
Qed.

Lemma bib_keys_of_lines rel (ls : list text) : ∀ n,
  Forall (λ l, "@"%char ∉ l) ls →
  concat (imap (λ i l, bib_key_of_line rel (S (n + i)) l) ls) = [].
Proof.
  induction ls as [|l ls IH]; intros n Hls; [done|].
  apply Forall_cons in Hls as [Hl Hls]. rewrite imap_cons. cbn [concat].
  unfold bib_key_of_line at 1. rewrite search_bib_key_none by done. cbn [app].
  rewrite <- (IH (S n) Hls). f_equal. apply imap_ext. intros i x _. simpl. do 2 f_equal. lia.
Qed.

Lemma bib_keys_of_records rel (rs : list BibRecord) : ∀ n,
  Forall well_formed_record rs →
  concat (imap (λ i l, bib_key_of_line rel (S (n + i)) l) (rs ≫= record_lines))
  = key_of_record rel <$> placed (S n) rs.
Proof.
  induction rs as [|r rs IH]; intros n Hrs; [done|].
  apply Forall_cons in Hrs as [Hr Hrs]. cbn [mbind list_bind placed fmap list_fmap].
  rewrite imap_app, concat_app. unfold record_lines at 1. rewrite imap_cons. cbn [concat].
  pose proof Hr as (Hne & Hty & Hkey & Hopen & Hline & Hfs).
  unfold bib_key_of_line at 1. rewrite search_bib_key_header by done.
  destruct Hkey as (_ & -> & _). rewrite Nat.add_0_r. cbn [app]. f_equal.
  assert (imap ((λ i l, bib_key_of_line rel (S (n + i)) l) ∘ S)
            ((field_code <$> b_fields r) ++ [txt "}"])
          = imap (λ i l, bib_key_of_line rel (S (S n + i)) l)
              ((field_code <$> b_fields r) ++ [txt "}"])) as ->.
  { apply imap_ext. intros i x _. simpl. do 2 f_equal. lia. }
  rewrite bib_keys_of_lines.
  2:{ apply Forall_app. split; [|by repeat constructor; intros ?%list_elem_of_singleton].
      apply Forall_fmap, Forall_forall. intros f Hf. by apply (field_code_no_at r). }
  cbn [app].
  assert (imap (λ i l, bib_key_of_line rel (S (n + (length (record_lines r) + i))) l)
            (rs ≫= record_lines)
          = imap (λ i l, bib_key_of_line rel (S (n + length (b_fields r) + 2 + i)) l)
              (rs ≫= record_lines)) as ->.
  { apply imap_ext. intros i x _. simpl. do 2 f_equal.
    unfold record_lines. cbn [length]. rewrite length_app, length_fmap. simpl. lia. }
  by rewrite (IH _ Hrs).
Qed.

(** X25: A bibliography whose records are written in the usual way, one field
    on a line, is read alike by the two scripts: the validator returns the
    entry of each record, with the fields as they are stored, and the
    structure parser returns the key of each record, both with the file and
    with the line of the header of the record. *)
Theorem written_bibliography_read (rel : text) (rs : list BibRecord) :
  Forall well_formed_record rs →
  V.parse_bib_entries [(rel, bibliography rs)] = entry_of_record rel <$> placed 1 rs
  ∧ extract_bib_keys [(rel, bibliography rs)] = key_of_record rel <$> placed 1 rs.
Proof.
  intros Hrs. split.
  - unfold V.parse_bib_entries. cbn [fmap list_fmap concat]. rewrite app_nil_r.
    by rewrite (bibliography_parsed rel rs 0).
  - unfold extract_bib_keys. cbn [mbind list_bind]. rewrite app_nil_r.
    unfold per_line. rewrite bibliography_lines, splitlines_lines.
    + apply (bib_keys_of_records rel rs 0 Hrs).
    + apply Forall_bind. eapply Forall_impl; [exact Hrs|]. apply record_lines_one_line.
Qed.

Lemma written_bibliography_read_witness :
  V.parse_bib_entries [(txt "refs.bib", bibliography two_records)]
  = [ {| V.key := "lecun2015"; V.entry_type := "article"; V.file := "refs.bib";
         V.line := 1; V.title := "Deep {L}earning"; V.author := ""; V.year := "2015";
         V.doi := ""; V.arxiv := "" |};
      {| V.key := "he:16"; V.entry_type := "misc"; V.file := "refs.bib";
         V.line := 5; V.title := ""; V.author := ""; V.year := "";
         V.doi := ""; V.arxiv := "1512.03385" |} ]
  ∧ extract_bib_keys [(txt "refs.bib", bibliography two_records)]
    = [ {| P.key := "lecun2015"; P.file := "refs.bib"; P.line := 1 |};
        {| P.key := "he:16"; P.file := "refs.bib"; P.line := 5 |} ].
Proof.
  destruct (written_bibliography_read "refs.bib" two_records) as [-> ->].
  - repeat constructor; try done; try compute_done.
  - split; vm_compute; reflexivity.
Defined.
